(** * The workflow editor's validation and inference core

    A shallow embedding of [src/lib/yaml-utils.js], [src/lib/sql-utils.js],
    the upload helpers ([validateS3Filename], [ensureYamlExtension],
    [generateDefaultFilename]) and the action-definition table, and of the
    handlers of the page, the action builder and the flow visualizer that
    work on the action list, with the properties the specification states
    about them and further properties the code has.

    The definitions come first, organised as the source is: [Js] holds the
    fragment of the JavaScript run time the code relies on (strings,
    values, exceptions, array iteration, regular expressions), and
    [ActionDefinitions], [YamlUtils], [SqlUtils] and [S3Utils] hold one
    source file each; [HomePage], [ActionBuilder] and [FlowVisualizer]
    hold the state and the handlers of one component each.  The
    properties follow, in [JsFacts], [YamlFacts], [SqlFacts], [S3Facts],
    [DefinitionFacts], [HomePageFacts], [ActionBuilderFacts] and
    [FlowFacts].

    What lies outside the code is a parameter: [yaml.load] of js-yaml in
    [validateYaml], [format] of sql-formatter in [formatSQL] and
    [validateSQL], the time of the call in [generateDefaultFilename], and
    in the flow visualizer the numbers of the run time with the three
    layouts that compute with fractions, random numbers or the identity
    of objects. *)

From Stdlib Require Import String Ascii List ZArith Lia Bool.
From Stdlib Require Import DecimalString DecimalNat.
From stdpp Require Import base list strings gmap.

Set Warnings "-register-all".
Open Scope string_scope.

(* ===================================================================== *)
(** * The JavaScript run time, as far as the code uses it *)
(* ===================================================================== *)

Module Js.

(** ** Strings

    A JavaScript string is modelled by a Rocq [string]; a character stands
    for one code unit of the ASCII range, which is where the case mappings,
    the white space of [trim] and [\s], and the word characters of [\w]
    below are the language's own. *)

(** [s.includes(sub)] *)
Fixpoint includes (s sub : string) : bool :=
  String.prefix sub s
  || match s with
     | EmptyString => false
     | String _ s' => includes s' sub
     end.

(** [s.startsWith(p)] and [s.endsWith(p)] *)
Definition startsWith (s p : string) : bool := String.prefix p s.

Fixpoint endsWith (s p : string) : bool :=
  String.eqb s p
  || match s with
     | EmptyString => false
     | String _ s' => endsWith s' p
     end.

Fixpoint map_string (f : ascii -> ascii) (s : string) : string :=
  match s with
  | EmptyString => EmptyString
  | String c s' => String (f c) (map_string f s')
  end.

Definition is_upper (c : ascii) : bool :=
  ((65 <=? nat_of_ascii c) && (nat_of_ascii c <=? 90))%nat.
Definition is_lower (c : ascii) : bool :=
  ((97 <=? nat_of_ascii c) && (nat_of_ascii c <=? 122))%nat.
Definition is_digit (c : ascii) : bool :=
  ((48 <=? nat_of_ascii c) && (nat_of_ascii c <=? 57))%nat.

Definition upper_char (c : ascii) : ascii :=
  if is_lower c then ascii_of_nat (nat_of_ascii c - 32) else c.
Definition lower_char (c : ascii) : ascii :=
  if is_upper c then ascii_of_nat (nat_of_ascii c + 32) else c.

(** [s.toUpperCase()] and [s.toLowerCase()] of an ASCII text: the letters
    from [a] to [z] and from [A] to [Z] are the only ones mapped. *)
Definition toUpperCase : string -> string := map_string upper_char.
Definition toLowerCase : string -> string := map_string lower_char.

(** White space: the ASCII characters [trim] strips and [\s] matches
    (TAB, LF, VT, FF, CR and the space). *)
Definition is_space (c : ascii) : bool :=
  (((9 <=? nat_of_ascii c) && (nat_of_ascii c <=? 13)) || (nat_of_ascii c =? 32))%nat.

Fixpoint trimStart (s : string) : string :=
  match s with
  | EmptyString => EmptyString
  | String c s' => if is_space c then trimStart s' else s
  end.

Fixpoint trimEnd (s : string) : string :=
  match s with
  | EmptyString => EmptyString
  | String c s' =>
      match trimEnd s' with
      | EmptyString => if is_space c then EmptyString else String c EmptyString
      | r => String c r
      end
  end.

(** [s.trim()] *)
Definition trim (s : string) : string := trimEnd (trimStart s).


(** The decimal numeral of an index, as a template literal prints it. *)
Definition dec (n : nat) : string := NilEmpty.string_of_uint (Nat.to_uint n).

Definition dec_Z (n : Z) : string :=
  if (n <? 0)%Z then "-" +:+ dec (Z.abs_nat n) else dec (Z.abs_nat n).

(** ** Values

    The values a loaded document is made of: the scalars, sequences and
    mappings.  Numbers are the integers (a YAML integer scalar; fractions,
    NaN and the infinities have no counterpart here, nor have timestamps);
    a mapping keeps its entries in the order [Object.entries] lists them.
    There are no functions, so every property of a mapping is a data
    property. *)

Inductive value : Type :=
| VUndefined
| VNull
| VBool (b : bool)
| VNumber (n : Z)
| VString (s : string)
| VArray (items : list value)
| VObject (fields : list (string * value)).

(** What can be thrown: an [Error] instance with its message, or any other
    value. *)
Inductive thrown : Type :=
| ErrorObject (name message : string)
| ThrownValue (v : value).

Definition TypeError (message : string) : thrown := ErrorObject "TypeError" message.

Inductive result (A : Type) : Type :=
| Ok (a : A)
| Throw (e : thrown).
Arguments Ok {A} a.
Arguments Throw {A} e.

Definition rbind {A B} (c : result A) (k : A -> result B) : result B :=
  match c with
  | Ok a => k a
  | Throw e => Throw e
  end.

Declare Scope js_scope.
Delimit Scope js_scope with js.
Notation "x <- c1 ;; c2" := (rbind c1 (fun x => c2))
  (at level 100, c1 at next level, right associativity) : js_scope.

(** [typeof v] *)
Definition typeof (v : value) : string :=
  match v with
  | VUndefined => "undefined"
  | VNull => "object"
  | VBool _ => "boolean"
  | VNumber _ => "number"
  | VString _ => "string"
  | VArray _ => "object"
  | VObject _ => "object"
  end.

(** [Array.isArray(v)] *)
Definition isArray (v : value) : bool :=
  match v with
  | VArray _ => true
  | _ => false
  end.

(** ToBoolean: [undefined], [null], [false], [0] and the empty string are falsy,
    everything else (every sequence and mapping, also an empty one) is
    truthy. *)
Definition truthy (v : value) : bool :=
  match v with
  | VUndefined | VNull => false
  | VBool b => b
  | VNumber n => negb (n =? 0)%Z
  | VString s => negb (String.eqb s EmptyString)
  | VArray _ | VObject _ => true
  end.

(** [a === b].  Scalars compare by value.  Sequences and mappings compare
    by identity; two of them met at different places of a document are
    different objects (a document that shares one through an alias is not
    modelled). *)
Definition strict_equals (a b : value) : bool :=
  match a, b with
  | VUndefined, VUndefined => true
  | VNull, VNull => true
  | VBool x, VBool y => Bool.eqb x y
  | VNumber x, VNumber y => (x =? y)%Z
  | VString x, VString y => String.eqb x y
  | _, _ => false
  end.

(** Equality of values is decidable. *)
Fixpoint value_eq_dec (a b : value) {struct a} : {a = b} + {a <> b}.
Proof.
  decide equality.
  - apply Bool.bool_dec.
  - apply Z.eq_dec.
  - apply String.string_dec.
  - apply (List.list_eq_dec value_eq_dec).
  - apply List.list_eq_dec. intros [k v] [k' v'].
    destruct (String.string_dec k k'); [|right; congruence].
    destruct (value_eq_dec v v'); [left|right]; congruence.
Defined.

(** The own property [k] of a mapping, [undefined] when it has none. *)
Fixpoint lookup_field (k : string) (fields : list (string * value)) : value :=
  match fields with
  | [] => VUndefined
  | (k', v) :: rest => if String.eqb k' k then v else lookup_field k rest
  end.

(** [v[k]] for the property names this code reads ([actions], [action],
    [dataframe], the mandatory property names, the own keys of a record):
    reading a property of [undefined] or [null] throws, a mapping answers
    with its own property, and a scalar or a sequence has no property of
    such a name.  The messages of the errors the run time throws are
    those of V8; the code only copies them. *)
Definition get_prop (v : value) (k : string) : result value :=
  match v with
  | VUndefined =>
      Throw (TypeError ("Cannot read properties of undefined (reading '" +:+ k +:+ "')"))
  | VNull =>
      Throw (TypeError ("Cannot read properties of null (reading '" +:+ k +:+ "')"))
  | VObject fields => Ok (lookup_field k fields)
  | _ => Ok VUndefined
  end.

Definition has_field (k : string) (fields : list (string * value)) : bool :=
  existsb (fun e => String.eqb (fst e) k) fields.

Fixpoint join_strings (sep : string) (l : list string) : string :=
  match l with
  | [] => EmptyString
  | [s] => s
  | s :: rest => s +:+ sep +:+ join_strings sep rest
  end.

Fixpoint sequence {A} (l : list (result A)) : result (list A) :=
  match l with
  | [] => Ok []
  | c :: rest => (a <- c ;; r <- sequence rest ;; Ok (a :: r))%js
  end.

(** ToString, as a template literal, a property key and the argument of
    [String.prototype.includes] apply it.  A sequence prints as
    [Array.prototype.join] does (an [undefined] or [null] item prints as
    nothing).  A mapping prints as [[object Object]], unless it has an own
    [toString] entry: that entry is not callable, [valueOf] gives back the
    mapping or is not callable either, and the conversion throws. *)
Fixpoint to_string (v : value) : result string :=
  match v with
  | VUndefined => Ok "undefined"
  | VNull => Ok "null"
  | VBool true => Ok "true"
  | VBool false => Ok "false"
  | VNumber n => Ok (dec_Z n)
  | VString s => Ok s
  | VArray items =>
      (parts <- sequence
                  (map (fun item =>
                          match item with
                          | VUndefined | VNull => Ok EmptyString
                          | _ => to_string item
                          end) items) ;;
       Ok (join_strings "," parts))%js
  | VObject fields =>
      if has_field "toString" fields
      then Throw (TypeError "Cannot convert object to primitive value")
      else Ok "[object Object]"
  end.

(** [Object.entries(v)]: the entries of a mapping, the indexed items of a
    sequence, the indexed characters of a string, nothing for a number or a
    boolean. *)
Fixpoint indexed_from {A} (i : nat) (l : list A) : list (string * A) :=
  match l with
  | [] => []
  | x :: rest => (dec i, x) :: indexed_from (S i) rest
  end.

Definition chars (s : string) : list ascii := list_ascii_of_string s.

Definition entries (v : value) : result (list (string * value)) :=
  match v with
  | VUndefined | VNull =>
      Throw (TypeError "Cannot convert undefined or null to object")
  | VObject fields => Ok fields
  | VArray items => Ok (indexed_from 0 items)
  | VString s =>
      Ok (indexed_from 0 (map (fun c => VString (String c EmptyString)) (chars s)))
  | VBool _ | VNumber _ => Ok []
  end.

(** ** Statements: state and exceptions

    A block of statements that pushes onto an array it shares with its
    caller and may throw: the state survives the exception, as the array
    does. *)
Definition M (St A : Type) : Type := St -> result A * St.

Definition ret {St A} (a : A) : M St A := fun s => (Ok a, s).
Definition throw {St A} (e : thrown) : M St A := fun s => (Throw e, s).
Definition lift {St A} (c : result A) : M St A := fun s => (c, s).
Definition bind {St A B} (c : M St A) (k : A -> M St B) : M St B :=
  fun s =>
    match c s with
    | (Ok a, s') => k a s'
    | (Throw e, s') => (Throw e, s')
    end.
Definition get_state {St} : M St St := fun s => (Ok s, s).
Definition put_state {St} (s : St) : M St unit := fun _ => (Ok tt, s).

Declare Scope stmt_scope.
Delimit Scope stmt_scope with stmt.
Notation "x <- c1 ;; c2" := (bind c1 (fun x => c2))
  (at level 100, c1 at next level, right associativity) : stmt_scope.
Notation "c1 ;; c2" := (bind c1 (fun _ => c2))
  (at level 100, right associativity) : stmt_scope.

(** [array.push(x)] on the array held in the state *)
Definition push {A} (x : A) : M (list A) unit := fun s => (Ok tt, (s ++ [x])%list).

(** [array.forEach((item, index) => ...)] *)
Fixpoint forEach_from {St A} (f : A -> nat -> M St unit) (l : list A) (i : nat)
  : M St unit :=
  match l with
  | [] => ret tt
  | x :: rest => (f x i ;; forEach_from f rest (S i))%stmt
  end.

Definition forEach {St A} (f : A -> nat -> M St unit) (l : list A) : M St unit :=
  forEach_from f l 0.

(** A block that only pushes onto the array of its state: what it pushes
    does not depend on what the array holds already. *)
Definition appends {A B} (c : M (list A) B) : Prop :=
  forall s, c s = (fst (c []), (s ++ snd (c []))%list).

(** [array.some(f)], with a callback that may throw *)
Fixpoint some {A} (f : A -> result bool) (l : list A) : result bool :=
  match l with
  | [] => Ok false
  | x :: rest => (b <- f x ;; if b : bool then Ok true else some f rest)%js
  end.

(** [s.split(sep)] for a separator of one character *)
Fixpoint split (sep : ascii) (s : string) : list string :=
  match s with
  | EmptyString => [EmptyString]
  | String c s' =>
      if Ascii.eqb c sep then EmptyString :: split sep s'
      else
        match split sep s' with
        | [] => [String c EmptyString]
        | piece :: pieces => String c piece :: pieces
        end
  end.

(** [s.indexOf(sub)], when [sub] occurs in [s] *)
Fixpoint indexOf (s sub : string) : option nat :=
  if String.prefix sub s then Some 0
  else
    match s with
    | EmptyString => None
    | String _ s' => option_map S (indexOf s' sub)
    end.

(** [s.substring(start)] *)
Fixpoint substring_from (start : nat) (s : string) : string :=
  match start, s with
  | 0, _ => s
  | S n, String _ s' => substring_from n s'
  | S _, EmptyString => EmptyString
  end.

(** ** Regular expressions

    The patterns of the source use literals, character classes, sequence,
    alternation, the greedy star and plus, [\b], the multi-line [$] and
    one look-behind.  The matcher is the backtracking one of the language:
    it tries the alternatives in the order of the pattern and hands what
    is left of the input to a continuation.  [prev] is the character
    before the current position, which [\b] and the look-behind consult. *)

Inductive regex : Type :=
| Eps
| Char (p : ascii -> bool)
| Seq (r1 r2 : regex)
| Alt (r1 r2 : regex)
| Star (r : regex)
| WordBoundary
| LineEnd
| NotAfter (p : ascii -> bool).

Definition Plus (r : regex) : regex := Seq r (Star r).

(** [\w], [\s] is [is_space], [.] *)
Definition is_word (c : ascii) : bool :=
  is_upper c || is_lower c || is_digit c || Ascii.eqb c "_".
Definition is_line_terminator (c : ascii) : bool :=
  Ascii.eqb c "010" || Ascii.eqb c "013".
Definition dot : regex := Char (fun c => negb (is_line_terminator c)).
Definition space : regex := Char is_space.
Definition word : regex := Char is_word.
Definition one_of (cs : string) : regex :=
  Char (fun c => existsb (Ascii.eqb c) (chars cs)).
Definition double_quote : ascii := "034".

(** A literal, and a literal under the [i] flag. *)
Fixpoint lit (s : string) : regex :=
  match s with
  | EmptyString => Eps
  | String c EmptyString => Char (Ascii.eqb c)
  | String c s' => Seq (Char (Ascii.eqb c)) (lit s')
  end.

Fixpoint lit_i (s : string) : regex :=
  match s with
  | EmptyString => Eps
  | String c EmptyString => Char (fun x => Ascii.eqb (upper_char x) (upper_char c))
  | String c s' =>
      Seq (Char (fun x => Ascii.eqb (upper_char x) (upper_char c))) (lit_i s')
  end.

Fixpoint seq_of (rs : list regex) : regex :=
  match rs with
  | [] => Eps
  | [r] => r
  | r :: rest => Seq r (seq_of rest)
  end.

Fixpoint alt_of (rs : list regex) : regex :=
  match rs with
  | [] => Char (fun _ => false)
  | [r] => r
  | r :: rest => Alt r (alt_of rest)
  end.

Definition next_char (s : string) : option ascii :=
  match s with
  | EmptyString => None
  | String c _ => Some c
  end.

Definition is_word_at (c : option ascii) : bool :=
  match c with
  | Some c => is_word c
  | None => false
  end.

Fixpoint match_at {A} (r : regex) (prev : option ascii) (s : string)
    (k : option ascii -> string -> option A) : option A :=
  match r with
  | Eps => k prev s
  | Char p =>
      match s with
      | String c s' => if p c then k (Some c) s' else None
      | EmptyString => None
      end
  | Seq r1 r2 => match_at r1 prev s (fun prev' s' => match_at r2 prev' s' k)
  | Alt r1 r2 =>
      match match_at r1 prev s k with
      | Some a => Some a
      | None => match_at r2 prev s k
      end
  | Star r' =>
      (fix star (fuel : nat) (prev : option ascii) (s : string) : option A :=
         match fuel with
         | 0 => k prev s
         | S fuel' =>
             match
               match_at r' prev s
                 (fun prev' s' =>
                    if (String.length s' <? String.length s)%nat
                    then star fuel' prev' s'
                    else None)
             with
             | Some a => Some a
             | None => k prev s
             end
         end) (String.length s) prev s
  | WordBoundary =>
      if xorb (is_word_at prev) (is_word_at (next_char s)) then k prev s else None
  | LineEnd =>
      match s with
      | EmptyString => k prev s
      | String c _ => if is_line_terminator c then k prev s else None
      end
  | NotAfter p =>
      match prev with
      | Some c => if p c then None else k prev s
      | None => k prev s
      end
  end.

(** The match that starts at the current position: the character before
    what is left, and what is left. *)
Definition exec_at (r : regex) (prev : option ascii) (s : string)
  : option (option ascii * string) :=
  match_at r prev s (fun prev' s' => Some (prev', s')).

Fixpoint search (r : regex) (prev : option ascii) (s : string) : bool :=
  match exec_at r prev s with
  | Some _ => true
  | None =>
      match s with
      | EmptyString => false
      | String c s' => search r (Some c) s'
      end
  end.

(** [pattern.test(s)], and a truthy [s.match(pattern)] without the [g]
    flag. *)
Definition test (r : regex) (s : string) : bool := search r None s.

(** [s.match(pattern) || []] with the [g] flag: the matches from left to
    right, each search starting where the match before stopped. *)
Fixpoint match_all_from (fuel : nat) (r : regex) (prev : option ascii)
    (s : string) : list string :=
  match fuel with
  | 0 => []
  | S fuel' =>
      let advance :=
        match s with
        | EmptyString => []
        | String c s' => match_all_from fuel' r (Some c) s'
        end in
      match exec_at r prev s with
      | None => advance
      | Some (prev', s') =>
          let matched := substring 0 (String.length s - String.length s') s in
          if (String.length s' <? String.length s)%nat
          then matched :: match_all_from fuel' r prev' s'
          else matched :: advance
      end
  end.

Definition match_all (r : regex) (s : string) : list string :=
  match_all_from (S (String.length s)) r None s.


End Js.

Import Js.

(* ===================================================================== *)
(** * The action-definition table *)
(* ===================================================================== *)

Module ActionDefinitions.

Record ActionDefinition : Type := {
  name : string;
  color : string;
  icon : string;
  mandatoryProps : list string;
  optionalProps : list string
}.

Definition actionDefinitions : list ActionDefinition := [
  {| name := "Extract"; color := "#4CAF50"; icon := "database";
     mandatoryProps := ["action"; "name"; "dataframe"; "location"];
     optionalProps := ["tableName"; "databaseName"] |};
  {| name := "Execute"; color := "#2196F3"; icon := "play";
     mandatoryProps := ["action"; "name"; "dataframe"; "script"];
     optionalProps := ["output"] |};
  {| name := "Transform"; color := "#FF9800"; icon := "refresh-cw";
     mandatoryProps := ["action"; "name"; "dataframe"; "transformations"];
     optionalProps := ["options"] |};
  {| name := "Load"; color := "#9C27B0"; icon := "upload";
     mandatoryProps := ["action"; "name"; "dataframe"; "destination"];
     optionalProps := ["format"; "options"] |};
  {| name := "Merge"; color := "#F44336"; icon := "git-merge";
     mandatoryProps := ["action"; "name"; "dataframe"; "sources"];
     optionalProps := ["strategy"; "options"] |};
  {| name := "Purge"; color := "#795548"; icon := "trash-2";
     mandatoryProps := ["action"; "name"; "dataframe"; "target"];
     optionalProps := ["options"] |};
  {| name := "S3Replicate"; color := "#607D8B"; icon := "copy";
     mandatoryProps := ["action"; "name"; "dataframe"; "source"; "destination"];
     optionalProps := ["options"] |};
  {| name := "Include"; color := "#009688"; icon := "file-plus";
     mandatoryProps := ["action"; "name"; "dataframe"; "path"];
     optionalProps := ["options"] |}
].

(** [actionDefinitions.find((def) => def.name === actionName)] *)
Definition getActionDefinition (actionName : value) : option ActionDefinition :=
  List.find (fun def => strict_equals (VString (name def)) actionName)
            actionDefinitions.

(** The getters built on [getActionDefinition], each with its default for
    a name the table does not have. *)
Definition getActionIcon (actionName : value) : string :=
  match getActionDefinition actionName with
  | Some definition => icon definition
  | None => "help-circle"
  end.

Definition getActionColor (actionName : value) : string :=
  match getActionDefinition actionName with
  | Some definition => color definition
  | None => "#999999"
  end.

Definition getMandatoryProps (actionName : value) : list string :=
  match getActionDefinition actionName with
  | Some definition => mandatoryProps definition
  | None => []
  end.

Definition getOptionalProps (actionName : value) : list string :=
  match getActionDefinition actionName with
  | Some definition => optionalProps definition
  | None => []
  end.

(** The type names of [ACTION_NAMES]. *)
Definition ACTION_NAMES : list string := [
  "Extract"; "Execute"; "Transform"; "Load"; "Merge"; "Purge"; "S3Replicate";
  "Include"
].

End ActionDefinitions.

(* ===================================================================== *)
(** * yaml-utils.js *)
(* ===================================================================== *)

Module YamlUtils.

Import ActionDefinitions.

(** ** findRelationships *)

(** The property names every mapping inherits from [Object.prototype]:
    read on the fresh [dataframeMap], each of them answers with a value
    that is truthy and has no [push]. *)
Definition object_prototype_keys : list string := [
  "constructor"; "hasOwnProperty"; "isPrototypeOf"; "propertyIsEnumerable";
  "toLocaleString"; "toString"; "valueOf"; "__proto__";
  "__defineGetter__"; "__defineSetter__"; "__lookupGetter__"; "__lookupSetter__"
].

(** The callback of the first loop, which fills [dataframeMap]. *)
Definition indexDataframe (action : value) (index : nat)
  : M (gmap string (list nat)) unit :=
  (dataframe <- lift (get_prop action "dataframe") ;;
   if truthy dataframe then
     key <- lift (to_string dataframe) ;;
     dataframeMap <- get_state ;;
     match dataframeMap !! key with
     | Some indices => put_state (<[key := (indices ++ [index])%list]> dataframeMap)
     | None =>
         if existsb (String.eqb key) object_prototype_keys
         then throw (TypeError "dataframeMap[action.dataframe].push is not a function")
         else put_state (<[key := [index]]> dataframeMap)
     end
   else ret tt)%stmt.

(** [value.includes(sourceDataframe)] *)
Definition includes_value (s : string) (sourceDataframe : value) : result bool :=
  (sub <- to_string sourceDataframe ;; Ok (includes s sub))%js.

(** The callback of [Object.entries(targetAction).some(...)]. *)
Definition entryUses (sourceDataframe : value) (entry : string * value)
  : result bool :=
  let '(key, value) := entry in
  if String.eqb key "action" || String.eqb key "name" then Ok false
  else
    match value with
    | VString s => includes_value s sourceDataframe
    | VArray items =>
        some (fun item =>
                match item with
                | VString s => includes_value s sourceDataframe
                | _ => Ok false
                end) items
    | _ => Ok false
    end.

Definition usesDataframe (sourceDataframe targetAction : value) : result bool :=
  (es <- entries targetAction ;; some (entryUses sourceDataframe) es)%js.

(** The guard for [Load] actions. *)
Definition loadGuard (sourceDataframe targetAction : value) : result bool :=
  (action <- get_prop targetAction "action" ;;
   if strict_equals action (VString "Load") then
     dataframe <- get_prop targetAction "dataframe" ;;
     Ok (strict_equals dataframe sourceDataframe)
   else Ok false)%js.

(** The node identifier of the action at [index], and the edge the code
    pushes for a pair of indices. *)
Definition action_id (index : nat) : string := "action-" +:+ dec index.

Definition edge (sourceIndex targetIndex : nat) : value :=
  VObject [("source", VString (action_id sourceIndex));
           ("target", VString (action_id targetIndex))].

(** The callback of the inner loop. *)
Definition relate (sourceDataframe : value) (sourceIndex : nat)
    (targetAction : value) (targetIndex : nat) : M (list value) unit :=
  if Nat.eqb sourceIndex targetIndex then ret tt
  else
    (skip <- lift (loadGuard sourceDataframe targetAction) ;;
     if skip : bool then ret tt
     else
       uses <- lift (usesDataframe sourceDataframe targetAction) ;;
       if uses : bool then push (edge sourceIndex targetIndex) else ret tt)%stmt.

(** The callback of the outer loop. *)
Definition relateAll (actions : list value) (sourceAction : value)
    (sourceIndex : nat) : M (list value) unit :=
  (sourceDataframe <- lift (get_prop sourceAction "dataframe") ;;
   forEach (relate sourceDataframe sourceIndex) actions)%stmt.

Definition findRelationships (actions : list value) : result (list value) :=
  match forEach indexDataframe actions ∅ with
  | (Throw e, _) => Throw e
  | (Ok _, _) =>
      match forEach (relateAll actions) actions [] with
      | (Throw e, _) => Throw e
      | (Ok _, relationships) => Ok relationships
      end
  end.

(** The document of the scenario. *)
Definition scenario : list value := [
  VObject [("action", VString "Extract"); ("name", VString "a");
           ("dataframe", VString "d1"); ("location", VString "p")];
  VObject [("action", VString "Transform"); ("name", VString "b");
           ("dataframe", VString "d2");
           ("transformations", VArray [VString "select * from d1"])]
].

(** *** Notions for the statements about findRelationships *)

(** What the code has found out about a pair of indices by the time it
    pushes their edge. *)
Definition related (actions : list value) (p : nat * nat) : Prop :=
  p.1 <> p.2 /\
  exists sourceAction targetAction sourceDataframe,
    actions !! p.1 = Some sourceAction /\
    actions !! p.2 = Some targetAction /\
    get_prop sourceAction "dataframe" = Ok sourceDataframe /\
    loadGuard sourceDataframe targetAction = Ok false /\
    usesDataframe sourceDataframe targetAction = Ok true.

(** The pairs the loops have gone through when the outer one is at
    [sourceIndex] and the inner one at [targetIndex]. *)
Definition visited (p : nat * nat) (sourceIndex targetIndex : nat) : Prop :=
  p.1 < sourceIndex \/ (p.1 = sourceIndex /\ p.2 < targetIndex).

Definition edges_of (pairs : list (nat * nat)) : list value :=
  map (fun p => edge p.1 p.2) pairs.

(** The invariant of the two loops on the [relationships] array: it holds
    the edges of the related pairs gone through, each once. *)
Definition relationships_upto (actions : list value)
    (sourceIndex targetIndex : nat) (relationships : list value) : Prop :=
  exists pairs,
    relationships = edges_of pairs /\
    NoDup pairs /\
    Forall (fun p => related actions p /\ visited p sourceIndex targetIndex) pairs /\
    (forall p, related actions p -> visited p sourceIndex targetIndex -> In p pairs).

(** A record whose [dataframe] is absent or a string that does not name a
    member of [Object.prototype]. *)
Definition plain_record (action : value) : Prop :=
  exists fields,
    action = VObject fields /\
    (lookup_field "dataframe" fields = VUndefined \/
     exists s, lookup_field "dataframe" fields = VString s /\
               existsb (String.eqb s) object_prototype_keys = false).

(** A document in which a [Load] follows the [Extract] it loads. *)
Definition extract_then_load : list value := [
  VObject [("action", VString "Extract"); ("name", VString "read");
           ("dataframe", VString "d1"); ("location", VString "p")];
  VObject [("action", VString "Load"); ("name", VString "store d1");
           ("dataframe", VString "d1"); ("destination", VString "d1_table")]
].

(** ** validateYaml *)

Record validation : Type := { errors : list string; data : value }.

(** The callback of [definition.mandatoryProps.forEach]. *)
Definition checkMandatory (action actionType : value) (index : nat)
    (prop : string) (_ : nat) : M (list string) unit :=
  if negb (String.eqb prop "action") then
    (v <- lift (get_prop action prop) ;;
     if negb (truthy v) then
       tag <- lift (to_string actionType) ;;
       push ("Action '" +:+ tag +:+ "' at index " +:+ dec index
             +:+ " is missing mandatory property '" +:+ prop +:+ "'")
     else ret tt)%stmt
  else ret tt.

(** The callback of [data.actions.forEach]. *)
Definition validateAction (action : value) (index : nat) : M (list string) unit :=
  (actionType <- lift (get_prop action "action") ;;
   if negb (truthy actionType) then
     push ("Action at index " +:+ dec index +:+ " is missing the 'action' property")
   else
     match getActionDefinition actionType with
     | None =>
         tag <- lift (to_string actionType) ;;
         push ("Unknown action type '" +:+ tag +:+ "' at index " +:+ dec index)
     | Some definition =>
         forEach (checkMandatory action actionType index) (mandatoryProps definition)
     end)%stmt.

(** The message the [catch] clause pushes. *)
Definition catch_message (e : thrown) : string :=
  match e with
  | ErrorObject _ message => "YAML parsing error: " +:+ message
  | ThrownValue _ => "Unknown YAML parsing error"
  end.

Definition items_of (v : value) : list value :=
  match v with
  | VArray items => items
  | _ => []
  end.

Section Validate.

(** The deserializer, [yaml.load] of js-yaml: it gives the loaded value or
    throws. *)
Variable yaml_load : string -> result value.

(** The body of the [try] block; its result is the [data] of the value
    returned. *)
Definition validateBody (content : string) : M (list string) value :=
  (data <- lift (yaml_load content) ;;
   invalid <- (if negb (truthy data) then ret true
               else
                 actions <- lift (get_prop data "actions") ;;
                 ret (negb (truthy actions) || negb (isArray actions))) ;;
   if invalid : bool then
     push "YAML must contain an 'actions' array" ;;
     ret VNull
   else
     actions <- lift (get_prop data "actions") ;;
     forEach validateAction (items_of actions) ;;
     ret data)%stmt.

Definition validateYaml (content : string) : validation :=
  match validateBody content [] with
  | (Ok data, errors) => {| errors := errors; data := data |}
  | (Throw e, errors) =>
      {| errors := (errors ++ [catch_message e])%list; data := VNull |}
  end.

End Validate.

(** *** Notions for the statements about validateYaml *)

(** The errors the callback of [data.actions.forEach] pushes for one
    record. *)
Definition recordErrors (action : value) (index : nat) : list string :=
  snd (validateAction action index []).

(** An entry of the sequence on which the callback does not throw: its
    [action] can be read (the entry is neither [null] nor [undefined]) and
    converts to a string. *)
Definition checkable (action : value) : Prop :=
  exists actionType tag,
    get_prop action "action" = Ok actionType /\ to_string actionType = Ok tag.

(** A loaded value without an [actions] sequence: it is absent, or its
    [actions] is absent or not a sequence. *)
Definition lacks_actions (data : value) : Prop :=
  data = VUndefined \/ data = VNull \/
  exists actions, get_prop data "actions" = Ok actions /\ isArray actions = false.

Definition missingMessage (tag : string) (index : nat) (prop : string) : string :=
  "Action '" +:+ tag +:+ "' at index " +:+ dec index
  +:+ " is missing mandatory property '" +:+ prop +:+ "'".

(** The mandatory properties, [action] apart, that are falsy on a record. *)
Definition falsyProps (fields : list (string * value))
    (definition : ActionDefinition) : list string :=
  List.filter (fun prop => negb (String.eqb prop "action")
                      && negb (truthy (lookup_field prop fields)))
         (mandatoryProps definition).

(** The reading of the specification: a property is absent, or empty (the
    empty string, the empty sequence, the empty mapping, or no value at
    all). *)
Definition absent_or_empty (v : value) : bool :=
  match v with
  | VUndefined | VNull => true
  | VString s => String.eqb s EmptyString
  | VArray items => (length items =? 0)%nat
  | VObject fields => (length fields =? 0)%nat
  | _ => false
  end.

Definition absentOrEmptyProps (fields : list (string * value))
    (definition : ActionDefinition) : list string :=
  List.filter (fun prop => negb (String.eqb prop "action")
                      && absent_or_empty (lookup_field prop fields))
         (mandatoryProps definition).

(** A Transform record with an empty list of transformations, and an
    Extract record whose dataframe is the number 0. *)
Definition empty_transform : list (string * value) := [
  ("action", VString "Transform"); ("name", VString "b");
  ("dataframe", VString "d2"); ("transformations", VArray [])
].

Definition zero_dataframe : list (string * value) := [
  ("action", VString "Extract"); ("name", VString "a");
  ("dataframe", VNumber 0); ("location", VString "p")
].

(** A loader for the examples: whatever the text, it gives [data]. *)
Definition loads (data : value) : string -> result value := fun _ => Ok data.

(** A loader that rejects every text. *)
Definition rejects (message : string) : string -> result value :=
  fun _ => Throw (ErrorObject "YAMLException" message).

Definition document (records : list value) : value :=
  VObject [("actions", VArray records)].

(** Records whose [action] is present and falsy. *)
Definition falsy_actions : list value := [
  VObject [("action", VNumber 0); ("name", VString "a")];
  VObject [("action", VString EmptyString)]
].

(** A record of an unknown type between two others. *)
Definition explode : value :=
  VObject [("action", VString "Explode"); ("name", VString "x")].

Definition unknown_between : list value := [
  VObject [("action", VString "Extract"); ("name", VString "a");
           ("dataframe", VString "d1")];
  explode;
  VObject [("name", VString "untyped")]
].

(** *** Further notions *)

(** A value that mentions a text: a string that contains it, or a sequence
    with a string item that contains it. *)
Definition mentions (sub : string) (v : value) : bool :=
  match v with
  | VString s => includes s sub
  | VArray items =>
      existsb (fun item =>
                 match item with
                 | VString s => includes s sub
                 | _ => false
                 end) items
  | _ => false
  end.

(** An entry other than [action] and [name] that mentions a text. *)
Definition entry_mentions (sub : string) (entry : string * value) : bool :=
  negb (String.eqb (fst entry) "action" || String.eqb (fst entry) "name")
  && mentions sub (snd entry).

(** A record whose [dataframe] is absent or a string. *)
Definition string_dataframe (action : value) : Prop :=
  exists fields,
    action = VObject fields /\
    (lookup_field "dataframe" fields = VUndefined \/
     exists s, lookup_field "dataframe" fields = VString s).

(** A record whose [dataframe] is the name of a member of
    [Object.prototype]. *)
Definition prototype_dataframe (action : value) : Prop :=
  exists fields s,
    action = VObject fields /\
    lookup_field "dataframe" fields = VString s /\
    existsb (String.eqb s) object_prototype_keys = true.

(** A record that passes validation: it is of a known type and none of the
    mandatory properties of the type is falsy on it. *)
Definition valid_record (action : value) : Prop :=
  exists fields definition,
    action = VObject fields /\
    getActionDefinition (lookup_field "action" fields) = Some definition /\
    falsyProps fields definition = [].

(** A document with a record that is valid and one that is not. *)
Definition complete_extract : value :=
  VObject [("action", VString "Extract"); ("name", VString "a");
           ("dataframe", VString "d1"); ("location", VString "p")].

End YamlUtils.

(* ===================================================================== *)
(** * sql-utils.js *)
(* ===================================================================== *)

Module SqlUtils.

Definition SQL_KEYWORDS : list string := [
  "SELECT"; "FROM"; "WHERE"; "JOIN"; "INNER"; "LEFT"; "RIGHT"; "OUTER"; "ON";
  "INSERT"; "INTO"; "VALUES"; "UPDATE"; "SET"; "DELETE"; "CREATE"; "TABLE";
  "ALTER"; "DROP"; "INDEX"; "VIEW"; "PROCEDURE"; "FUNCTION"; "TRIGGER"; "AND";
  "OR"; "NOT"; "IN"; "EXISTS"; "BETWEEN"; "LIKE"; "IS"; "NULL"; "ORDER"; "BY";
  "GROUP"; "HAVING"; "DISTINCT"; "COUNT"; "SUM"; "AVG"; "MIN"; "MAX"; "CASE";
  "WHEN"; "THEN"; "ELSE"; "END"; "AS"; "UNION"; "INTERSECT"; "EXCEPT"; "WITH";
  "RECURSIVE"; "LIMIT"; "OFFSET"; "TOP"
].

(** The patterns of [detectSQLSyntax], all under the [i] flag. *)
Definition sqlPatterns : list regex := [
  seq_of [WordBoundary; lit_i "SELECT"; Plus space; Star dot; Plus space;
          lit_i "FROM"; WordBoundary];
  seq_of [WordBoundary; lit_i "INSERT"; Plus space; lit_i "INTO"; WordBoundary];
  seq_of [WordBoundary; lit_i "UPDATE"; Plus space; Star dot; Plus space;
          lit_i "SET"; WordBoundary];
  seq_of [WordBoundary; lit_i "DELETE"; Plus space; lit_i "FROM"; WordBoundary];
  seq_of [WordBoundary; lit_i "CREATE"; Plus space;
          alt_of [lit_i "TABLE"; lit_i "VIEW"; lit_i "INDEX"]; WordBoundary];
  seq_of [WordBoundary; lit_i "ALTER"; Plus space; lit_i "TABLE"; WordBoundary];
  seq_of [WordBoundary; lit_i "DROP"; Plus space;
          alt_of [lit_i "TABLE"; lit_i "VIEW"; lit_i "INDEX"]; WordBoundary];
  seq_of [WordBoundary; lit_i "WHERE"; Plus space; Star dot; lit_i "="];
  seq_of [WordBoundary; lit_i "JOIN"; Plus space; Star dot; Plus space;
          lit_i "ON"; WordBoundary]
].

Definition detectSQLSyntax (text : value) : bool :=
  match text with
  | VString text =>
      if String.eqb text EmptyString then false
      else
        let upperText := toUpperCase text in
        let hasPattern := existsb (fun pattern => test pattern text) sqlPatterns in
        let keywordCount :=
          length (List.filter (fun keyword => includes upperText keyword) SQL_KEYWORDS) in
        hasPattern || (2 <=? keywordCount)%nat
  | _ => false
  end.

(** [object[key] = v] on the entries of a mapping, and
    [{ ...base, ...extra }]: an existing key keeps its place and takes the
    new value, a new key goes to the end; spreading [null] or [undefined]
    adds nothing. *)
Fixpoint set_field (key : string) (v : value) (fields : list (string * value))
  : list (string * value) :=
  match fields with
  | [] => [(key, v)]
  | (k, old) :: rest =>
      if String.eqb k key then (k, v) :: rest
      else (k, old) :: set_field key v rest
  end.

Definition spread (base : list (string * value)) (extra : value)
  : list (string * value) :=
  match entries extra with
  | Ok es => fold_left (fun acc entry => set_field (fst entry) (snd entry) acc) es base
  | Throw _ => base
  end.

(** A parameter with the default value [{}]. *)
Definition or_empty_object (v : value) : value :=
  match v with
  | VUndefined => VObject []
  | _ => v
  end.

Definition defaultOptions : list (string * value) := [
  ("language", VString "sql");
  ("tabWidth", VNumber 2);
  ("useTabs", VBool false);
  ("keywordCase", VString "upper");
  ("identifierCase", VString "preserve");
  ("functionCase", VString "upper");
  ("dataTypeCase", VString "upper");
  ("linesBetweenQueries", VNumber 2);
  ("denseOperators", VBool false);
  ("newlineBeforeOpeningParenthesis", VBool false);
  ("newlineBeforeClosingParenthesis", VBool false)
].

(** What [format] of sql-formatter does with a text and a configuration:
    it gives the formatted text, or throws an [Error] with a message. *)
Inductive formatted : Type :=
| Formatted (text : string)
| FormatError (message : string).

(** The records [autoFormatSQLInAction] works on are objects with an
    identity: the store maps a reference to the entries its object holds.
    The values inside an entry are never assigned into by this code
    ([value.map] builds a new array), so they stay the trees of [value]. *)
Definition ref : Type := positive.
Abbreviation store := (gmap ref (list (string * value))).

(** Reading through a reference.  The references the code holds are to
    objects of the store; a store without the object is a state the
    language cannot be in, and reading it is an error here. *)
Definition read (r : ref) : M store (list (string * value)) :=
  fun h =>
    match h !! r with
    | Some fields => (Ok fields, h)
    | None => (Throw (ErrorObject "ReferenceError" "dangling reference"), h)
    end.

Definition write (r : ref) (fields : list (string * value)) : M store unit :=
  fun h => (Ok tt, <[r := fields]> h).

(** A new object, at a reference the store does not use. *)
Definition alloc (fields : list (string * value)) : M store ref :=
  fun h => let r := fresh (dom h) in (Ok r, <[r := fields]> h).

Record sqlValidation : Type := {
  isValid : bool;
  errors : list string;
  warnings : list string
}.

(** [cond && array.push(message)], as a piece of the array. *)
Definition when (cond : bool) (message : string) : list string :=
  if cond then [message] else [].

Definition injectionPatterns : list regex := [
  seq_of [lit ";"; Star space;
          alt_of [lit_i "DROP"; lit_i "DELETE"; lit_i "UPDATE"; lit_i "INSERT"]];
  seq_of [lit_i "UNION"; Plus space; lit_i "SELECT"];
  seq_of [lit "--"; Star space; LineEnd];
  seq_of [lit "/*"; Star dot; lit "*/"]
].

Section Formatter.

Variable format : string -> list (string * value) -> formatted.

Definition formatSQL (sql : value) (options : value) : value :=
  match sql with
  | VString text =>
      if String.eqb text EmptyString then sql
      else
        match format text (spread defaultOptions (or_empty_object options)) with
        | Formatted out => VString out
        | FormatError _ => sql
        end
  | _ => sql
  end.

Definition validateSQL (sql : value) : sqlValidation :=
  match sql with
  | VString sql =>
      if String.eqb sql EmptyString then {| isValid := true; errors := []; warnings := [] |}
      else
        let upperSQL := toUpperCase sql in
        let openParens := length (match_all (lit "(") sql) in
        let closeParens := length (match_all (lit ")") sql) in
        let singleQuotes :=
          length (match_all (Seq (NotAfter (Ascii.eqb "\")) (lit "'")) sql) in
        let doubleQuotes :=
          length (match_all (Seq (NotAfter (Ascii.eqb "\")) (Char (Ascii.eqb double_quote))) sql) in
        let joinMatches := match_all (seq_of [lit "JOIN"; Plus space; Plus word]) upperSQL in
        let errors :=
          (match format sql [] with
           | Formatted _ => []
           | FormatError message => ["SQL syntax error: " +:+ message]
           end
           ++ when (negb (openParens =? closeParens)%nat)
                "Unmatched parentheses in SQL statement"
           ++ when (negb (singleQuotes mod 2 =? 0)%nat)
                "Unmatched single quotes in SQL statement"
           ++ when (negb (doubleQuotes mod 2 =? 0)%nat)
                "Unmatched double quotes in SQL statement")%list in
        let warnings :=
          (when (includes upperSQL "SELECT" && negb (includes upperSQL "FROM")
                 && negb (test (seq_of [lit_i "SELECT"; Plus space;
                                        alt_of [lit_i "@@"; lit_i "GETDATE";
                                                lit_i "CURRENT_"; lit_i "NOW"]])
                               upperSQL))
             "SELECT statement without FROM clause"
           ++ when (includes upperSQL "UPDATE" && includes upperSQL "SET"
                    && negb (includes upperSQL "WHERE"))
                "UPDATE statement without WHERE clause - this will affect all rows"
           ++ when (includes upperSQL "DELETE FROM" && negb (includes upperSQL "WHERE"))
                "DELETE statement without WHERE clause - this will delete all rows"
           ++ flat_map
                (fun joinMatch =>
                   let afterJoin :=
                     substring_from
                       (default 0 (indexOf upperSQL joinMatch) + String.length joinMatch)
                       upperSQL in
                   when (negb (includes afterJoin "ON") && negb (includes afterJoin "USING"))
                     ("JOIN clause missing ON condition: " +:+ joinMatch))
                joinMatches
           ++ flat_map
                (fun pattern =>
                   when (test pattern sql) "Potential SQL injection pattern detected")
                injectionPatterns
           ++ when (includes upperSQL "*=" || includes upperSQL "=*")
                "Deprecated outer join syntax detected, use explicit JOIN syntax"
           ++ when ((1 <? length (split ";" sql))%nat && negb (endsWith (trim sql) ";"))
                "Consider ending SQL statements with semicolon")%list in
        {| isValid := (length errors =? 0)%nat; errors := errors; warnings := warnings |}
  | _ => {| isValid := true; errors := []; warnings := [] |}
  end.

End Formatter.

Definition potentialSQLProps : list string := [
  "script"; "query"; "sql"; "command"; "statement"; "procedure";
  "transformation"; "transformations"; "condition"; "filter"; "select";
  "where"; "join"; "subquery"
].

(** The callback of [Object.entries(action).forEach]: the key it pushes, if
    any. *)
Definition sqlProperty (entry : string * value) : list string :=
  let '(key, value) := entry in
  match value with
  | VString text =>
      if (10 <? String.length text)%nat then
        let keyLower := toLowerCase key in
        let nameContainsSQL :=
          existsb (fun prop => includes keyLower prop) potentialSQLProps in
        let valueContainsSQL := detectSQLSyntax value in
        when (nameContainsSQL || valueContainsSQL) key
      else []
  | VArray items =>
      when (existsb (fun item =>
                       match item with
                       | VString _ => detectSQLSyntax item
                       | _ => false
                       end) items) key
  | _ => []
  end.

Definition identifySQLProperties (action : value) : list string :=
  if negb (truthy action) || negb (String.eqb (typeof action) "object") then []
  else
    match entries action with
    | Ok es => flat_map sqlProperty es
    | Throw _ => []
    end.

Section AutoFormat.

Variable format : string -> list (string * value) -> formatted.

(** The callback of [sqlProperties.forEach]. *)
Definition formatProperty (formattedAction : ref)
    (formatOptions : value) (prop : string) (_ : nat)
  : M store unit :=
  (fields <- read formattedAction ;;
   let value := lookup_field prop fields in
   match value with
   | VString _ =>
       write formattedAction (set_field prop (formatSQL format value formatOptions) fields)
   | VArray items =>
       write formattedAction
         (set_field prop
            (VArray (map (fun item =>
                            match item with
                            | VString _ =>
                                if detectSQLSyntax item
                                then formatSQL format item formatOptions
                                else item
                            | _ => item
                            end) items))
            fields)
   | _ => ret tt
   end)%stmt.

(** [autoFormatSQLInAction(action, formatOptions)] for an [action] that is
    a record: its reference is truthy and of type [object], so the guard of
    the first line lets it through. *)
Definition autoFormatSQLInAction (action : ref) (formatOptions : value)
  : M store ref :=
  let formatOptions := or_empty_object formatOptions in
  (fields <- read action ;;
   formattedAction <- alloc fields ;;
   let sqlProperties := identifySQLProperties (VObject fields) in
   forEach (formatProperty formattedAction formatOptions) sqlProperties ;;
   ret formattedAction)%stmt.

End AutoFormat.


(** A formatter that puts the text in upper case, and a store with one
    record, for the examples. *)
Definition upper_format (text : string) (config : list (string * value))
  : formatted :=
  Formatted (toUpperCase text).

Definition execute_record : list (string * value) := [
  ("action", VString "Execute"); ("name", VString "count the rows");
  ("dataframe", VString "d1");
  ("script", VString "select count(*) from d1")
].

Definition one_record : store := {[ 1%positive := execute_record ]}.

(** ** validateSQLInAction *)

Module InAction.
Record validation : Type := {
  isValid : bool;
  errors : list string;
  warnings : list string;
  sqlProperties : list string
}.
End InAction.

(** [action[prop]] for a property that [Object.entries(action)] lists. *)
Definition own_property (action : value) (prop : string) : value :=
  match entries action with
  | Ok es => lookup_field prop es
  | Throw _ => VUndefined
  end.

Section ValidateInAction.

Variable format : string -> list (string * value) -> formatted.

(** What the callback of [sqlProperties.forEach] pushes onto one of the
    two arrays, [project] being [errors] or [warnings]. *)
Definition propertyFindings (project : sqlValidation -> list string)
    (action : value) (prop : string) : list string :=
  match own_property action prop with
  | VString text =>
      map (fun finding => prop +:+ ": " +:+ finding)
          (project (validateSQL format (VString text)))
  | VArray items =>
      concat
        (imap (fun index item =>
                 match item with
                 | VString _ =>
                     if detectSQLSyntax item then
                       map (fun finding =>
                              prop +:+ "[" +:+ dec index +:+ "]: " +:+ finding)
                           (project (validateSQL format item))
                     else []
                 | _ => []
                 end) items)
  | _ => []
  end.

Definition validateSQLInAction (action : value) : InAction.validation :=
  let sqlProperties := identifySQLProperties action in
  let allErrors := flat_map (propertyFindings errors action) sqlProperties in
  let allWarnings := flat_map (propertyFindings warnings action) sqlProperties in
  {| InAction.isValid := (length allErrors =? 0)%nat;
     InAction.errors := allErrors;
     InAction.warnings := allWarnings;
     InAction.sqlProperties := sqlProperties |}.

(** What [autoFormatSQLInAction] puts in the place of a value it formats:
    the two branches of the callback of its loop. *)
Definition formattedValue (formatOptions : value) (v : value) : value :=
  match v with
  | VString _ => formatSQL format v formatOptions
  | VArray items =>
      VArray (map (fun item =>
                     match item with
                     | VString _ =>
                         if detectSQLSyntax item
                         then formatSQL format item formatOptions
                         else item
                     | _ => item
                     end) items)
  | _ => v
  end.

End ValidateInAction.

(** The entries of a record with the value of every property of [props]
    replaced by its formatted value: the same keys in the same order. *)
Definition formattedFields
    (format : string -> list (string * value) -> formatted)
    (formatOptions : value) (props : list string)
    (fields : list (string * value)) : list (string * value) :=
  map (fun entry =>
         (fst entry,
          if existsb (String.eqb (fst entry)) props
          then formattedValue format formatOptions (snd entry)
          else snd entry))
      fields.

(** How often a character occurs in a text. *)
Definition occurrences (c : ascii) (text : string) : nat :=
  length (List.filter (Ascii.eqb c) (chars text)).

(** A formatter that rejects every text. *)
Definition failing_format (text : string) (config : list (string * value))
  : formatted :=
  FormatError "Parse error".

(** A record with a short script that is no SQL at all, and a record with
    formatting work in a string and in a sequence. *)
Definition unbalanced_script : value :=
  VObject [("action", VString "Execute"); ("script", VString "((('")].

Definition transform_record : list (string * value) := [
  ("action", VString "Transform"); ("name", VString "t");
  ("dataframe", VString "d2");
  ("transformations",
   VArray [VString "select a from d1"; VString "dedupe"; VNumber 3])
].

End SqlUtils.

(* ===================================================================== *)
(** * The upload helpers *)
(* ===================================================================== *)

Module S3Utils.

Record filenameCheck : Type := { isValid : bool; error : option string }.

(** The class of the characters [<], [>], [:], the double quote, [|], [?],
    [*] and the range from [\x00] to [\x1f]. *)
Definition invalidChars : regex :=
  Char (fun c => existsb (Ascii.eqb c) (double_quote :: chars "<>:|?*")
                 || (nat_of_ascii c <=? 31)%nat).

Definition reservedNames : list string := [
  "CON"; "PRN"; "AUX"; "NUL";
  "COM1"; "COM2"; "COM3"; "COM4"; "COM5"; "COM6"; "COM7"; "COM8"; "COM9";
  "LPT1"; "LPT2"; "LPT3"; "LPT4"; "LPT5"; "LPT6"; "LPT7"; "LPT8"; "LPT9"
].

(** [validateS3Filename(filename)]; on a name of ASCII characters
    [trimmed.length] is [String.length] of the trimmed name. *)
Definition validateS3Filename (filename : value) : filenameCheck :=
  match filename with
  | VString filename =>
      if String.eqb filename EmptyString then
        {| isValid := false; error := Some "Filename is required" |}
      else
        let trimmed := trim filename in
        if (String.length trimmed =? 0)%nat then
          {| isValid := false; error := Some "Filename cannot be empty" |}
        else if (255 <? String.length trimmed)%nat then
          {| isValid := false; error := Some "Filename too long (max 255 characters)" |}
        else if test invalidChars trimmed then
          {| isValid := false; error := Some "Filename contains invalid characters" |}
        else
          let nameWithoutExt := toUpperCase (hd EmptyString (split "." trimmed)) in
          if existsb (String.eqb nameWithoutExt) reservedNames then
            {| isValid := false; error := Some "Filename uses a reserved name" |}
          else {| isValid := true; error := None |}
  | _ => {| isValid := false; error := Some "Filename is required" |}
  end.

Definition ensureYamlExtension (filename : string) : string :=
  let trimmed := trim filename in
  if endsWith trimmed ".yaml" || endsWith trimmed ".yml" then trimmed
  else trimmed +:+ ".yaml".








(** ** generateDefaultFilename *)

(** [s.slice(0, n)], [s.replace(/c/g, d)] for a pattern of one character,
    and [s.replace(c, d)] for a string of one character: the first
    occurrence only. *)
Definition slice_to (n : nat) (s : string) : string := substring 0 n s.

Definition replace_all_char (c d : ascii) (s : string) : string :=
  map_string (fun x => if Ascii.eqb x c then d else x) s.

Fixpoint replace_first_char (c d : ascii) (s : string) : string :=
  match s with
  | EmptyString => EmptyString
  | String x s' =>
      if Ascii.eqb x c then String d s' else String x (replace_first_char c d s')
  end.

(** [now] is what [new Date().toISOString()] gives at the call. *)
Definition generateDefaultFilename (now : string) (prefix : value)
  : result string :=
  let prefix := match prefix with VUndefined => VString "workflow" | _ => prefix end in
  let timestamp :=
    replace_first_char "T" "_" (replace_all_char ":" "-" (slice_to 19 now)) in
  (prefix <- to_string prefix ;;
   Ok (prefix +:+ "-" +:+ timestamp +:+ ".yaml"))%js.

(** The characters of the first nineteen places of an ISO timestamp:
    digits, [-], [:] and [T]. *)
Definition iso_char (c : ascii) : bool :=
  is_digit c || existsb (Ascii.eqb c) ["-"; ":"; "T"]%char.

(** The characters of a generated timestamp: digits, [-], [T] and [_]. *)
Definition stamp_char (c : ascii) : bool :=
  is_digit c || existsb (Ascii.eqb c) ["-"; "T"; "_"]%char.

End S3Utils.

(* ===================================================================== *)
(** * The page: the upload dialog *)
(* ===================================================================== *)

Module HomePage.

Import S3Utils.

(** The name [handleS3Upload] proposes; [now] is what
    [new Date().toISOString()] gives at the call. *)
Definition defaultFileName (now : string) : string :=
  "workflow-" +:+ replace_all_char ":" "-" (slice_to 19 now) +:+ ".yaml".

(** The name [handleS3UploadConfirm] uploads under, if it gets as far:
    a name that is blank ends the handler with a notice. *)
Definition uploadFileName (s3FileName : string) : option string :=
  if String.eqb (trim s3FileName) EmptyString then None
  else
    Some (if endsWith s3FileName ".yaml" || endsWith s3FileName ".yml"
          then s3FileName
          else s3FileName +:+ ".yaml").

(** ** The editor *)

(** The three pieces of the page's state the editor's handler works on. *)
Record state : Type := {
  yamlContent : string;
  actions : value;
  validationErrors : list string
}.

Section Editor.

Variable yaml_load : string -> result value.

(** [handleYamlChange(content)].  [validateYaml] catches what it throws;
    reading [data.actions] of a loaded value that is not [null] cannot
    throw, and the handler would catch it. *)
Definition handleYamlChange (content : string) (st : state) : state :=
  let validation := YamlUtils.validateYaml yaml_load content in
  let errors := YamlUtils.errors validation in
  let data := YamlUtils.data validation in
  let st :=
    {| yamlContent := content; actions := actions st;
       validationErrors := errors |} in
  if truthy data then
    match get_prop data "actions" with
    | Ok loaded =>
        if truthy loaded then
          {| yamlContent := yamlContent st; actions := loaded;
             validationErrors := validationErrors st |}
        else st
    | Throw _ => st
    end
  else st.

End Editor.

End HomePage.

(* ===================================================================== *)
(** * The action builder *)
(* ===================================================================== *)

(** Arrays under [splice] and under an assignment to an index.  The
    indices are those the lists of the page hand out, which are never
    negative.  [splice] clamps a start beyond the end to the end; an
    assignment beyond the end leaves holes, which read as [undefined]. *)
Module Arrays.

(** [array.splice(index, 1)]: what is left of the array, and the removed
    elements, which the call returns. *)
Definition splice_out (index : nat) (array : list value) : list value * list value :=
  ((take index array ++ drop (S index) array)%list, take 1 (drop index array)).

(** [array.splice(index, 0, item)] *)
Definition splice_in (index : nat) (item : value) (array : list value) : list value :=
  (take index array ++ item :: drop index array)%list.

(** [array[index] = item] *)
Definition assign (index : nat) (item : value) (array : list value) : list value :=
  if (index <? length array)%nat then <[index := item]> array
  else (array ++ replicate (index - length array) VUndefined ++ [item])%list.

End Arrays.

Module ActionBuilder.

Import Arrays.

(** The action list the component is given and, through [setActions],
    replaces, with the three pieces of state of its own. *)
Record state : Type := {
  actions : list value;
  currentAction : value;
  editIndex : option nat;
  isDialogOpen : bool
}.

Definition handleAddAction (st : state) : state :=
  {| actions := actions st; currentAction := VNull; editIndex := None;
     isDialogOpen := true |}.

Definition handleEditAction (action : value) (index : nat) (st : state) : state :=
  {| actions := actions st; currentAction := action; editIndex := Some index;
     isDialogOpen := true |}.

Definition handleDeleteAction (index : nat) (st : state) : state :=
  let newActions := fst (splice_out index (actions st)) in
  {| actions := newActions; currentAction := currentAction st;
     editIndex := editIndex st; isDialogOpen := isDialogOpen st |}.

Definition handleSaveAction (action : value) (st : state) : state :=
  let newActions :=
    match editIndex st with
    | Some editIndex => assign editIndex action (actions st)
    | None => (actions st ++ [action])%list
    end in
  {| actions := newActions; currentAction := currentAction st;
     editIndex := editIndex st; isDialogOpen := false |}.

(** [result.destination] is absent when the item is dropped outside the
    list; otherwise it and [result.source] carry an index. *)
Definition handleDragEnd (destination : option nat) (source : nat) (st : state)
  : state :=
  match destination with
  | None => st
  | Some destinationIndex =>
      let sourceIndex := source in
      if (sourceIndex =? destinationIndex)%nat then st
      else
        let '(newActions, removed) := splice_out sourceIndex (actions st) in
        let movedItem := hd VUndefined removed in
        let newActions := splice_in destinationIndex movedItem newActions in
        {| actions := newActions; currentAction := currentAction st;
           editIndex := editIndex st; isDialogOpen := isDialogOpen st |}
  end.

(** A list of two actions, for the runs. *)
Definition two_actions : state :=
  {| actions := [VString "first"; VString "second"]; currentAction := VNull;
     editIndex := None; isDialogOpen := false |}.

End ActionBuilder.

(* ===================================================================== *)
(** * The flow visualizer *)
(* ===================================================================== *)

Module FlowVisualizer.

Import YamlUtils Arrays.

Inductive layoutType : Type :=
| HIERARCHICAL | GRID | CIRCULAR | FORCE | TIMELINE | SWIMLANE.

Inductive visualStyle : Type := DEFAULT | COMPACT | DETAILED | MINIMAL.

Record coordinates (number : Type) : Type := { x : number; y : number }.
Arguments x {number} _.
Arguments y {number} _.

(** ** The handlers *)

(** The action list, whether [setActions] is given, and the state of the
    component's own. *)
Record state : Type := {
  actions : list value;
  editable : bool;
  currentAction : value;
  editIndex : option nat;
  insertPosition : option nat;
  isEditDialogOpen : bool;
  isAddDialogOpen : bool
}.

Definition handleEditAction (action : value) (index : nat) (st : state) : state :=
  if negb (editable st) then st
  else
    {| actions := actions st; editable := editable st;
       currentAction := action; editIndex := Some index;
       insertPosition := insertPosition st;
       isEditDialogOpen := true; isAddDialogOpen := isAddDialogOpen st |}.

Definition handleAddAction (position : option nat) (st : state) : state :=
  if negb (editable st) then st
  else
    {| actions := actions st; editable := editable st;
       currentAction := VNull; editIndex := None;
       insertPosition := position;
       isEditDialogOpen := isEditDialogOpen st; isAddDialogOpen := true |}.

Definition handleDeleteAction (index : nat) (st : state) : state :=
  if negb (editable st) then st
  else
    let newActions := fst (splice_out index (actions st)) in
    {| actions := newActions; editable := editable st;
       currentAction := currentAction st; editIndex := editIndex st;
       insertPosition := insertPosition st;
       isEditDialogOpen := isEditDialogOpen st;
       isAddDialogOpen := isAddDialogOpen st |}.

Definition handleSaveAction (action : value) (st : state) : state :=
  match editable st, editIndex st with
  | true, Some index =>
      let newActions := assign index action (actions st) in
      {| actions := newActions; editable := editable st;
         currentAction := VNull; editIndex := None;
         insertPosition := insertPosition st;
         isEditDialogOpen := false; isAddDialogOpen := isAddDialogOpen st |}
  | _, _ => st
  end.

Definition handleSaveNewAction (action : value) (st : state) : state :=
  if negb (editable st) then st
  else
    let newActions :=
      match insertPosition st with
      | Some position => splice_in position action (actions st)
      | None => (actions st ++ [action])%list
      end in
    {| actions := newActions; editable := editable st;
       currentAction := VNull; editIndex := editIndex st;
       insertPosition := None;
       isEditDialogOpen := isEditDialogOpen st; isAddDialogOpen := false |}.

(** ** The layouts in whole numbers *)

Definition calculateHierarchicalLayout (actions : list value)
  : result (list (coordinates Z)) :=
  (relationships <- findRelationships actions ;;
   Ok (imap (fun index (action : value) =>
               let row := (Z.of_nat index / 3)%Z in
               let col := (Z.of_nat index mod 3)%Z in
               {| x := (col * 300 + 150)%Z; y := (row * 150 + 100)%Z |})
            actions))%js.

(** [Math.ceil(Math.sqrt(n))], which the floating-point square root gives
    exactly for the lengths of lists. *)
Definition ceil_sqrt (n : nat) : nat :=
  if (Nat.sqrt n * Nat.sqrt n =? n)%nat then Nat.sqrt n else S (Nat.sqrt n).

Definition calculateGridLayout (actions : list value) : list (coordinates Z) :=
  let cols := Z.of_nat (ceil_sqrt (length actions)) in
  imap (fun index (action : value) =>
          let row := (Z.of_nat index / cols)%Z in
          let col := (Z.of_nat index mod cols)%Z in
          {| x := (col * 250 + 100)%Z; y := (row * 200 + 100)%Z |})
       actions.

Definition calculateTimelineLayout (actions : list value) : list (coordinates Z) :=
  imap (fun index (action : value) =>
          {| x := (Z.of_nat index * 200 + 150)%Z; y := 200%Z |})
       actions.

(** ** The styles *)

Definition getNodeStyle (visualStyle : visualStyle) : list (string * value) :=
  match visualStyle with
  | COMPACT => [("minWidth", VString "120px"); ("padding", VString "8px")]
  | DETAILED => [("minWidth", VString "220px"); ("padding", VString "16px")]
  | MINIMAL => [("minWidth", VString "80px"); ("padding", VString "4px")]
  | DEFAULT => [("minWidth", VString "180px"); ("padding", VString "12px")]
  end.

Definition getEdgeStyle (visualStyle : visualStyle) : list (string * value) :=
  match visualStyle with
  | COMPACT => [("strokeWidth", VNumber 1)]
  | DETAILED => [("strokeWidth", VNumber 3)]
  | MINIMAL => [("strokeWidth", VNumber 1); ("strokeDasharray", VString "5,5")]
  | DEFAULT => [("strokeWidth", VNumber 2)]
  end.

(** ** The graph *)

Definition findStartAndEndActions (actions relationships : list value)
  : list string * list string :=
  let startActions := if (0 <? length actions)%nat then ["action-0"] else [] in
  let endActions :=
    if (1 <? length actions)%nat then [action_id (length actions - 1)]
    else if (length actions =? 1)%nat then ["action-0"]
    else [] in
  (startActions, endActions).

(** What a node carries in [data]: an action node its action, the two
    marks, whether the callbacks are there, its index and the style; a
    start or end node its type and label. *)
Inductive nodeData : Type :=
| ActionData (action : value) (isStart isEnd : bool) (editable : bool)
    (index : nat) (visualStyle : visualStyle) (nodeStyle : list (string * value))
| StartEndData (type label : string).

Module Node.
Record t (number : Type) : Type := {
  id : string;
  type : string;
  data : nodeData;
  position : coordinates number;
  style : option (list (string * value))
}.
Arguments id {number} _.
Arguments type {number} _.
Arguments data {number} _.
Arguments position {number} _.
Arguments style {number} _.
End Node.

(** An edge; the arrow head, the same on every edge, is left out. *)
Module Edge.
Record t : Type := {
  id : string;
  source : value;
  target : value;
  animated : bool;
  style : list (string * value)
}.
End Edge.

Definition option_list {A} (o : option A) : list A :=
  match o with
  | Some a => [a]
  | None => []
  end.

Section Graph.

(** The numbers of the run time, with the whole numbers among them,
    [Math.max] of a spread array and the sum; and the three layouts that
    compute with fractions, with random numbers or by the identity of
    objects. *)
Variable number : Type.
Variable of_Z : Z -> number.
Variable max_of : list number -> number.
Variable plus : number -> number -> number.
Variables calculateCircularLayout calculateForceLayout calculateSwimlaneLayout
  : list value -> result (list (coordinates number)).

Definition of_whole (p : coordinates Z) : coordinates number :=
  {| x := of_Z (x p); y := of_Z (y p) |}.

Definition getNodePositions (actions : list value) (layoutType : layoutType)
  : result (list (coordinates number)) :=
  match layoutType with
  | GRID => Ok (map of_whole (calculateGridLayout actions))
  | CIRCULAR => calculateCircularLayout actions
  | FORCE => calculateForceLayout actions
  | TIMELINE => Ok (map of_whole (calculateTimelineLayout actions))
  | SWIMLANE => calculateSwimlaneLayout actions
  | HIERARCHICAL =>
      (positions <- calculateHierarchicalLayout actions ;;
       Ok (map of_whole positions))%js
  end.

(** The callback of [actions.map]. *)
Definition actionNode (editable : bool) (visualStyle : visualStyle)
    (startActions endActions : list string)
    (positions : list (coordinates number)) (index : nat) (action : value)
  : Node.t number :=
  {| Node.id := action_id index;
     Node.type := "actionNode";
     Node.data :=
       ActionData action
         (existsb (String.eqb (action_id index)) startActions)
         (existsb (String.eqb (action_id index)) endActions)
         editable index visualStyle (getNodeStyle visualStyle);
     Node.position := default {| x := of_Z 0; y := of_Z 0 |} (positions !! index);
     Node.style := Some (getNodeStyle visualStyle) |}.

Definition startNode : Node.t number :=
  {| Node.id := "start-node";
     Node.type := "startEndNode";
     Node.data := StartEndData "start" "START";
     Node.position := {| x := of_Z 50; y := of_Z 50 |};
     Node.style := None |}.

Definition endNode (actionNodes : list (Node.t number)) : Node.t number :=
  let maxX := max_of (map (fun n => x (Node.position n)) actionNodes) in
  let maxY := max_of (map (fun n => y (Node.position n)) actionNodes) in
  {| Node.id := "end-node";
     Node.type := "startEndNode";
     Node.data := StartEndData "end" "END";
     Node.position := {| x := plus maxX (of_Z 200); y := plus maxY (of_Z 100) |};
     Node.style := None |}.

(** The callbacks of [relationships.map], [startActions.map] and
    [endActions.map]. *)
Definition relationshipEdge (visualStyle : visualStyle) (index : nat) (rel : value)
  : result Edge.t :=
  (source <- get_prop rel "source" ;;
   target <- get_prop rel "target" ;;
   Ok {| Edge.id := "edge-" +:+ dec index;
         Edge.source := source;
         Edge.target := target;
         Edge.animated := match visualStyle with MINIMAL => false | _ => true end;
         Edge.style :=
           SqlUtils.spread [("stroke", VString "#6366f1")]
                           (VObject (getEdgeStyle visualStyle)) |})%js.

Definition startEdge (visualStyle : visualStyle) (index : nat) (actionId : string)
  : Edge.t :=
  {| Edge.id := "start-edge-" +:+ dec index;
     Edge.source := VString "start-node";
     Edge.target := VString actionId;
     Edge.animated := true;
     Edge.style :=
       SqlUtils.spread [("stroke", VString "#10b981")]
                       (VObject (getEdgeStyle visualStyle)) |}.

Definition endEdge (visualStyle : visualStyle) (index : nat) (actionId : string)
  : Edge.t :=
  {| Edge.id := "end-edge-" +:+ dec index;
     Edge.source := VString actionId;
     Edge.target := VString "end-node";
     Edge.animated := true;
     Edge.style :=
       SqlUtils.spread [("stroke", VString "#ef4444")]
                       (VObject (getEdgeStyle visualStyle)) |}.

(** The layouts that get a start and an end node. *)
Definition framed (layoutType : layoutType) : bool :=
  match layoutType with
  | HIERARCHICAL | FORCE => true
  | _ => false
  end.

(** The effect that builds the graph: nothing when there is no action
    (the nodes and edges on display stay), otherwise the nodes and edges
    it hands to [setNodes] and [setEdges]. *)
Definition flow (actions : list value) (editable : bool)
    (layoutType : layoutType) (visualStyle : visualStyle)
  : result (option (list (Node.t number) * list Edge.t)) :=
  if (length actions =? 0)%nat then Ok None
  else
    (relationships <- findRelationships actions ;;
     let '(startActions, endActions) :=
       findStartAndEndActions actions relationships in
     positions <- getNodePositions actions layoutType ;;
     let actionNodes :=
       imap (actionNode editable visualStyle startActions endActions positions)
            actions in
     let startNode :=
       if framed layoutType && (0 <? length startActions)%nat
       then Some startNode else None in
     let endNode :=
       if framed layoutType && (0 <? length endActions)%nat
       then Some (endNode actionNodes) else None in
     let allNodes :=
       (option_list startNode ++ actionNodes ++ option_list endNode)%list in
     relationshipEdges <-
       sequence (imap (relationshipEdge visualStyle) relationships) ;;
     let startEdges :=
       match startNode with
       | Some _ => imap (startEdge visualStyle) startActions
       | None => []
       end in
     let endEdges :=
       match endNode with
       | Some _ => imap (endEdge visualStyle) endActions
       | None => []
       end in
     let allEdges := (relationshipEdges ++ startEdges ++ endEdges)%list in
     Ok (Some (allNodes, allEdges)))%js.

End Graph.

(** The edge the graph has for a related pair of indices. *)
Definition pairEdge (visualStyle : visualStyle) (index : nat) (p : nat * nat)
  : Edge.t :=
  {| Edge.id := "edge-" +:+ dec index;
     Edge.source := VString (action_id p.1);
     Edge.target := VString (action_id p.2);
     Edge.animated := match visualStyle with MINIMAL => false | _ => true end;
     Edge.style :=
       SqlUtils.spread [("stroke", VString "#6366f1")]
                       (VObject (getEdgeStyle visualStyle)) |}.

(** Whole numbers for the numbers, and no layout of the three left open,
    for the runs. *)
Definition max_whole (numbers : list Z) : Z := fold_right Z.max 0%Z numbers.

Definition no_layout (actions : list value) : result (list (coordinates Z)) :=
  Ok [].

Definition scenario_graph
  : result (option (list (Node.t Z) * list Edge.t)) :=
  flow Z (fun n => n) max_whole Z.add no_layout no_layout no_layout
       scenario true HIERARCHICAL DEFAULT.

(** A visualizer on the two records of the scenario. *)
Definition scenario_flow : state :=
  {| actions := scenario; editable := true; currentAction := VNull;
     editIndex := None; insertPosition := None;
     isEditDialogOpen := false; isAddDialogOpen := false |}.

End FlowVisualizer.

(* ===================================================================== *)
(** * Facts about the run time *)
(* ===================================================================== *)

Module JsFacts.

Lemma dec_inj (n m : nat) : dec n = dec m -> n = m.
Proof.
  unfold dec. intros H.
  apply (f_equal NilEmpty.uint_of_string) in H.
  rewrite !NilEmpty.usu in H.
  injection H as H. now apply DecimalNat.Unsigned.to_uint_inj.
Qed.

Lemma append_inj_l (p s t : string) : p +:+ s = p +:+ t -> s = t.
Proof.
  induction p as [|c p IH]; simpl; intros H; [exact H|].
  injection H as H. auto.
Qed.

(** ** Loops *)

Section ForEach.
Context {St A : Type}.
Implicit Types (f : A -> nat -> M St unit) (l : list A).

(** A loop that ends normally keeps an invariant which every normal run
    of its callback carries from one index to the next. *)
Lemma forEach_from_invariant (I : nat -> St -> Prop) f l :
  forall i s s',
    I i s ->
    (forall k x t t',
        l !! k = Some x -> I (i + k) t -> f x (i + k) t = (Ok tt, t') ->
        I (S (i + k)) t') ->
    forEach_from f l i s = (Ok tt, s') ->
    I (i + length l) s'.
Proof.
  induction l as [|x l IH]; intros i s s' Hi Hstep Hrun; simpl in *.
  - unfold ret in Hrun. injection Hrun as <-. now rewrite Nat.add_0_r.
  - unfold bind in Hrun.
    destruct (f x i s) as [[[]|e] t] eqn:Hf; [|discriminate].
    replace (i + S (length l)) with (S i + length l) by lia.
    apply (IH (S i) t s'); [| |exact Hrun].
    + specialize (Hstep 0 x s t). rewrite Nat.add_0_r in Hstep.
      now apply Hstep.
    + intros k y u u' Hk Hu Hfu.
      replace (S i + k) with (i + S k) in * by lia.
      now apply (Hstep (S k) y u u').
Qed.

Lemma forEach_invariant (I : nat -> St -> Prop) f l s s' :
  I 0 s ->
  (forall k x t t',
      l !! k = Some x -> I k t -> f x k t = (Ok tt, t') -> I (S k) t') ->
  forEach f l s = (Ok tt, s') ->
  I (length l) s'.
Proof.
  intros H0 Hstep Hrun.
  exact (forEach_from_invariant I f l 0 s s' H0 Hstep Hrun).
Qed.

(** A loop whose callback never throws on the items of the array ends
    normally. *)
Lemma forEach_from_total (P : A -> Prop) f l :
  (forall x k s, P x -> exists s', f x k s = (Ok tt, s')) ->
  Forall P l ->
  forall i s, exists s', forEach_from f l i s = (Ok tt, s').
Proof.
  intros Hf. induction 1 as [|x l Hx Hl IH]; intros i s; simpl.
  - now exists s.
  - unfold bind. destruct (Hf x i s Hx) as [t ->]. apply IH.
Qed.

Lemma forEach_total (P : A -> Prop) f l s :
  (forall x k s, P x -> exists s', f x k s = (Ok tt, s')) ->
  Forall P l ->
  exists s', forEach f l s = (Ok tt, s').
Proof. intros Hf Hl. now apply (forEach_from_total P). Qed.

End ForEach.

(** ** Blocks that only push *)

Section Appends.
Context {A : Type}.

Lemma appends_ret {B} (b : B) : appends (@ret (list A) B b).
Proof. intros s. unfold ret. simpl. now rewrite app_nil_r. Qed.

Lemma appends_lift {B} (c : result B) : appends (@lift (list A) B c).
Proof. intros s. unfold lift. simpl. now rewrite app_nil_r. Qed.

Lemma appends_push (x : A) : appends (push x).
Proof. intros s. reflexivity. Qed.

Lemma appends_bind {B C} (c : M (list A) B) (k : B -> M (list A) C) :
  appends c -> (forall b, appends (k b)) -> appends (bind c k).
Proof.
  intros Hc Hk s. unfold bind.
  rewrite (Hc s). destruct (c []) as [[b|e] t]; simpl.
  - rewrite (Hk b (s ++ t)%list), (Hk b t). simpl. now rewrite app_assoc.
  - reflexivity.
Qed.

Lemma appends_forEach_from {B} (f : B -> nat -> M (list A) unit) (l : list B) :
  (forall x k, appends (f x k)) -> forall i, appends (forEach_from f l i).
Proof.
  intros Hf. induction l as [|x l IH]; intros i; simpl.
  - apply appends_ret.
  - apply appends_bind; [apply Hf|intros _; apply IH].
Qed.

(** A loop of such callbacks, none of which throws, pushes what each of
    them pushes, in the order of the array. *)
Lemma forEach_from_pushes {B} (f : B -> nat -> M (list A) unit) (l : list B) :
  (forall x k, appends (f x k)) ->
  forall i s,
    (forall k x, l !! k = Some x -> fst (f x (i + k) []) = Ok tt) ->
    forEach_from f l i s
    = (Ok tt, (s ++ concat (imap (fun k x => snd (f x (i + k) [])) l))%list).
Proof.
  intros Hf. induction l as [|x l IH]; intros i s Hok; simpl.
  - unfold ret. now rewrite app_nil_r.
  - unfold bind. rewrite (Hf x i s).
    pose proof (Hok 0 x eq_refl) as H0. rewrite Nat.add_0_r in H0 |- *.
    rewrite H0. rewrite (IH (S i)).
    + rewrite <- app_assoc. simpl.
      rewrite (imap_ext ((fun k y => snd (f y (i + k) [])) ∘ S)
                        (fun k y => snd (f y (S i + k) [])) l); [reflexivity|].
      intros k y _. simpl. do 2 f_equal. lia.
    + intros k y Hk. replace (S i + k) with (i + S k) by lia.
      now apply (Hok (S k) y).
Qed.

Lemma forEach_pushes {B} (f : B -> nat -> M (list A) unit) (l : list B) s :
  (forall x k, appends (f x k)) ->
  (forall k x, l !! k = Some x -> fst (f x k []) = Ok tt) ->
  forEach f l s = (Ok tt, (s ++ concat (imap (fun k x => snd (f x k [])) l))%list).
Proof.
  intros Hf Hok. unfold forEach. now rewrite (forEach_from_pushes f l Hf 0 s).
Qed.

End Appends.

Lemma some_total {A} (P : A -> Prop) (f : A -> result bool) (l : list A) :
  (forall x, P x -> exists b, f x = Ok b) ->
  Forall P l ->
  exists b, some f l = Ok b.
Proof.
  intros Hf. induction 1 as [|x l Hx Hl IH]; simpl.
  - now exists false.
  - destruct (Hf x Hx) as [[|] ->]; simpl; [now exists true|exact IH].
Qed.

(** [some] with a callback that does not throw is [existsb]. *)
Lemma some_existsb {A} (f : A -> result bool) (g : A -> bool) (l : list A) :
  (forall x, In x l -> f x = Ok (g x)) ->
  some f l = Ok (existsb g l).
Proof.
  induction l as [|x l IH]; intros Hf; simpl; [reflexivity|].
  rewrite (Hf x (or_introl eq_refl)). simpl.
  destruct (g x); [reflexivity|]. apply IH. intros y Hy. apply Hf. now right.
Qed.

(** ** Patterns under a change of case *)






Lemma length_map_string f s : String.length (map_string f s) = String.length s.
Proof. induction s; simpl; congruence. Qed.

Section CaseBlind.

Variable f : ascii -> ascii.
Hypothesis f_upper : forall c, upper_char (f c) = upper_char c.















End CaseBlind.



End JsFacts.

(* ===================================================================== *)
(** * Properties of yaml-utils.js *)
(* ===================================================================== *)

Module YamlFacts.

Import ActionDefinitions YamlUtils JsFacts.

(** ** findRelationships *)

Lemma action_id_inj (i j : nat) : action_id i = action_id j -> i = j.
Proof.
  unfold action_id. intros H. apply append_inj_l in H. now apply dec_inj.
Qed.

Lemma edge_inj (i j i' j' : nat) : edge i j = edge i' j' -> i = i' /\ j = j'.
Proof.
  unfold edge. intros H. injection H as Hs Ht.
  split; first [now apply action_id_inj | now apply dec_inj].
Qed.

Lemma in_edges_of (pairs : list (nat * nat)) (i j : nat) :
  In (edge i j) (edges_of pairs) -> In (i, j) pairs.
Proof.
  unfold edges_of. rewrite in_map_iff. intros [[i' j'] [He Hin]].
  simpl in He. apply edge_inj in He as [-> ->]. exact Hin.
Qed.

Lemma edges_of_NoDup (pairs : list (nat * nat)) :
  NoDup pairs -> NoDup (edges_of pairs).
Proof.
  induction 1 as [|[i j] pairs Hnotin Hnodup IH]; simpl; constructor; auto.
  rewrite list_elem_of_In. intros Hin. apply in_edges_of in Hin.
  apply Hnotin. now rewrite list_elem_of_In.
Qed.

Lemma visited_next_target p i j : visited p i j -> visited p i (S j).
Proof. unfold visited. lia. Qed.

Lemma visited_next_source p i n : visited p i n -> visited p (S i) 0.
Proof. unfold visited. lia. Qed.

Lemma visited_target_inv p i j :
  visited p i (S j) -> visited p i j \/ p = (i, j).
Proof.
  destruct p as [a b]. unfold visited. simpl. intros H.
  destruct (Nat.eq_dec a i) as [->|]; [|left; lia].
  destruct (Nat.eq_dec b j) as [->|]; [now right|left; lia].
Qed.

Lemma related_in_range actions p :
  related actions p -> p.1 < length actions /\ p.2 < length actions.
Proof.
  intros (_ & s & t & d & Hs & Ht & _).
  split; eapply lookup_lt_Some; eauto.
Qed.

Lemma relationships_upto_skip actions i j rels :
  ~ related actions (i, j) ->
  relationships_upto actions i j rels -> relationships_upto actions i (S j) rels.
Proof.
  intros Hnot (pairs & -> & Hnd & Hall & Hcomplete).
  exists pairs. repeat split; auto.
  - eapply Forall_impl; [exact Hall|]. simpl.
    intros p [Hr Hv]. split; [exact Hr|now apply visited_next_target].
  - intros p Hr Hv. apply visited_target_inv in Hv as [Hv| ->]; [auto|].
    now destruct Hnot.
Qed.

Lemma relationships_upto_push actions i j rels :
  related actions (i, j) ->
  relationships_upto actions i j rels ->
  relationships_upto actions i (S j) (rels ++ [edge i j])%list.
Proof.
  intros Hrel (pairs & -> & Hnd & Hall & Hcomplete).
  exists (pairs ++ [(i, j)])%list. repeat split.
  - unfold edges_of. now rewrite map_app.
  - apply NoDup_app. repeat split; [exact Hnd| |apply NoDup_singleton].
    intros p Hp Hp'. apply list_elem_of_singleton in Hp' as ->.
    rewrite Forall_forall in Hall. apply Hall in Hp as [_ Hv].
    unfold visited in Hv. simpl in Hv. lia.
  - apply Forall_app. split.
    + eapply Forall_impl; [exact Hall|]. simpl.
      intros p [Hr Hv]. split; [exact Hr|now apply visited_next_target].
    + constructor; [|constructor]. split; [exact Hrel|].
      unfold visited. simpl. lia.
  - intros p Hr Hv. apply in_or_app.
    apply visited_target_inv in Hv as [Hv| ->]; [left; auto|right; now left].
Qed.

Lemma related_at actions i j sourceAction targetAction sourceDataframe :
  actions !! i = Some sourceAction ->
  get_prop sourceAction "dataframe" = Ok sourceDataframe ->
  actions !! j = Some targetAction ->
  related actions (i, j) ->
  loadGuard sourceDataframe targetAction = Ok false /\
  usesDataframe sourceDataframe targetAction = Ok true.
Proof.
  intros Hi Hdf Hj (_ & s & t & d & Hs & Ht & Hd & Hguard & Huses).
  simpl in Hs, Ht. rewrite Hi in Hs. rewrite Hj in Ht.
  injection Hs as <-. injection Ht as <-.
  rewrite Hdf in Hd. injection Hd as <-. auto.
Qed.

(** One run of the inner callback. *)
Lemma relate_step actions sourceAction sourceDataframe i targetAction j rels rels' :
  actions !! i = Some sourceAction ->
  get_prop sourceAction "dataframe" = Ok sourceDataframe ->
  actions !! j = Some targetAction ->
  relationships_upto actions i j rels ->
  relate sourceDataframe i targetAction j rels = (Ok tt, rels') ->
  relationships_upto actions i (S j) rels'.
Proof.
  intros Hi Hdf Hj Hinv. unfold relate.
  pose proof (related_at actions i j sourceAction targetAction sourceDataframe
                Hi Hdf Hj) as Hthis.
  destruct (Nat.eqb_spec i j) as [Heq|Hne].
  - unfold ret. intros [= <-]. apply relationships_upto_skip; [|exact Hinv].
    intros [Hne _]. now apply Hne.
  - unfold bind, lift.
    destruct (loadGuard sourceDataframe targetAction) as [[|]|e] eqn:Hguard;
      [| |discriminate].
    + unfold ret. intros [= <-]. apply relationships_upto_skip; [|exact Hinv].
      intros Hr. apply Hthis in Hr as [Hg _]. congruence.
    + destruct (usesDataframe sourceDataframe targetAction) as [[|]|e] eqn:Huses;
        [| |discriminate].
      * unfold push. intros [= <-]. apply relationships_upto_push; [|exact Hinv].
        split; [exact Hne|]. simpl.
        exists sourceAction, targetAction, sourceDataframe. auto.
      * unfold ret. intros [= <-]. apply relationships_upto_skip; [|exact Hinv].
        intros Hr. apply Hthis in Hr as [_ Hu]. congruence.
Qed.

(** One run of the outer callback. *)
Lemma relateAll_step actions sourceAction i rels rels' :
  actions !! i = Some sourceAction ->
  relationships_upto actions i 0 rels ->
  relateAll actions sourceAction i rels = (Ok tt, rels') ->
  relationships_upto actions (S i) 0 rels'.
Proof.
  intros Hi Hinv. unfold relateAll, bind, lift.
  destruct (get_prop sourceAction "dataframe") as [sourceDataframe|e] eqn:Hdf;
    [|discriminate].
  intros Hrun.
  apply (forEach_invariant (relationships_upto actions i)) in Hrun.
  - destruct Hrun as (pairs & -> & Hnd & Hall & Hcomplete).
    exists pairs. repeat split; auto.
    + eapply Forall_impl; [exact Hall|]. simpl.
      intros p [Hr Hv]. split; [exact Hr|]. eapply visited_next_source, Hv.
    + intros p Hr Hv. apply Hcomplete; [exact Hr|].
      destruct (related_in_range actions p Hr) as [_ H2].
      unfold visited in *. lia.
  - exact Hinv.
  - intros j targetAction t t' Hj Ht Hstep.
    eapply relate_step; eauto.
Qed.

(** The edges returned are those of the related pairs of indices, each
    once. *)
Lemma findRelationships_pairs actions relationships :
  findRelationships actions = Ok relationships ->
  exists pairs,
    relationships = edges_of pairs /\ NoDup pairs /\
    forall p, In p pairs <-> related actions p.
Proof.
  unfold findRelationships.
  destruct (forEach indexDataframe actions ∅) as [[[]|e] m]; [|discriminate].
  destruct (forEach (relateAll actions) actions []) as [[[]|e] rels] eqn:Hrun;
    [|discriminate].
  intros [= <-].
  apply (forEach_invariant (fun i => relationships_upto actions i 0)) in Hrun.
  - destruct Hrun as (pairs & -> & Hnd & Hall & Hcomplete).
    exists pairs. split; [reflexivity|]. split; [exact Hnd|].
    intros p. split.
    + intros Hin. rewrite Forall_forall in Hall.
      rewrite <- list_elem_of_In in Hin. now apply Hall in Hin as [Hr _].
    + intros Hr. apply Hcomplete; [exact Hr|].
      destruct (related_in_range actions p Hr) as [H1 _].
      unfold visited. lia.
  - exists []. repeat split; try constructor.
    intros p _ Hv. unfold visited in Hv. lia.
  - intros i sourceAction t t' Hi Ht Hstep. eapply relateAll_step; eauto.
Qed.

(** An edge is returned exactly for the related pairs. *)
Lemma findRelationships_edges actions relationships i j :
  findRelationships actions = Ok relationships ->
  In (edge i j) relationships <-> related actions (i, j).
Proof.
  intros Hrun.
  apply findRelationships_pairs in Hrun as (pairs & -> & _ & Hpairs).
  rewrite <- Hpairs. split; [apply in_edges_of|].
  intros Hin. unfold edges_of. apply in_map_iff. now exists (i, j).
Qed.

Lemma usesDataframe_total sourceDataframe sub fields :
  to_string sourceDataframe = Ok sub ->
  exists b, usesDataframe sourceDataframe (VObject fields) = Ok b.
Proof.
  intros Hs. unfold usesDataframe. simpl.
  apply (some_total (fun _ => True)); [|now apply Forall_true].
  intros [key v] _. unfold entryUses.
  destruct (_ || _); [now eexists|].
  destruct v; try now eexists.
  - unfold includes_value. rewrite Hs. simpl. now eexists.
  - apply (some_total (fun _ => True)); [|now apply Forall_true].
    intros item _. destruct item; try now eexists.
    unfold includes_value. rewrite Hs. simpl. now eexists.
Qed.

Lemma plain_dataframe_prints fields :
  (lookup_field "dataframe" fields = VUndefined \/
   exists s, lookup_field "dataframe" fields = VString s /\
             existsb (String.eqb s) object_prototype_keys = false) ->
  exists sub, to_string (lookup_field "dataframe" fields) = Ok sub.
Proof. intros [->|(s & -> & _)]; simpl; now eexists. Qed.

(** X2.  [findRelationships] returns an edge list, and does not throw, on
    every list of records whose [dataframe] is absent or a string that does
    not name a member of [Object.prototype]. *)
Lemma findRelationships_returns actions :
  Forall plain_record actions ->
  exists relationships, findRelationships actions = Ok relationships.
Proof.
  intros Hplain. unfold findRelationships.
  destruct (forEach_total plain_record indexDataframe actions ∅) as [m ->];
    [|exact Hplain|].
  { intros x k m (fields & -> & Hdf). unfold indexDataframe, bind, lift.
    cbn -[existsb].
    destruct Hdf as [->|(s & -> & Hs)]; cbn -[existsb]; [now eexists|].
    destruct (negb (s =? EmptyString)%string); [|now eexists].
    unfold get_state, put_state, throw.
    destruct (m !! s); [now eexists|]. rewrite Hs. now eexists. }
  destruct (forEach_total plain_record (relateAll actions) actions []) as [rels ->];
    [|exact Hplain|now exists rels].
  intros x i rels (fields & -> & Hdf). unfold relateAll, bind, lift. simpl.
  apply (forEach_total plain_record); [|exact Hplain].
  intros t j rels' (tfields & -> & _). unfold relate.
  destruct (i =? j)%nat; [now eexists|].
  unfold bind, lift, loadGuard. simpl.
  destruct (strict_equals (lookup_field "action" tfields) (VString "Load")); simpl.
  - destruct (strict_equals _ _); [now eexists|].
    destruct (plain_dataframe_prints fields Hdf) as [sub Hsub].
    destruct (usesDataframe_total _ sub tfields Hsub) as [[|] ->]; now eexists.
  - destruct (plain_dataframe_prints fields Hdf) as [sub Hsub].
    destruct (usesDataframe_total _ sub tfields Hsub) as [[|] ->]; now eexists.
Qed.

(** *** Examples *)

(** A record without a [dataframe] is searched for as the text
    [undefined]. *)
Example absent_dataframe_is_undefined :
  findRelationships
    [VObject [("action", VString "Purge"); ("name", VString "clean")];
     VObject [("action", VString "Execute"); ("name", VString "run");
              ("dataframe", VString "d1");
              ("script", VString "return undefined")]]
  = Ok [edge 0 1].
Proof. vm_compute. reflexivity. Qed.

(** Two entries of the target mention the source: one edge. *)
Example two_mentions_one_edge :
  findRelationships
    [VObject [("action", VString "Extract"); ("name", VString "a");
              ("dataframe", VString "orders"); ("location", VString "p")];
     VObject [("action", VString "Merge"); ("name", VString "b");
              ("dataframe", VString "all");
              ("sources", VArray [VString "orders"; VString "refunds"]);
              ("strategy", VString "orders first")]]
  = Ok [edge 0 1].
Proof. vm_compute. reflexivity. Qed.

(** A dataframe named after a member of [Object.prototype] stops the first
    loop. *)
Example prototype_name_throws :
  findRelationships [VObject [("dataframe", VString "constructor")]]
  = Throw (TypeError "dataframeMap[action.dataframe].push is not a function").
Proof. vm_compute. reflexivity. Qed.

(** C1, as amended.  On the two records of the scenario (an Extract into
    [d1], then a Transform whose transformation reads [d1]),
    [findRelationships] returns exactly one edge, from index 0 to index 1;
    the edge names its ends by the node identifiers [action-0] and
    [action-1]. *)
Theorem findRelationships_scenario :
  findRelationships scenario
  = Ok [VObject [("source", VString "action-0"); ("target", VString "action-1")]].
Proof. vm_compute. reflexivity. Qed.

(** C1, as stated, fails: the ends of the edge are not the numbers 0 and
    1. *)
Lemma findRelationships_scenario_not_indices :
  findRelationships scenario
  <> Ok [VObject [("source", VNumber 0); ("target", VNumber 1)]].
Proof. vm_compute. discriminate. Qed.

(** C2.  When the action at [j] is a [Load] whose [dataframe] is strictly
    equal to the [dataframe] of the action at [i], the list returned holds
    no edge from [i] to [j], whatever the other entries of the two records
    are. *)
Theorem load_guard_excludes_edge
    (actions relationships : list value) (i j : nat)
    (sourceFields targetFields : list (string * value)) :
  findRelationships actions = Ok relationships ->
  actions !! i = Some (VObject sourceFields) ->
  actions !! j = Some (VObject targetFields) ->
  lookup_field "action" targetFields = VString "Load" ->
  strict_equals (lookup_field "dataframe" targetFields)
                (lookup_field "dataframe" sourceFields) = true ->
  ~ In (edge i j) relationships.
Proof.
  intros Hrun Hi Hj Hload Heq Hin.
  apply (findRelationships_edges actions relationships i j Hrun) in Hin
    as (_ & s & t & d & Hs & Ht & Hd & Hguard & _).
  simpl in Hs, Ht. rewrite Hi in Hs. rewrite Hj in Ht.
  injection Hs as <-. injection Ht as <-.
  simpl in Hd. injection Hd as <-.
  unfold loadGuard in Hguard. simpl in Hguard.
  rewrite Hload in Hguard. simpl in Hguard. rewrite Heq in Hguard.
  discriminate.
Qed.

(** C3.  The list returned holds edges between different indices only, so
    it has no self-edge, and it holds the edge of an ordered pair of
    indices at most once, however many entries of the target mention the
    source. *)
Theorem findRelationships_no_self_edge_no_duplicate
    (actions relationships : list value) :
  findRelationships actions = Ok relationships ->
  (forall e, In e relationships -> exists i j, e = edge i j /\ i <> j) /\
  (forall i, ~ In (edge i i) relationships) /\
  (forall i j, count_occ value_eq_dec relationships (edge i j) <= 1).
Proof.
  intros Hrun.
  apply findRelationships_pairs in Hrun as (pairs & -> & Hnd & Hall).
  split; [|split].
  - intros e He. unfold edges_of in He. apply in_map_iff in He as ([i j] & <- & Hin).
    exists i, j. split; [reflexivity|].
    now apply Hall in Hin as [Hne _].
  - intros i Hin. apply in_edges_of in Hin.
    apply Hall in Hin as [Hne _]. now apply Hne.
  - intros i j. apply NoDup_count_occ.
    apply NoDup_ListNoDup. now apply edges_of_NoDup.
Qed.

(** A run of X2 on the scenario. *)
Lemma findRelationships_returns_witness :
  exists relationships, findRelationships scenario = Ok relationships.
Proof.
  apply findRelationships_returns.
  repeat constructor; eexists; (split; [reflexivity|]); right; eexists;
    split; reflexivity.
Defined.

(** A run of C2: the Load at index 1 stores the dataframe the Extract at
    index 0 produces, and the only edge goes the other way. *)
Lemma load_guard_excludes_edge_witness :
  findRelationships extract_then_load = Ok [edge 1 0] /\ ~ In (edge 0 1) [edge 1 0].
Proof.
  split; [vm_compute; reflexivity|].
  apply (load_guard_excludes_edge extract_then_load [edge 1 0] 0 1
           [("action", VString "Extract"); ("name", VString "read");
            ("dataframe", VString "d1"); ("location", VString "p")]
           [("action", VString "Load"); ("name", VString "store d1");
            ("dataframe", VString "d1"); ("destination", VString "d1_table")]);
    vm_compute; reflexivity.
Defined.

(** A run of C3 on the scenario. *)
Lemma findRelationships_no_self_edge_no_duplicate_witness :
  findRelationships scenario = Ok [edge 0 1] /\
  (forall i, ~ In (edge i i) [edge 0 1]) /\
  (forall i j, count_occ value_eq_dec [edge 0 1] (edge i j) <= 1).
Proof.
  split; [vm_compute; reflexivity|].
  apply (findRelationships_no_self_edge_no_duplicate scenario [edge 0 1]).
  vm_compute. reflexivity.
Defined.


(** ** validateYaml *)

Lemma checkMandatory_appends action actionType index prop k :
  appends (checkMandatory action actionType index prop k).
Proof.
  unfold checkMandatory. destruct (negb _); [|apply appends_ret].
  apply appends_bind; [apply appends_lift|]. intros v.
  destruct (negb (truthy v)); [|apply appends_ret].
  apply appends_bind; [apply appends_lift|]. intros tag. apply appends_push.
Qed.

Lemma validateAction_appends action index : appends (validateAction action index).
Proof.
  unfold validateAction. apply appends_bind; [apply appends_lift|].
  intros actionType. destruct (negb (truthy actionType)); [apply appends_push|].
  destruct (getActionDefinition actionType) as [definition|].
  - apply appends_forEach_from. intros prop k. apply checkMandatory_appends.
  - apply appends_bind; [apply appends_lift|]. intros tag. apply appends_push.
Qed.

(** A known type is the name of an entry of the table, and is truthy. *)
Lemma getActionDefinition_known actionType definition :
  getActionDefinition actionType = Some definition ->
  actionType = VString (name definition) /\ truthy actionType = true.
Proof.
  unfold getActionDefinition. intros H.
  apply find_some in H as [Hin Heq].
  destruct actionType; try discriminate. simpl in Heq.
  apply String.eqb_eq in Heq. subst s. split; [reflexivity|].
  simpl in Hin. repeat destruct Hin as [<-|Hin]; try reflexivity. destruct Hin.
Qed.

Lemma get_prop_defined action k v k' :
  get_prop action k = Ok v -> exists v', get_prop action k' = Ok v'.
Proof. destruct action; simpl; intros H; try discriminate; now eexists. Qed.

Lemma validateAction_checkable action index :
  checkable action -> fst (validateAction action index []) = Ok tt.
Proof.
  intros (actionType & tag & Hget & Hprint).
  unfold validateAction, bind, lift. rewrite Hget.
  destruct (negb (truthy actionType)); [reflexivity|].
  destruct (getActionDefinition actionType) as [definition|].
  - destruct (JsFacts.forEach_total (fun _ => True)
                (checkMandatory action actionType index)
                (mandatoryProps definition) []) as [errs ->];
      [|now apply Forall_true|reflexivity].
    intros prop k errs _. unfold checkMandatory.
    destruct (negb (prop =? "action")%string); [|now eexists].
    unfold bind, lift.
    destruct (get_prop_defined action "action" actionType prop Hget) as [v ->].
    destruct (negb (truthy v)); [|now eexists].
    rewrite Hprint. now eexists.
  - rewrite Hprint. reflexivity.
Qed.

Section ValidateFacts.

Variable yaml_load : string -> result value.

(** On a document whose entries are all checkable, the errors are those of
    the records, in the order of the sequence, and the document loaded is
    returned. *)
Lemma validateYaml_per_record content data items :
  yaml_load content = Ok data ->
  get_prop data "actions" = Ok (VArray items) ->
  Forall checkable items ->
  validateYaml yaml_load content
  = {| errors := concat (imap (fun i action => recordErrors action i) items);
       data := data |}.
Proof.
  intros Hload Hactions Hitems.
  unfold validateYaml, validateBody, bind, lift. rewrite Hload.
  assert (Htruthy : truthy data = true).
  { destruct data; try discriminate; reflexivity. }
  rewrite Htruthy, Hactions. simpl.
  rewrite (forEach_pushes validateAction items []).
  - reflexivity.
  - intros x k. apply validateAction_appends.
  - intros k x Hk. apply validateAction_checkable.
    rewrite Forall_forall in Hitems. apply Hitems.
    now apply list_elem_of_lookup_2 with k.
Qed.

End ValidateFacts.

Lemma checkMandatory_loop fields tag index props :
  forall i errs,
    forEach_from (checkMandatory (VObject fields) (VString tag) index) props i errs
    = (Ok tt,
       (errs ++ map (missingMessage tag index)
                    (List.filter
                       (fun prop => negb (String.eqb prop "action")
                                    && negb (truthy (lookup_field prop fields)))
                       props))%list).
Proof.
  induction props as [|prop props IH]; intros i errs; simpl.
  - unfold ret. now rewrite app_nil_r.
  - unfold bind at 1. unfold checkMandatory at 1.
    destruct (negb (prop =? "action")%string); simpl.
    + unfold bind, lift. simpl.
      destruct (negb (truthy (lookup_field prop fields))); simpl.
      * rewrite IH. unfold missingMessage. now rewrite <- app_assoc.
      * apply IH.
    + apply IH.
Qed.

(** *** Examples *)

(** An entry that is [null] makes the callback throw; the catch clause
    reports it as a parsing error and drops the document. *)
Example null_entry_caught :
  validateYaml (loads (document [explode; VNull])) "doc"
  = {| errors := ["Unknown action type 'Explode' at index 0";
                  "YAML parsing error: Cannot read properties of null (reading 'action')"];
       data := VNull |}.
Proof. vm_compute. reflexivity. Qed.

(** A sequence without records is a valid document. *)
Example no_records :
  validateYaml (loads (document [])) "actions: []"
  = {| errors := []; data := document [] |}.
Proof. vm_compute. reflexivity. Qed.

(** For a record of a known type, the callback pushes one error for each
    mandatory property, [action] apart, that is falsy on the record, and
    nothing else. *)
Lemma validateAction_known_type
    (fields : list (string * value)) (index : nat)
    (definition : ActionDefinition) (errs : list string) :
  getActionDefinition (lookup_field "action" fields) = Some definition ->
  validateAction (VObject fields) index errs
  = (Ok tt,
     (errs ++ map (missingMessage (name definition) index)
                  (falsyProps fields definition))%list)
  /\ length (recordErrors (VObject fields) index)
     = length (falsyProps fields definition).
Proof.
  intros Hdef.
  assert (Hrun : forall errs,
             validateAction (VObject fields) index errs
             = (Ok tt,
                (errs ++ map (missingMessage (name definition) index)
                             (falsyProps fields definition))%list)).
  { intros errs'. unfold validateAction, bind, lift. simpl.
    destruct (getActionDefinition_known _ _ Hdef) as [Hname Htruthy].
    rewrite Htruthy. simpl. rewrite Hdef. rewrite Hname.
    apply checkMandatory_loop. }
  split; [apply Hrun|].
  unfold recordErrors. rewrite Hrun. simpl. now rewrite length_map.
Qed.

(** C6, as stated, fails: the empty list of transformations is an empty
    mandatory property, and no error is pushed for it; and the dataframe 0
    is neither absent nor empty, and an error is pushed for it. *)
Lemma empty_sequence_not_reported :
  (exists definition,
      getActionDefinition (lookup_field "action" empty_transform) = Some definition /\
      absentOrEmptyProps empty_transform definition = ["transformations"] /\
      recordErrors (VObject empty_transform) 0 = [] /\
      length (recordErrors (VObject empty_transform) 0)
      <> length (absentOrEmptyProps empty_transform definition))
  /\
  (exists definition,
      getActionDefinition (lookup_field "action" zero_dataframe) = Some definition /\
      absentOrEmptyProps zero_dataframe definition = [] /\
      recordErrors (VObject zero_dataframe) 0
      = ["Action 'Extract' at index 0 is missing mandatory property 'dataframe'"] /\
      length (recordErrors (VObject zero_dataframe) 0)
      <> length (absentOrEmptyProps zero_dataframe definition)).
Proof.
  split; eexists; (split; [vm_compute; reflexivity|]);
    (split; [vm_compute; reflexivity|]);
    (split; [vm_compute; reflexivity|]);
    vm_compute; discriminate.
Qed.

Section ValidateClaims.

Variable yaml_load : string -> result value.

(** C4.  When the value loaded is absent, or has no [actions], or has an
    [actions] that is not a sequence, the result is the single error that
    the document must contain an actions array, with a null document and
    no error of a record; and when the loader throws, the result is the
    single error made from what was thrown, with a null document. *)
Theorem validateYaml_fails_fast (content : string) :
  (forall data,
      yaml_load content = Ok data ->
      lacks_actions data ->
      validateYaml yaml_load content
      = {| errors := ["YAML must contain an 'actions' array"]; data := VNull |})
  /\
  (forall e,
      yaml_load content = Throw e ->
      validateYaml yaml_load content
      = {| errors := [catch_message e]; data := VNull |}).
Proof.
  split.
  - intros data Hload Hlacks.
    unfold validateYaml, validateBody, bind, lift. rewrite Hload.
    destruct Hlacks as [->|[->|(actions & Hget & Harr)]]; [reflexivity..|].
    destruct (truthy data); [|reflexivity]. simpl.
    rewrite Hget. simpl.
    rewrite Harr, orb_true_r. reflexivity.
  - intros e Hload.
    unfold validateYaml, validateBody, bind, lift. now rewrite Hload.
Qed.

(** C5, as amended.  On a document with an [actions] sequence whose entries
    are all checkable, the errors returned are those of the records, one
    record after the other, and the document returned is the one loaded,
    which is not null; a record whose [action] is truthy and is not the
    name of a known type contributes exactly one error, the one of an
    unknown action type, and none about mandatory properties. *)
Theorem unknown_action_type_reported
    (content : string) (data : value) (items : list value) :
  yaml_load content = Ok data ->
  get_prop data "actions" = Ok (VArray items) ->
  Forall checkable items ->
  validateYaml yaml_load content
  = {| errors := concat (imap (fun i action => recordErrors action i) items);
       data := data |}
  /\ data <> VNull
  /\ forall i action actionType,
       items !! i = Some action ->
       get_prop action "action" = Ok actionType ->
       truthy actionType = true ->
       getActionDefinition actionType = None ->
       exists tag,
         to_string actionType = Ok tag /\
         recordErrors action i
         = ["Unknown action type '" +:+ tag +:+ "' at index " +:+ dec i].
Proof.
  intros Hload Hactions Hitems. split; [|split].
  - now apply validateYaml_per_record.
  - intros ->. discriminate.
  - intros i action actionType Hi Hget Htruthy Hdef.
    rewrite Forall_forall in Hitems.
    destruct (Hitems action) as (t & tag & Hget' & Hprint).
    { now apply list_elem_of_lookup_2 with i. }
    rewrite Hget in Hget'. injection Hget' as <-.
    exists tag. split; [exact Hprint|].
    unfold recordErrors, validateAction, bind, lift.
    rewrite Hget, Htruthy. simpl. rewrite Hdef, Hprint. reflexivity.
Qed.

(** C6, as amended.  On a document with an [actions] sequence whose entries
    are all checkable, the errors [validateYaml] returns are those of the
    records, one record after the other; and a record of the sequence
    whose [action] names a known type is a mapping and contributes one
    error for each mandatory property of the type, [action] apart, that is
    falsy on it (absent, [null], [false], [0] or the empty string), and
    nothing else: as many errors as there are such properties. *)
Theorem missing_mandatory_errors
    (content : string) (data : value) (items : list value) :
  yaml_load content = Ok data ->
  get_prop data "actions" = Ok (VArray items) ->
  Forall checkable items ->
  validateYaml yaml_load content
  = {| errors := concat (imap (fun i action => recordErrors action i) items);
       data := data |}
  /\ forall i action actionType definition,
       items !! i = Some action ->
       get_prop action "action" = Ok actionType ->
       getActionDefinition actionType = Some definition ->
       exists fields,
         action = VObject fields /\
         recordErrors action i
         = map (missingMessage (name definition) i) (falsyProps fields definition) /\
         length (recordErrors action i) = length (falsyProps fields definition).
Proof.
  intros Hload Hactions Hitems. split.
  - now apply validateYaml_per_record.
  - intros i action actionType definition _ Hget Hdef.
    destruct (getActionDefinition_known _ _ Hdef) as [Hname _].
    destruct action as [| | | | | |fields]; simpl in Hget; try congruence.
    injection Hget as Hget. exists fields. split; [reflexivity|].
    rewrite <- Hget in Hdef.
    destruct (validateAction_known_type fields i definition [] Hdef)
      as [Hrun Hcount].
    split; [|exact Hcount].
    unfold recordErrors. now rewrite Hrun.
Qed.

End ValidateClaims.

(** A run of C6: a document with one record, a Load without a name and
    without a destination. *)
Lemma missing_mandatory_errors_witness :
  validateYaml
    (loads (document [VObject [("action", VString "Load");
                               ("name", VString EmptyString);
                               ("dataframe", VString "d1")]]))
    "actions: [{action: Load, name: '', dataframe: d1}]"
  = {| errors :=
         ["Action 'Load' at index 0 is missing mandatory property 'name'";
          "Action 'Load' at index 0 is missing mandatory property 'destination'"];
       data :=
         document [VObject [("action", VString "Load");
                            ("name", VString EmptyString);
                            ("dataframe", VString "d1")]] |}
  /\ length (recordErrors
               (VObject [("action", VString "Load");
                         ("name", VString EmptyString);
                         ("dataframe", VString "d1")]) 0) = 2.
Proof.
  destruct (missing_mandatory_errors
              (loads (document [VObject [("action", VString "Load");
                                         ("name", VString EmptyString);
                                         ("dataframe", VString "d1")]]))
              "actions: [{action: Load, name: '', dataframe: d1}]"
              (document [VObject [("action", VString "Load");
                                  ("name", VString EmptyString);
                                  ("dataframe", VString "d1")]])
              [VObject [("action", VString "Load");
                        ("name", VString EmptyString);
                        ("dataframe", VString "d1")]]
              eq_refl eq_refl)
    as [Hrun Hrecord].
  - apply List.Forall_cons; [|apply List.Forall_nil].
    exists (VString "Load"), "Load". split; reflexivity.
  - split; [rewrite Hrun; vm_compute; reflexivity|].
    destruct (Hrecord 0 _ (VString "Load")
                {| name := "Load"; color := "#9C27B0"; icon := "upload";
                   mandatoryProps := ["action"; "name"; "dataframe"; "destination"];
                   optionalProps := ["format"; "options"] |}
                eq_refl eq_refl eq_refl)
      as (fields & Hfields & _ & Hcount).
    injection Hfields as <-. rewrite Hcount. vm_compute. reflexivity.
Defined.

(** A run of C4: an empty text, which loads as [undefined], and a text the
    loader rejects. *)
Lemma validateYaml_fails_fast_witness :
  validateYaml (loads VUndefined) EmptyString
  = {| errors := ["YAML must contain an 'actions' array"]; data := VNull |}
  /\ validateYaml (rejects "bad indentation") "a: b: c"
     = {| errors := ["YAML parsing error: bad indentation"]; data := VNull |}.
Proof.
  split.
  - apply (proj1 (validateYaml_fails_fast (loads VUndefined) EmptyString)
             VUndefined eq_refl).
    left. reflexivity.
  - apply (proj2 (validateYaml_fails_fast (rejects "bad indentation") "a: b: c")
             (ErrorObject "YAMLException" "bad indentation") eq_refl).
Defined.

(** C5, as stated, fails: an [action] that is present and falsy is not in
    the known type set, and is reported as missing, not as unknown. *)
Lemma falsy_action_reported_missing :
  Forall (fun action =>
            exists fields, action = VObject fields /\
              has_field "action" fields = true /\
              getActionDefinition (lookup_field "action" fields) = None)
         falsy_actions
  /\ validateYaml (loads (document falsy_actions)) "doc"
     = {| errors := ["Action at index 0 is missing the 'action' property";
                     "Action at index 1 is missing the 'action' property"];
          data := document falsy_actions |}
  /\ List.filter (fun e => startsWith e "Unknown action type")
       (errors (validateYaml (loads (document falsy_actions)) "doc")) = [].
Proof.
  split; [|split; vm_compute; reflexivity].
  repeat constructor; eexists; (split; [reflexivity|]); split; reflexivity.
Qed.

(** A run of C5: the record of the unknown type at index 1 gets its one
    error, and the records around it are validated as well. *)
Lemma unknown_action_type_reported_witness :
  validateYaml (loads (document unknown_between)) "doc"
  = {| errors := ["Action 'Extract' at index 0 is missing mandatory property 'location'";
                  "Unknown action type 'Explode' at index 1";
                  "Action at index 2 is missing the 'action' property"];
       data := document unknown_between |}
  /\ recordErrors explode 1 = ["Unknown action type 'Explode' at index 1"].
Proof.
  destruct (unknown_action_type_reported (loads (document unknown_between)) "doc"
              (document unknown_between) unknown_between eq_refl eq_refl)
    as (Hall & _ & Hone).
  { repeat constructor; eexists; eexists; split; reflexivity. }
  split.
  - rewrite Hall. vm_compute. reflexivity.
  - destruct (Hone 1 explode (VString "Explode") eq_refl eq_refl eq_refl eq_refl)
      as (tag & Htag & Herr).
    injection Htag as <-. exact Herr.
Defined.

(** ** Further properties of findRelationships *)

Lemma usesDataframe_mentions sourceDataframe sub fields :
  to_string sourceDataframe = Ok sub ->
  usesDataframe sourceDataframe (VObject fields)
  = Ok (existsb (entry_mentions sub) fields).
Proof.
  intros Hsub. unfold usesDataframe. simpl.
  apply some_existsb. intros [key v] _.
  unfold entryUses, entry_mentions. simpl.
  destruct (_ || _); simpl; [reflexivity|].
  destruct v; simpl; try reflexivity.
  - unfold includes_value. now rewrite Hsub.
  - apply some_existsb. intros item _.
    destruct item; try reflexivity.
    unfold includes_value. now rewrite Hsub.
Qed.

Lemma loadGuard_record sourceDataframe fields :
  loadGuard sourceDataframe (VObject fields)
  = Ok (strict_equals (lookup_field "action" fields) (VString "Load")
        && strict_equals (lookup_field "dataframe" fields) sourceDataframe).
Proof.
  unfold loadGuard. simpl.
  now destruct (strict_equals (lookup_field "action" fields) (VString "Load")).
Qed.

Lemma strict_equals_string v s :
  strict_equals v (VString s) = true <-> v = VString s.
Proof.
  split.
  - destruct v; simpl; try discriminate.
    intros H. apply String.eqb_eq in H. now subst.
  - intros ->. simpl. apply String.eqb_refl.
Qed.

(** X1.  Which edges there are.  For two records of the list, the source
    with a [dataframe] that prints as [sub]: the edge from [i] to [j] is
    returned exactly when [i] and [j] differ, the target is not a Load of
    the very dataframe of the source, and some entry of the target other
    than [action] and [name] is a string that contains [sub] or a sequence
    with a string item that contains [sub]. *)
Theorem findRelationships_edge_iff
    (actions relationships : list value) (i j : nat)
    (sourceFields targetFields : list (string * value)) (sub : string) :
  findRelationships actions = Ok relationships ->
  actions !! i = Some (VObject sourceFields) ->
  actions !! j = Some (VObject targetFields) ->
  to_string (lookup_field "dataframe" sourceFields) = Ok sub ->
  In (edge i j) relationships
  <-> i <> j
      /\ ~ (lookup_field "action" targetFields = VString "Load"
            /\ strict_equals (lookup_field "dataframe" targetFields)
                             (lookup_field "dataframe" sourceFields) = true)
      /\ exists key v,
           In (key, v) targetFields /\ key <> "action" /\ key <> "name"
           /\ mentions sub v = true.
Proof.
  intros Hrun Hi Hj Hsub.
  apply findRelationships_pairs in Hrun as (pairs & -> & _ & Hpairs).
  assert (Hin : In (edge i j) (edges_of pairs) <-> related actions (i, j)).
  { rewrite <- Hpairs. split; [apply in_edges_of|].
    intros H. unfold edges_of. apply in_map_iff. now exists (i, j). }
  rewrite Hin. clear Hin.
  assert (Hmentions :
            existsb (entry_mentions sub) targetFields = true
            <-> exists key v,
                  In (key, v) targetFields /\ key <> "action" /\ key <> "name"
                  /\ mentions sub v = true).
  { rewrite existsb_exists. split.
    - intros ([key v] & Hin & Hm). exists key, v. split; [exact Hin|].
      unfold entry_mentions in Hm. simpl in Hm.
      apply andb_true_iff in Hm as [Hk Hm].
      apply negb_true_iff, orb_false_iff in Hk as [Ha Hn].
      apply String.eqb_neq in Ha, Hn. auto.
    - intros (key & v & Hin & Ha & Hn & Hm). exists (key, v).
      split; [exact Hin|]. unfold entry_mentions. simpl.
      apply String.eqb_neq in Ha, Hn. now rewrite Ha, Hn, Hm. }
  rewrite <- Hmentions. clear Hmentions.
  split.
  - intros (Hne & s & t & d & Hs & Ht & Hd & Hguard & Huses).
    simpl in Hs, Ht. rewrite Hi in Hs. rewrite Hj in Ht.
    injection Hs as <-. injection Ht as <-.
    simpl in Hd. injection Hd as <-.
    rewrite loadGuard_record in Hguard. injection Hguard as Hguard.
    rewrite (usesDataframe_mentions _ sub _ Hsub) in Huses.
    injection Huses as Huses.
    split; [exact Hne|]. split; [|exact Huses].
    intros [Hload Heq]. apply strict_equals_string in Hload.
    now rewrite Hload, Heq in Hguard.
  - intros (Hne & Hguard & Huses). split; [exact Hne|].
    exists (VObject sourceFields), (VObject targetFields),
           (lookup_field "dataframe" sourceFields).
    simpl. repeat split; auto.
    + rewrite loadGuard_record. f_equal.
      destruct (strict_equals (lookup_field "action" targetFields) (VString "Load"))
        eqn:Hload; [|reflexivity].
      destruct (strict_equals (lookup_field "dataframe" targetFields) _)
        eqn:Heq; [|reflexivity].
      exfalso. apply Hguard. split; [|reflexivity].
      now apply strict_equals_string.
    + rewrite (usesDataframe_mentions _ sub _ Hsub). now rewrite Huses.
Qed.

(** A run of X1 on the scenario: the transformation of the second record
    contains [d1]. *)
Lemma findRelationships_edge_iff_witness :
  In (edge 0 1) [edge 0 1]
  <-> 0 <> 1
      /\ ~ (VString "Transform" = VString "Load"
            /\ strict_equals (VString "d2") (VString "d1") = true)
      /\ exists key v,
           In (key, v)
              [("action", VString "Transform"); ("name", VString "b");
               ("dataframe", VString "d2");
               ("transformations", VArray [VString "select * from d1"])]
           /\ key <> "action" /\ key <> "name" /\ mentions "d1" v = true.
Proof.
  apply (findRelationships_edge_iff scenario [edge 0 1] 0 1
           [("action", VString "Extract"); ("name", VString "a");
            ("dataframe", VString "d1"); ("location", VString "p")]
           [("action", VString "Transform"); ("name", VString "b");
            ("dataframe", VString "d2");
            ("transformations", VArray [VString "select * from d1"])]
           "d1");
    vm_compute; reflexivity.
Defined.

Lemma prototype_key_not_empty (s : string) :
  existsb (String.eqb s) object_prototype_keys = true -> truthy (VString s) = true.
Proof. destruct s; [discriminate|reflexivity]. Qed.

Lemma indexDataframe_prototype (actions : list value) :
  Forall string_dataframe actions ->
  Exists prototype_dataframe actions ->
  forall i (m : gmap string (list nat)),
    (forall k, existsb (String.eqb k) object_prototype_keys = true -> m !! k = None) ->
    exists m',
      forEach_from indexDataframe actions i m
      = (Throw (TypeError "dataframeMap[action.dataframe].push is not a function"), m').
Proof.
  induction 1 as [|action actions (fields & -> & Hdf) Hrest IH]; intros Hex i m Hm.
  - inversion Hex.
  - assert (Htail : ~ prototype_dataframe (VObject fields) ->
                    Exists prototype_dataframe actions).
    { intros Hnot. inversion Hex; subst; [contradiction|assumption]. }
    cbn [forEach_from]. unfold bind at 1. unfold indexDataframe at 1.
    unfold bind, lift. cbn [get_prop].
    destruct Hdf as [Hdf|(s & Hdf)]; rewrite Hdf.
    + cbn [truthy]. unfold ret. apply IH; [|exact Hm]. apply Htail.
      intros (f' & s & Heq & Hs & _). injection Heq as <-. congruence.
    + destruct (truthy (VString s)) eqn:Htruthy.
      * cbn [to_string]. unfold get_state.
        destruct (existsb (String.eqb s) object_prototype_keys) eqn:Hproto.
        -- rewrite (Hm s Hproto). unfold throw. now eexists.
        -- assert (Hnot : ~ prototype_dataframe (VObject fields)).
           { intros (f' & s' & Heq & Hs & Hp). injection Heq as <-.
             rewrite Hdf in Hs. injection Hs as <-. congruence. }
           destruct (m !! s); unfold put_state; (apply IH; [now apply Htail|]);
             intros k Hk; (rewrite lookup_insert_ne; [now apply Hm|]);
             intros ->; congruence.
      * unfold ret. apply IH; [|exact Hm]. apply Htail.
        intros (f' & s' & Heq & Hs & Hp). injection Heq as <-.
        rewrite Hdf in Hs. injection Hs as <-.
        apply prototype_key_not_empty in Hp. congruence.
Qed.

(** X3.  A dataframe named after a member of [Object.prototype] (such as
    [constructor] or [toString]) makes [findRelationships] throw a
    TypeError, whatever the other records are, as long as every record has
    a dataframe that is absent or a string. *)
Theorem findRelationships_prototype_throws (actions : list value) :
  Forall string_dataframe actions ->
  Exists prototype_dataframe actions ->
  findRelationships actions
  = Throw (TypeError "dataframeMap[action.dataframe].push is not a function").
Proof.
  intros Hall Hex. unfold findRelationships, forEach.
  destruct (indexDataframe_prototype actions Hall Hex 0 ∅) as [m' ->];
    [|reflexivity].
  intros k _. apply lookup_empty.
Qed.

(** A run of X3: the second record reads a dataframe named [toString]. *)
Lemma findRelationships_prototype_throws_witness :
  findRelationships
    [complete_extract;
     VObject [("action", VString "Load"); ("name", VString "n");
              ("dataframe", VString "toString"); ("destination", VString "t")]]
  = Throw (TypeError "dataframeMap[action.dataframe].push is not a function").
Proof.
  apply findRelationships_prototype_throws.
  - repeat constructor; eexists; (split; [reflexivity|]); right; eexists; reflexivity.
  - right. left. eexists. exists "toString". repeat split; reflexivity.
Defined.

(** ** Further properties of validateYaml *)

(** The callback leaves the errors as they are exactly on a valid
    record. *)
Lemma validateAction_clean (action : value) (index : nat) :
  validateAction action index [] = (Ok tt, []) <-> valid_record action.
Proof.
  split.
  - unfold validateAction, bind, lift.
    destruct (get_prop action "action") as [actionType|e] eqn:Hget; [|discriminate].
    destruct (negb (truthy actionType)) eqn:Htruthy.
    { unfold push. simpl. discriminate. }
    destruct (getActionDefinition actionType) as [definition|] eqn:Hdef.
    + destruct (getActionDefinition_known _ _ Hdef) as [Hname _].
      destruct action; simpl in Hget; try congruence.
      injection Hget as Hget.
      rewrite Hname. unfold forEach. rewrite checkMandatory_loop. simpl.
      intros H. injection H as H. apply map_eq_nil in H.
      exists fields, definition. rewrite Hget. auto.
    + destruct (to_string actionType); [|discriminate].
      unfold push. simpl. discriminate.
  - intros (fields & definition & -> & Hdef & Hfalsy).
    unfold validateAction, bind, lift. simpl.
    destruct (getActionDefinition_known _ _ Hdef) as [Hname Htruthy].
    rewrite Htruthy. simpl. rewrite Hdef, Hname.
    unfold forEach. rewrite checkMandatory_loop. simpl.
    unfold falsyProps in Hfalsy. now rewrite Hfalsy.
Qed.

Lemma validate_loop_clean (items : list value) :
  forall i,
    forEach_from validateAction items i [] = (Ok tt, [])
    <-> Forall valid_record items.
Proof.
  induction items as [|action items IH]; intros i.
  - simpl. unfold ret. split; [constructor|reflexivity].
  - cbn [forEach_from]. unfold bind.
    destruct (validateAction action i []) as [[[]|e] errs] eqn:Hfirst.
    + rewrite (appends_forEach_from validateAction items validateAction_appends
                 (S i) errs).
      destruct (forEach_from validateAction items (S i) []) as [r errs'] eqn:Hrest.
      simpl. split.
      * intros H. injection H as -> Happ. apply app_eq_nil in Happ as [-> ->].
        constructor; [now apply (validateAction_clean action i)|].
        apply (IH (S i)). exact Hrest.
      * intros H. inversion H as [|? ? Hvalid Hall]; subst.
        apply (validateAction_clean action i) in Hvalid.
        rewrite Hvalid in Hfirst. injection Hfirst as <-.
        apply (IH (S i)) in Hall. rewrite Hall in Hrest. now injection Hrest as <- <-.
    + split; [discriminate|].
      intros H. inversion H as [|? ? Hvalid Hall]; subst.
      apply (validateAction_clean action i) in Hvalid. congruence.
Qed.

Section ValidateMore.

Variable yaml_load : string -> result value.

(** [validateYaml], branch by branch. *)
Lemma validateYaml_cases (content : string) :
  validateYaml yaml_load content
  = match yaml_load content with
    | Throw e => {| errors := [catch_message e]; data := VNull |}
    | Ok data =>
        match (if truthy data then get_prop data "actions" else Ok VUndefined) with
        | Ok (VArray items) =>
            match forEach validateAction items [] with
            | (Ok _, errs) => {| errors := errs; data := data |}
            | (Throw e, errs) =>
                {| errors := (errs ++ [catch_message e])%list; data := VNull |}
            end
        | _ => {| errors := ["YAML must contain an 'actions' array"]; data := VNull |}
        end
    end.
Proof.
  unfold validateYaml, validateBody, bind, lift.
  destruct (yaml_load content) as [data|e]; [|reflexivity].
  destruct (truthy data) eqn:Htruthy; [|reflexivity]. simpl.
  destruct (get_prop data "actions") as [actions|e] eqn:Hget.
  - destruct actions as [| | | | |items|]; simpl; rewrite ?orb_true_r;
      try reflexivity.
    now destruct (forEach validateAction items []) as [[[]|e] errs].
  - destruct data; discriminate.
Qed.

(** X4.  When a document is valid.  [validateYaml] returns no error exactly
    when the text loads to a value with an [actions] sequence each entry of
    which is a record of a known type with every mandatory property
    truthy. *)
Theorem validateYaml_valid_iff (content : string) :
  errors (validateYaml yaml_load content) = []
  <-> exists data items,
        yaml_load content = Ok data /\
        get_prop data "actions" = Ok (VArray items) /\
        Forall valid_record items.
Proof.
  rewrite validateYaml_cases. split.
  - destruct (yaml_load content) as [data|e]; [|discriminate].
    destruct (truthy data) eqn:Htruthy; [|discriminate].
    destruct (get_prop data "actions") as [actions|e] eqn:Hget; [|discriminate].
    destruct actions as [| | | | |items|]; try discriminate.
    destruct (forEach validateAction items []) as [[[]|e] errs] eqn:Hloop; simpl.
    + intros ->. exists data, items.
      split; [reflexivity|]. split; [exact Hget|].
      now apply (validate_loop_clean items 0).
    + intros H. now apply app_eq_nil in H as [_ H].
  - intros (data & items & -> & Hget & Hvalid).
    assert (Htruthy : truthy data = true).
    { destruct data; try discriminate; reflexivity. }
    rewrite Htruthy, Hget.
    apply (validate_loop_clean items 0) in Hvalid.
    unfold forEach. now rewrite Hvalid.
Qed.

(** X5.  What [validateYaml] returns is either a failure, a null document
    with at least one error, or the value loaded, which then has an
    [actions] sequence: a non-null document never comes without its
    sequence, and a null one never without an error. *)
Theorem validateYaml_null_or_loaded (content : string) :
  (data (validateYaml yaml_load content) = VNull
   /\ errors (validateYaml yaml_load content) <> [])
  \/ (yaml_load content = Ok (data (validateYaml yaml_load content))
      /\ exists items,
           get_prop (data (validateYaml yaml_load content)) "actions"
           = Ok (VArray items)).
Proof.
  rewrite validateYaml_cases.
  destruct (yaml_load content) as [loaded|e]; [|left; split; [reflexivity|discriminate]].
  destruct (truthy loaded) eqn:Htruthy;
    [|left; split; [reflexivity|discriminate]].
  destruct (get_prop loaded "actions") as [actions|e] eqn:Hget;
    [|left; split; [reflexivity|discriminate]].
  destruct actions as [| | | | |items|];
    try (left; split; [reflexivity|discriminate]).
  destruct (forEach validateAction items []) as [[[]|e] errs]; simpl.
  - right. split; [reflexivity|]. now exists items.
  - left. split; [reflexivity|]. intros H. now apply app_eq_nil in H as [_ H].
Qed.

End ValidateMore.

(** A run of X4: one complete Extract record. *)
Lemma validateYaml_valid_iff_witness :
  errors (validateYaml (loads (document [complete_extract])) "doc") = [].
Proof.
  apply (validateYaml_valid_iff (loads (document [complete_extract])) "doc").
  exists (document [complete_extract]), [complete_extract].
  split; [reflexivity|]. split; [reflexivity|].
  constructor; [|constructor].
  eexists. eexists. split; [reflexivity|]. split; vm_compute; reflexivity.
Defined.

End YamlFacts.

(* ===================================================================== *)
(** * Properties of sql-utils.js *)
(* ===================================================================== *)

Module SqlFacts.

Import SqlUtils JsFacts.

(** ** Strings under a map of their characters *)




(** ** identifySQLProperties *)





(** *** Examples *)

Example detectSQLSyntax_query :
  detectSQLSyntax (VString "select * from d1") = true.
Proof. vm_compute. reflexivity. Qed.

Example detectSQLSyntax_prose :
  detectSQLSyntax (VString "hello world") = false.
Proof. vm_compute. reflexivity. Qed.

(** Two keywords are enough, also inside other words. *)
Example detectSQLSyntax_keywords :
  detectSQLSyntax (VString "a corner of London") = true.
Proof. vm_compute. reflexivity. Qed.

Example identifySQLProperties_execute :
  identifySQLProperties (VObject execute_record) = ["script"].
Proof. vm_compute. reflexivity. Qed.

Example validateSQL_select_where :
  validateSQL upper_format (VString "SELECT * FROM customers WHERE id = 1")
  = {| isValid := true; errors := []; warnings := [] |}.
Proof. vm_compute. reflexivity. Qed.

Example validateSQL_smells :
  validateSQL upper_format (VString "select a from t join u where x = 'a; drop t")
  = {| isValid := false;
       errors := ["Unmatched single quotes in SQL statement"];
       warnings := ["JOIN clause missing ON condition: JOIN U";
                    "Potential SQL injection pattern detected";
                    "Consider ending SQL statements with semicolon"] |}.
Proof. vm_compute. reflexivity. Qed.

(** ** validateSQL *)

Section FormatterFacts.

Variable format : string -> list (string * value) -> formatted.

(** C8.  On the text [DELETE FROM customers], which the formatter accepts,
    [validateSQL] returns no error and one warning, the one about a DELETE
    without a WHERE clause, and [isValid] is true. *)
Theorem validateSQL_delete_without_where :
  (exists out, format "DELETE FROM customers" [] = Formatted out) ->
  validateSQL format (VString "DELETE FROM customers")
  = {| isValid := true;
       errors := [];
       warnings :=
         ["DELETE statement without WHERE clause - this will delete all rows"] |}.
Proof.
  intros [out Hformat]. unfold validateSQL. cbv beta iota zeta.
  rewrite Hformat. vm_compute. reflexivity.
Qed.

(** ** autoFormatSQLInAction *)

Lemma lookup_field_set_field_ne key prop v fields :
  key <> prop ->
  lookup_field key (set_field prop v fields) = lookup_field key fields.
Proof.
  intros Hne. induction fields as [|[k old] rest IH]; simpl.
  - destruct (String.eqb_spec prop key); [congruence|reflexivity].
  - destruct (String.eqb_spec k prop) as [->|Hk]; simpl.
    + destruct (String.eqb_spec prop key); [congruence|reflexivity].
    + destruct (String.eqb_spec k key); [reflexivity|exact IH].
Qed.

(** One run of the callback writes the object it is given, and there only
    the property it is given. *)
Lemma formatProperty_step formattedAction formatOptions prop k
    (h : store) (current : list (string * value)) :
  h !! formattedAction = Some current ->
  exists current',
    formatProperty format formattedAction formatOptions prop k h
    = (Ok tt, <[formattedAction := current']> h) /\
    forall key, key <> prop ->
                lookup_field key current' = lookup_field key current.
Proof.
  intros Hcur. unfold formatProperty, bind, read. rewrite Hcur.
  destruct (lookup_field prop current) eqn:Hvalue;
    try (exists current; split; [unfold ret; now rewrite insert_id|reflexivity]).
  - eexists. split; [reflexivity|].
    intros key Hne. now apply lookup_field_set_field_ne.
  - eexists. split; [reflexivity|].
    intros key Hne. now apply lookup_field_set_field_ne.
Qed.

Lemma formatProperty_loop formattedAction formatOptions props :
  forall i (h : store) (current : list (string * value)),
    h !! formattedAction = Some current ->
    exists current',
      forEach_from (formatProperty format formattedAction formatOptions) props i h
      = (Ok tt, <[formattedAction := current']> h) /\
      forall key, ~ In key props ->
                  lookup_field key current' = lookup_field key current.
Proof.
  induction props as [|prop props IH]; intros i h current Hcur; simpl.
  - exists current. split; [unfold ret; now rewrite insert_id|reflexivity].
  - destruct (formatProperty_step formattedAction formatOptions prop i h current Hcur)
      as (c1 & Hstep & Hframe1).
    unfold bind. rewrite Hstep.
    destruct (IH (S i) (<[formattedAction := c1]> h) c1) as (c2 & Hloop & Hframe2).
    { apply lookup_insert_eq. }
    exists c2. split.
    + rewrite Hloop. now rewrite insert_insert_eq.
    + intros key Hnotin. rewrite Hframe2, Hframe1; [reflexivity| |]; intuition auto.
Qed.

(** C10.  Called on a record, [autoFormatSQLInAction] returns a new record;
    every property outside [identifySQLProperties] of the argument has in
    it the value it has in the argument; and the argument, like every other
    object of the store, holds after the call what it held before. *)
Theorem autoFormatSQLInAction_frame
    (h : store) (action : ref) (fields : list (string * value))
    (formatOptions : value) :
  h !! action = Some fields ->
  exists (formattedAction : ref) (h' : store) (formatted : list (string * value)),
    autoFormatSQLInAction format action formatOptions h = (Ok formattedAction, h') /\
    h !! formattedAction = None /\
    h' !! formattedAction = Some formatted /\
    (forall key, ~ In key (identifySQLProperties (VObject fields)) ->
                 lookup_field key formatted = lookup_field key fields) /\
    h' !! action = Some fields /\
    (forall r, r <> formattedAction -> h' !! r = h !! r).
Proof.
  intros Haction.
  set (new := fresh (dom h)).
  assert (Hnew : h !! new = None).
  { apply not_elem_of_dom. apply is_fresh. }
  destruct (formatProperty_loop new (or_empty_object formatOptions)
              (identifySQLProperties (VObject fields)) 0
              (<[new := fields]> h) fields) as (formatted & Hloop & Hframe).
  { apply lookup_insert_eq. }
  rewrite insert_insert_eq in Hloop.
  exists new, (<[new := formatted]> h), formatted.
  split; [|split; [exact Hnew|split; [apply lookup_insert_eq|split; [exact Hframe|]]]].
  - unfold autoFormatSQLInAction, bind, read, alloc. rewrite Haction.
    fold new. unfold forEach. rewrite Hloop. reflexivity.
  - split.
    + rewrite lookup_insert_ne; [exact Haction|]. intros ->. congruence.
    + intros r Hr. now rewrite lookup_insert_ne.
Qed.

End FormatterFacts.

(** A run of C8 with a formatter that accepts every text. *)
Lemma validateSQL_delete_without_where_witness :
  validateSQL upper_format (VString "DELETE FROM customers")
  = {| isValid := true;
       errors := [];
       warnings :=
         ["DELETE statement without WHERE clause - this will delete all rows"] |}.
Proof.
  apply (validateSQL_delete_without_where upper_format).
  exists "DELETE FROM CUSTOMERS". vm_compute. reflexivity.
Defined.

(** A run of C10: the script of the copy is formatted, the record given is
    as it was. *)
Lemma autoFormatSQLInAction_frame_witness :
  exists (formattedAction : ref) (h' : store) (formatted : list (string * value)),
    autoFormatSQLInAction upper_format 1%positive VUndefined one_record
    = (Ok formattedAction, h') /\
    one_record !! formattedAction = None /\
    h' !! formattedAction = Some formatted /\
    (forall key, ~ In key (identifySQLProperties (VObject execute_record)) ->
                 lookup_field key formatted = lookup_field key execute_record) /\
    h' !! 1%positive = Some execute_record /\
    (forall r, r <> formattedAction -> h' !! r = one_record !! r).
Proof.
  apply (autoFormatSQLInAction_frame upper_format one_record 1%positive
           execute_record VUndefined).
  vm_compute. reflexivity.
Defined.

Lemma autoFormatSQLInAction_example :
  exists h',
    autoFormatSQLInAction upper_format 1%positive VUndefined one_record
    = (Ok 2%positive, h') /\
    h' !! 2%positive
    = Some [("action", VString "Execute"); ("name", VString "count the rows");
            ("dataframe", VString "d1");
            ("script", VString "SELECT COUNT(*) FROM D1")] /\
    h' !! 1%positive = Some execute_record.
Proof. eexists. repeat split; vm_compute; reflexivity. Qed.

(** ** The configuration formatSQL hands to the formatter *)

Lemma lookup_field_set_field_eq key v fields :
  lookup_field key (set_field key v fields) = v.
Proof.
  induction fields as [|[k old] rest IH]; simpl.
  - now rewrite String.eqb_refl.
  - destruct (String.eqb_spec k key) as [->|Hk]; simpl.
    + now rewrite String.eqb_refl.
    + destruct (String.eqb_spec k key); [contradiction|exact IH].
Qed.

Lemma has_field_false key (fields : list (string * value)) :
  ~ In key (map fst fields) -> has_field key fields = false.
Proof.
  intros Hnot. unfold has_field.
  destruct (existsb _ fields) eqn:H; [|reflexivity].
  apply existsb_exists in H as ([k v] & Hin & Heq). simpl in Heq.
  apply String.eqb_eq in Heq as ->. exfalso. apply Hnot.
  apply in_map_iff. now exists (key, v).
Qed.

Lemma lookup_field_spread key (opts base : list (string * value)) :
  NoDup (map fst opts) ->
  lookup_field key
    (fold_left (fun acc entry => set_field (fst entry) (snd entry) acc) opts base)
  = if has_field key opts then lookup_field key opts else lookup_field key base.
Proof.
  revert base. induction opts as [|[k v] opts IH]; intros base Hnd; simpl.
  - reflexivity.
  - apply NoDup_cons in Hnd as [Hk Hnd]. rewrite (IH _ Hnd).
    destruct (String.eqb_spec k key) as [->|Hne]; simpl.
    + rewrite has_field_false; [apply lookup_field_set_field_eq|].
      now rewrite <- list_elem_of_In.
    + fold (has_field key opts).
      destruct (has_field key opts); [reflexivity|].
      apply lookup_field_set_field_ne. congruence.
Qed.

Section FormatterMore.

Variable format : string -> list (string * value) -> formatted.

(** X7.  The configuration of [formatSQL].  On a text that is not empty,
    [formatSQL] asks the formatter with a configuration in which an option
    the caller gives has the caller's value and every other option its
    default; it returns the formatted text, or the text as it is when the
    formatter throws. *)
Theorem formatSQL_configuration (text : string) (opts : list (string * value)) :
  text <> EmptyString ->
  NoDup (map fst opts) ->
  exists config,
    formatSQL format (VString text) (VObject opts)
    = match format text config with
      | Formatted out => VString out
      | FormatError _ => VString text
      end
    /\ forall key,
         lookup_field key config
         = if has_field key opts then lookup_field key opts
           else lookup_field key defaultOptions.
Proof.
  intros Htext Hnd. exists (spread defaultOptions (VObject opts)). split.
  - unfold formatSQL. apply String.eqb_neq in Htext. now rewrite Htext.
  - intros key. unfold spread. simpl. now apply lookup_field_spread.
Qed.

End FormatterMore.

(** A run of X7: the caller asks for lower-case keywords. *)
Lemma formatSQL_configuration_witness :
  exists config,
    formatSQL upper_format (VString "select 1")
              (VObject [("keywordCase", VString "lower")])
    = match upper_format "select 1" config with
      | Formatted out => VString out
      | FormatError _ => VString "select 1"
      end
    /\ forall key,
         lookup_field key config
         = if has_field key [("keywordCase", VString "lower")]
           then lookup_field key [("keywordCase", VString "lower")]
           else lookup_field key defaultOptions.
Proof.
  apply (formatSQL_configuration upper_format "select 1"
           [("keywordCase", VString "lower")]).
  - discriminate.
  - apply (bool_decide_unpack _). vm_compute. exact I.
Defined.

(** ** detectSQLSyntax *)

Lemma filter_two {A} (p : A -> bool) (a b : A) (l : list A) :
  In a l -> In b l -> a <> b -> p a = true -> p b = true ->
  2 <= length (List.filter p l).
Proof.
  intros Ha Hb Hne Hpa Hpb.
  assert (Hone : forall x l', In x l' -> p x = true ->
                              1 <= length (List.filter p l')).
  { intros x l' Hx Hpx.
    assert (Hin : In x (List.filter p l')) by now apply filter_In.
    destruct (List.filter p l'); [destruct Hin|simpl; lia]. }
  induction l as [|x l IH]; [destruct Ha|]. simpl.
  destruct Ha as [->|Ha], Hb as [->|Hb].
  - contradiction.
  - rewrite Hpa. simpl. pose proof (Hone b l Hb Hpb). lia.
  - rewrite Hpb. simpl. pose proof (Hone a l Ha Hpa). lia.
  - specialize (IH Ha Hb). destruct (p x); simpl; lia.
Qed.

Lemma includes_empty_text (sub : string) :
  includes EmptyString sub = true -> sub = EmptyString.
Proof. destruct sub; [reflexivity|discriminate]. Qed.

Lemma toUpperCase_empty (text : string) :
  toUpperCase text = EmptyString <-> text = EmptyString.
Proof. destruct text; simpl; split; intros H; first [reflexivity|discriminate]. Qed.

(** X8.  Two keywords are enough.  A text whose upper-case form contains
    two different keywords of the list, anywhere, also inside other words,
    is detected as SQL. *)
Theorem two_keywords_detected (text k1 k2 : string) :
  In k1 SQL_KEYWORDS -> In k2 SQL_KEYWORDS -> k1 <> k2 ->
  includes (toUpperCase text) k1 = true ->
  includes (toUpperCase text) k2 = true ->
  detectSQLSyntax (VString text) = true.
Proof.
  intros H1 H2 Hne Hk1 Hk2. unfold detectSQLSyntax.
  destruct (String.eqb_spec text EmptyString) as [->|_].
  - apply includes_empty_text in Hk1, Hk2. congruence.
  - cbv zeta. apply orb_true_iff. right. apply Nat.leb_le.
    now apply (filter_two _ k1 k2).
Qed.

(** A run of X8: no SQL, but an OR in [corner] and an ON in [London]. *)
Lemma two_keywords_detected_witness :
  detectSQLSyntax (VString "a corner of London") = true.
Proof.
  apply (two_keywords_detected "a corner of London" "OR" "ON").
  - vm_compute. tauto.
  - vm_compute. tauto.
  - discriminate.
  - vm_compute. reflexivity.
  - vm_compute. reflexivity.
Defined.

(** ** detectSQLSyntax and the case of letters *)





(** ** The record autoFormatSQLInAction builds *)

Lemma formattedFields_absent format opts prop (fields : list (string * value)) :
  ~ In prop (map fst fields) ->
  formattedFields format opts [prop] fields = fields.
Proof.
  induction fields as [|[k v] rest IH]; simpl; intros Hnot; [reflexivity|].
  destruct (String.eqb_spec k prop) as [->|Hk]; [tauto|].
  simpl. f_equal. apply IH. tauto.
Qed.

Lemma formattedFields_one format opts prop (fields : list (string * value)) :
  NoDup (map fst fields) ->
  formattedFields format opts [prop] fields
  = match lookup_field prop fields with
    | VString _ | VArray _ =>
        set_field prop (formattedValue format opts (lookup_field prop fields))
                  fields
    | _ => fields
    end.
Proof.
  induction fields as [|[k v] rest IH]; intros Hnd; [reflexivity|].
  simpl in Hnd. apply NoDup_cons in Hnd as [Hk Hnd].
  change (formattedFields format opts [prop] ((k, v) :: rest))
    with ((k, if String.eqb k prop || false
              then formattedValue format opts v else v)
            :: formattedFields format opts [prop] rest).
  simpl lookup_field.
  destruct (String.eqb_spec k prop) as [->|Hne].
  - rewrite formattedFields_absent by now rewrite <- list_elem_of_In.
    destruct v; simpl; rewrite ?String.eqb_refl; reflexivity.
  - rewrite (IH Hnd). simpl.
    destruct (lookup_field prop rest); simpl;
      destruct (String.eqb_spec k prop); try contradiction; reflexivity.
Qed.

Lemma formattedFields_keys format opts props (fields : list (string * value)) :
  map fst (formattedFields format opts props fields) = map fst fields.
Proof. unfold formattedFields. rewrite map_map. now apply map_ext. Qed.

Lemma formattedFields_nil format opts (fields : list (string * value)) :
  formattedFields format opts [] fields = fields.
Proof.
  unfold formattedFields. rewrite <- (map_id fields) at 2.
  apply map_ext. now intros [k v].
Qed.

Lemma formattedFields_cons format opts prop props (fields : list (string * value)) :
  ~ In prop props ->
  formattedFields format opts props (formattedFields format opts [prop] fields)
  = formattedFields format opts (prop :: props) fields.
Proof.
  intros Hnot. unfold formattedFields. rewrite map_map.
  apply map_ext. intros [k v]. simpl.
  destruct (String.eqb_spec k prop) as [->|Hne]; simpl; [|reflexivity].
  destruct (existsb (String.eqb prop) props) eqn:Hex; [|reflexivity].
  apply existsb_exists in Hex as (x & Hx & Heq).
  apply String.eqb_eq in Heq. subst x. contradiction.
Qed.

Lemma formatProperty_exact format formattedAction opts prop k
    (h : store) (current : list (string * value)) :
  h !! formattedAction = Some current ->
  NoDup (map fst current) ->
  formatProperty format formattedAction opts prop k h
  = (Ok tt, <[formattedAction := formattedFields format opts [prop] current]> h).
Proof.
  intros Hcur Hnd. unfold formatProperty, bind, read. rewrite Hcur.
  rewrite (formattedFields_one format opts prop current Hnd).
  destruct (lookup_field prop current); try reflexivity;
    unfold ret; now rewrite insert_id.
Qed.

Lemma formatProperty_loop_exact format formattedAction opts props :
  NoDup props ->
  forall i (h : store) (current : list (string * value)),
    h !! formattedAction = Some current ->
    NoDup (map fst current) ->
    forEach_from (formatProperty format formattedAction opts) props i h
    = (Ok tt, <[formattedAction := formattedFields format opts props current]> h).
Proof.
  induction 1 as [|prop props Hprop Hprops IH]; intros i h current Hcur Hnd; simpl.
  - rewrite formattedFields_nil. unfold ret. now rewrite insert_id.
  - unfold bind. rewrite (formatProperty_exact format _ opts prop i h current Hcur Hnd).
    rewrite (IH (S i) _ (formattedFields format opts [prop] current)).
    + rewrite insert_insert_eq. rewrite formattedFields_cons; [reflexivity|].
      now rewrite <- list_elem_of_In.
    + apply lookup_insert_eq.
    + now rewrite formattedFields_keys.
Qed.

Lemma sqlProperty_cases entry :
  sqlProperty entry = [] \/ sqlProperty entry = [fst entry].
Proof.
  destruct entry as [k v]. unfold sqlProperty, when.
  destruct v; auto.
  - destruct (_ <? _)%nat; auto. destruct (_ || _); auto.
  - destruct (existsb _ _); auto.
Qed.

Lemma identified_is_key (fields : list (string * value)) prop :
  In prop (flat_map sqlProperty fields) -> In prop (map fst fields).
Proof.
  intros H. apply in_flat_map in H as (entry & Hin & Hprop).
  destruct (sqlProperty_cases entry) as [Hc|Hc]; rewrite Hc in Hprop.
  - destruct Hprop.
  - destruct Hprop as [<-|[]]. now apply in_map.
Qed.

Lemma identifySQLProperties_NoDup (fields : list (string * value)) :
  NoDup (map fst fields) -> NoDup (identifySQLProperties (VObject fields)).
Proof.
  unfold identifySQLProperties. simpl.
  induction fields as [|entry rest IH]; simpl; intros Hnd; [apply NoDup_nil_2|].
  apply NoDup_cons in Hnd as [Hk Hnd].
  destruct (sqlProperty_cases entry) as [Hc|Hc]; rewrite Hc; simpl; [now apply IH|].
  apply NoDup_cons. split; [|now apply IH].
  rewrite list_elem_of_In. intros Hin. apply Hk.
  rewrite list_elem_of_In. now apply identified_is_key.
Qed.

Lemma set_field_same prop v (fields : list (string * value)) :
  lookup_field prop fields = v -> v <> VUndefined ->
  set_field prop v fields = fields.
Proof.
  induction fields as [|[k old] rest IH]; simpl; intros Hv Hdef.
  - congruence.
  - destruct (String.eqb_spec k prop) as [->|Hne]; [now subst|].
    f_equal. now apply IH.
Qed.

Section FormatResult.

Variable format : string -> list (string * value) -> formatted.

(** X10.  What [autoFormatSQLInAction] returns.  On a record, it returns
    a new record, an object the store did not have and so another one than
    the argument; the new record has the keys of the argument in their
    order; a property that [identifySQLProperties] names holds its
    formatted value (a string through [formatSQL], a sequence with each of
    its strings that looks like SQL through [formatSQL]), every other
    property its own value; and the argument, like every other object of
    the store, holds after the call what it held before. *)
Theorem autoFormatSQLInAction_result
    (h : store) (action : ref) (fields : list (string * value))
    (formatOptions : value) :
  h !! action = Some fields ->
  NoDup (map fst fields) ->
  exists (formattedAction : ref) (h' : store),
    autoFormatSQLInAction format action formatOptions h = (Ok formattedAction, h') /\
    h !! formattedAction = None /\
    formattedAction <> action /\
    h' !! formattedAction
    = Some (formattedFields format (or_empty_object formatOptions)
              (identifySQLProperties (VObject fields)) fields) /\
    h' !! action = Some fields /\
    (forall r, r <> formattedAction -> h' !! r = h !! r).
Proof.
  intros Haction Hnd.
  assert (Hnew : h !! fresh (dom h) = None).
  { apply not_elem_of_dom. apply is_fresh. }
  assert (Hother : fresh (dom h) <> action).
  { intros Heq. rewrite Heq in Hnew. congruence. }
  exists (fresh (dom h)),
    (<[fresh (dom h) :=
         formattedFields format (or_empty_object formatOptions)
           (identifySQLProperties (VObject fields)) fields]> h).
  split; [|split; [exact Hnew|split; [exact Hother|split; [|split]]]].
  - unfold autoFormatSQLInAction, bind, read, alloc. rewrite Haction.
    unfold forEach.
    rewrite (formatProperty_loop_exact format (fresh (dom h))
               (or_empty_object formatOptions)
               (identifySQLProperties (VObject fields))
               (identifySQLProperties_NoDup fields Hnd)
               0 _ fields (lookup_insert_eq _ _ _) Hnd).
    now rewrite insert_insert_eq.
  - apply lookup_insert_eq.
  - rewrite lookup_insert_ne; [exact Haction|exact Hother].
  - intros r Hr. rewrite lookup_insert_ne; [reflexivity|congruence].
Qed.

Lemma formatProperty_rejected formattedAction opts prop k
    (h : store) (current : list (string * value)) :
  (forall text config, exists message, format text config = FormatError message) ->
  h !! formattedAction = Some current ->
  formatProperty format formattedAction opts prop k h = (Ok tt, h).
Proof.
  intros Hfail Hcur. unfold formatProperty, bind, read. rewrite Hcur.
  assert (Hsame : forall v, formattedValue format opts v = v).
  { intros v. 
    assert (Hs : forall item, formatSQL format item opts = item).
    { intros [| | | |text| |]; try reflexivity. simpl.
      destruct (String.eqb text EmptyString); [reflexivity|].
      now destruct (Hfail text (spread defaultOptions (or_empty_object opts)))
        as [message ->]. }
    destruct v as [| | | |text|items|]; try reflexivity; [apply Hs|].
    simpl. f_equal. rewrite <- (map_id items) at 2. apply map_ext.
    intros [| | | |text| |]; try reflexivity.
    destruct (detectSQLSyntax (VString text)); [apply Hs|reflexivity]. }
  destruct (lookup_field prop current) as [| | | |text|items|] eqn:Hvalue;
    try reflexivity; unfold write.
  - change (formatSQL format (VString text) opts)
      with (formattedValue format opts (VString text)).
    rewrite Hsame, (set_field_same prop _ current Hvalue) by discriminate.
    now rewrite insert_id.
  - match goal with
    | |- context [set_field prop ?v current] =>
        change v with (formattedValue format opts (VArray items))
    end.
    rewrite Hsame, (set_field_same prop _ current Hvalue) by discriminate.
    now rewrite insert_id.
Qed.

(** X11.  A formatter that rejects every text.  [autoFormatSQLInAction]
    then returns a new record with exactly the entries of its argument:
    every failure is caught and the value kept. *)
Theorem autoFormatSQLInAction_formatter_rejects
    (h : store) (action : ref) (fields : list (string * value))
    (formatOptions : value) :
  (forall text config, exists message, format text config = FormatError message) ->
  h !! action = Some fields ->
  exists (formattedAction : ref) (h' : store),
    autoFormatSQLInAction format action formatOptions h = (Ok formattedAction, h') /\
    formattedAction <> action /\
    h' !! formattedAction = Some fields.
Proof.
  intros Hfail Haction.
  exists (fresh (dom h)), (<[fresh (dom h) := fields]> h).
  assert (Hloop : forall props i,
             forEach_from (formatProperty format (fresh (dom h))
                             (or_empty_object formatOptions)) props i
                          (<[fresh (dom h) := fields]> h)
             = (Ok tt, <[fresh (dom h) := fields]> h)).
  { induction props as [|prop props IH]; intros i; simpl; [reflexivity|].
    unfold bind.
    rewrite (formatProperty_rejected _ _ prop i _ fields Hfail
               (lookup_insert_eq _ _ _)).
    apply IH. }
  split; [|split].
  - unfold autoFormatSQLInAction, bind, read, alloc. rewrite Haction.
    unfold forEach. now rewrite Hloop.
  - intros Heq. pose proof (is_fresh (dom h)) as Hfresh.
    rewrite Heq in Hfresh. apply Hfresh. apply elem_of_dom. now exists fields.
  - apply lookup_insert_eq.
Qed.

End FormatResult.

(** A run of X10, on a record with formatting work in a sequence. *)
Lemma autoFormatSQLInAction_result_witness :
  exists (formattedAction : ref) (h' : store),
    autoFormatSQLInAction upper_format 1%positive VUndefined
                          {[ 1%positive := transform_record ]}
    = (Ok formattedAction, h') /\
    formattedAction <> 1%positive /\
    h' !! 1%positive = Some transform_record /\
    h' !! formattedAction
    = Some [("action", VString "Transform"); ("name", VString "t");
            ("dataframe", VString "d2");
            ("transformations",
             VArray [VString "SELECT A FROM D1"; VString "dedupe"; VNumber 3])].
Proof.
  destruct (autoFormatSQLInAction_result upper_format
              {[ 1%positive := transform_record ]} 1%positive transform_record
              VUndefined)
    as (formattedAction & h' & Hrun & _ & Hother & Hnew & Hold & _).
  - reflexivity.
  - apply (bool_decide_unpack _). vm_compute. exact I.
  - exists formattedAction, h'. split; [exact Hrun|].
    split; [exact Hother|]. split; [exact Hold|].
    rewrite Hnew. reflexivity.
Defined.

(** A run of X11. *)
Lemma autoFormatSQLInAction_formatter_rejects_witness :
  exists (formattedAction : ref) (h' : store),
    autoFormatSQLInAction failing_format 1%positive VUndefined one_record
    = (Ok formattedAction, h') /\
    formattedAction <> 1%positive /\
    h' !! formattedAction = Some execute_record.
Proof.
  apply (autoFormatSQLInAction_formatter_rejects failing_format one_record
           1%positive execute_record VUndefined).
  - intros text config. now exists "Parse error".
  - reflexivity.
Defined.

(** ** validateSQL and validateSQLInAction *)

Lemma match_all_from_char (c : ascii) :
  forall fuel prev text,
    String.length text < fuel ->
    length (match_all_from fuel (lit (String c EmptyString)) prev text)
    = occurrences c text.
Proof.
  induction fuel as [|fuel IH]; intros prev text Hlen; [lia|].
  destruct text as [|a rest].
  - reflexivity.
  - simpl in Hlen.
    change (match_all_from (S fuel) (lit (String c EmptyString)) prev (String a rest))
      with (match (if Ascii.eqb c a then Some (Some a, rest) else None) with
            | None => match_all_from fuel (lit (String c EmptyString)) (Some a) rest
            | Some (prev', s') =>
                let matched :=
                  substring 0 (String.length (String a rest) - String.length s')
                            (String a rest) in
                if (String.length s' <? String.length (String a rest))%nat
                then matched :: match_all_from fuel (lit (String c EmptyString)) prev' s'
                else matched
                       :: match_all_from fuel (lit (String c EmptyString)) (Some a) rest
            end).
    unfold occurrences. simpl chars. simpl List.filter.
    destruct (Ascii.eqb c a).
    + cbv zeta.
      assert (Hlt : (String.length rest <? String.length (String a rest))%nat = true)
        by (apply Nat.ltb_lt; simpl; lia).
      rewrite Hlt. simpl length. f_equal. apply IH. lia.
    + apply IH. lia.
Qed.

Lemma match_all_char (c : ascii) (text : string) :
  length (match_all (lit (String c EmptyString)) text) = occurrences c text.
Proof. apply match_all_from_char. lia. Qed.


Section ValidationFacts.

Variable format : string -> list (string * value) -> formatted.


(** X12.  Parentheses.  On a text that is not empty, [validateSQL] reports
    unmatched parentheses exactly when the text has not as many [(] as it
    has [)], whatever the formatter says of the text; and then the text is
    not valid. *)
Theorem validateSQL_parentheses (text : string) :
  text <> EmptyString ->
  (In "Unmatched parentheses in SQL statement"
      (SqlUtils.errors (validateSQL format (VString text)))
   <-> occurrences "(" text <> occurrences ")" text)
  /\ (occurrences "(" text <> occurrences ")" text ->
      SqlUtils.isValid (validateSQL format (VString text)) = false).
Proof.
  intros Htext. apply String.eqb_neq in Htext.
  unfold validateSQL. rewrite Htext. cbv zeta.
  cbn [SqlUtils.errors SqlUtils.isValid].
  rewrite !match_all_char.
  destruct (Nat.eqb_spec (occurrences "(" text) (occurrences ")" text)) as [Heq|Hne].
  - split; [|intros Hne; contradiction].
    split; [|intros Hne; contradiction].
    intros Hin. exfalso.
    rewrite !in_app_iff in Hin. unfold when in Hin. simpl negb in Hin. cbv iota in Hin.
    destruct Hin as [Hin|[Hin|[Hin|Hin]]].
    + destruct (format text []); [destruct Hin|].
      destruct Hin as [Hin|[]]. discriminate Hin.
    + destruct Hin.
    + destruct (negb _); [|destruct Hin]. destruct Hin as [Hin|[]]. discriminate Hin.
    + destruct (negb _); [|destruct Hin]. destruct Hin as [Hin|[]]. discriminate Hin.
  - split.
    + split; [intros _; exact Hne|]. intros _.
      rewrite !in_app_iff. right. left. now left.
    + intros _. rewrite !length_app. simpl. 
      destruct (length _ + _) eqn:Hlen; [lia|reflexivity].
Qed.


(** X14.  Where the errors of a record come from.  A message is among the
    errors [validateSQLInAction] returns exactly when it is a finding of
    [validateSQL] on the value of one of the SQL properties, prefixed with
    the name of the property, or a finding on a string that looks like SQL
    in a sequence held by one of them, prefixed with the name and the
    index. *)
Theorem validateSQLInAction_errors (action : value) (message : string) :
  In message (InAction.errors (validateSQLInAction format action))
  <-> exists prop finding text,
        In prop (identifySQLProperties action) /\
        In finding (SqlUtils.errors (validateSQL format (VString text))) /\
        ((own_property action prop = VString text /\
          message = prop +:+ ": " +:+ finding)
         \/ (exists items index,
               own_property action prop = VArray items /\
               items !! index = Some (VString text) /\
               detectSQLSyntax (VString text) = true /\
               message = prop +:+ "[" +:+ dec index +:+ "]: " +:+ finding)).
Proof.
  cbn [validateSQLInAction InAction.errors]. rewrite in_flat_map.
  split.
  - intros (prop & Hprop & Hin). unfold propertyFindings in Hin.
    destruct (own_property action prop) as [| | | |text|items|] eqn:Hown;
      try destruct Hin.
    + apply in_map_iff in Hin as (finding & <- & Hfinding).
      exists prop, finding, text. split; [exact Hprop|]. split; [exact Hfinding|].
      left. split; [exact Hown|reflexivity].
    + apply in_concat in Hin as (findings & Hfindings & Hin).
      apply list_elem_of_In, elem_of_lookup_imap in Hfindings
        as (index & item & -> & Hitem).
      destruct item as [| | | |text| |]; try destruct Hin.
      destruct (detectSQLSyntax (VString text)) eqn:Hsql; [|destruct Hin].
      apply in_map_iff in Hin as (finding & <- & Hfinding).
      exists prop, finding, text. split; [exact Hprop|]. split; [exact Hfinding|].
      right. exists items, index.
      split; [exact Hown|]. split; [exact Hitem|]. split; [exact Hsql|reflexivity].
  - intros (prop & finding & text & Hprop & Hfinding & Hcase).
    exists prop. split; [exact Hprop|]. unfold propertyFindings.
    destruct Hcase as [[Hown ->]|(items & index & Hown & Hitem & Hsql & ->)];
      rewrite Hown.
    + apply in_map_iff. exists finding. split; [reflexivity|exact Hfinding].
    + apply in_concat. eexists. split.
      * apply list_elem_of_In. apply (elem_of_lookup_imap_2 _ _ _ _ Hitem).
      * cbv beta iota. rewrite Hsql. apply in_map_iff.
        exists finding. split; [reflexivity|exact Hfinding].
Qed.

End ValidationFacts.

(** A run of X12. *)
Lemma validateSQL_parentheses_witness :
  (In "Unmatched parentheses in SQL statement"
      (SqlUtils.errors (validateSQL upper_format (VString "select count( from d1")))
   <-> occurrences "(" "select count( from d1" <> occurrences ")" "select count( from d1")
  /\ (occurrences "(" "select count( from d1" <> occurrences ")" "select count( from d1" ->
      SqlUtils.isValid (validateSQL upper_format (VString "select count( from d1")) = false).
Proof.
  apply (validateSQL_parentheses upper_format "select count( from d1").
  discriminate.
Defined.


End SqlFacts.

(* ===================================================================== *)
(** * Properties of the upload helpers *)
(* ===================================================================== *)

Module S3Facts.

Import S3Utils JsFacts.

(** ** Strings *)

Lemma search_char (p : ascii -> bool) (s : string) :
  forall prev, search (Char p) prev s = existsb p (chars s).
Proof.
  induction s as [|c s IH]; intros prev; simpl.
  - reflexivity.
  - unfold exec_at. simpl. destruct (p c); simpl; [reflexivity|apply IH].
Qed.

Lemma test_char (p : ascii -> bool) (s : string) :
  test (Char p) s = existsb p (chars s).
Proof. apply search_char. Qed.

Lemma hd_split_cons (sep c : ascii) (s : string) :
  hd EmptyString (split sep (String c s))
  = if Ascii.eqb c sep then EmptyString
    else String c (hd EmptyString (split sep s)).
Proof.
  simpl. destruct (Ascii.eqb c sep); [reflexivity|].
  destruct (split sep s); reflexivity.
Qed.











(** ** Names with the YAML extension *)

Lemma append_nil_l (s : string) : EmptyString +:+ s = s.
Proof. reflexivity. Qed.

Lemma append_cons (c : ascii) (s t : string) :
  String c s +:+ t = String c (s +:+ t).
Proof. reflexivity. Qed.

Lemma trimStart_head (s : string) :
  trimStart s = EmptyString
  \/ exists c rest, trimStart s = String c rest /\ is_space c = false.
Proof.
  induction s as [|c s IH]; simpl; [now left|].
  destruct (is_space c) eqn:Hc; [exact IH|]. right. now exists c, s.
Qed.

Lemma trimEnd_idempotent (s : string) : trimEnd (trimEnd s) = trimEnd s.
Proof.
  induction s as [|c s IH]; [reflexivity|]. cbn [trimEnd].
  destruct (trimEnd s) as [|d r] eqn:Hend.
  - destruct (is_space c) eqn:Hc; [reflexivity|]. simpl. now rewrite Hc.
  - cbn [trimEnd] in IH |- *. now rewrite IH.
Qed.

Lemma trimEnd_head (c : ascii) (s : string) :
  is_space c = false -> exists rest, trimEnd (String c s) = String c rest.
Proof.
  intros Hc. cbn [trimEnd]. destruct (trimEnd s); [rewrite Hc|]; now eexists.
Qed.

Lemma trim_idempotent (s : string) : trim (trim s) = trim s.
Proof.
  unfold trim.
  destruct (trimStart_head s) as [->|(c & rest & -> & Hc)]; [reflexivity|].
  destruct (trimEnd_head c rest Hc) as [r Hr].
  assert (Hstart : trimStart (trimEnd (String c rest)) = trimEnd (String c rest)).
  { rewrite Hr. simpl. now rewrite Hc. }
  rewrite Hstart. apply trimEnd_idempotent.
Qed.

Lemma trimEnd_append (t w : string) :
  w <> EmptyString -> trimEnd w = w -> trimEnd (t +:+ w) = t +:+ w.
Proof.
  intros Hw Hend. induction t as [|c t IH]; [exact Hend|].
  change (String c t +:+ w) with (String c (t +:+ w)).
  cbn [trimEnd]. rewrite IH. destruct (t +:+ w) eqn:Htw; [|reflexivity].
  destruct t; simpl in Htw; [contradiction|discriminate].
Qed.

Lemma trim_head (s : string) :
  trim s = EmptyString \/ exists c rest, trim s = String c rest /\ is_space c = false.
Proof.
  unfold trim.
  destruct (trimStart_head s) as [->|(c & rest & -> & Hc)]; [now left|].
  right. destruct (trimEnd_head c rest Hc) as [r Hr]. now exists c, r.
Qed.

(** A trimmed name stays trimmed when [.yaml] is put behind it. *)
Lemma trim_append_yaml (t : string) :
  trim t = t -> trim (t +:+ ".yaml") = t +:+ ".yaml".
Proof.
  intros Ht. unfold trim.
  assert (Hstart : trimStart (t +:+ ".yaml") = t +:+ ".yaml").
  { destruct (trim_head t) as [Hempty|(c & rest & Hform & Hc)];
      rewrite Ht in *; subst t; [reflexivity|].
    rewrite append_cons. simpl. now rewrite Hc. }
  rewrite Hstart. apply trimEnd_append; [discriminate|reflexivity].
Qed.

Lemma endsWith_append (t p : string) : endsWith (t +:+ p) p = true.
Proof.
  induction t as [|c t IH].
  - rewrite append_nil_l.
    assert (Hp : String.eqb p p = true) by apply String.eqb_refl.
    destruct p; cbn [endsWith]; now rewrite Hp.
  - rewrite append_cons. cbn [endsWith]. rewrite IH. apply orb_true_r.
Qed.

Lemma length_append (s t : string) :
  String.length (s +:+ t) = String.length s + String.length t.
Proof.
  induction s as [|c s IH]; [reflexivity|].
  rewrite append_cons. simpl. now rewrite IH.
Qed.

Lemma chars_append (s t : string) : chars (s +:+ t) = (chars s ++ chars t)%list.
Proof.
  unfold chars. induction s as [|c s IH]; [reflexivity|].
  rewrite append_cons. simpl. now rewrite IH.
Qed.


Lemma ensureYamlExtension_fixed (name : string) :
  trim name = name ->
  endsWith name ".yaml" || endsWith name ".yml" = true ->
  ensureYamlExtension name = name.
Proof. intros Htrim Hext. unfold ensureYamlExtension. now rewrite Htrim, Hext. Qed.

Lemma ensureYamlExtension_trimmed (filename : string) :
  trim (ensureYamlExtension filename) = ensureYamlExtension filename
  /\ endsWith (ensureYamlExtension filename) ".yaml"
     || endsWith (ensureYamlExtension filename) ".yml" = true.
Proof.
  unfold ensureYamlExtension.
  destruct (endsWith (trim filename) ".yaml" || endsWith (trim filename) ".yml")
    eqn:Hext.
  - split; [apply trim_idempotent|exact Hext].
  - split; [apply trim_append_yaml, trim_idempotent|].
    now rewrite endsWith_append.
Qed.

(** X15.  [ensureYamlExtension] settles at once: its result ends in
    [.yaml] or [.yml], and the function gives it back as it is. *)
Theorem ensureYamlExtension_idempotent (filename : string) :
  (endsWith (ensureYamlExtension filename) ".yaml"
   || endsWith (ensureYamlExtension filename) ".yml") = true
  /\ ensureYamlExtension (ensureYamlExtension filename)
     = ensureYamlExtension filename.
Proof.
  destruct (ensureYamlExtension_trimmed filename) as [Htrim Hext].
  split; [exact Hext|]. now apply ensureYamlExtension_fixed.
Qed.



(** ** Generated names *)

Lemma append_assoc (s t u : string) : (s +:+ t) +:+ u = s +:+ (t +:+ u).
Proof.
  induction s as [|c s IH]; [reflexivity|].
  rewrite !append_cons. now rewrite IH.
Qed.

Lemma chars_map_string f (s : string) : chars (map_string f s) = map f (chars s).
Proof. unfold chars. induction s as [|c s IH]; simpl; congruence. Qed.

Lemma length_slice_to (n : nat) (s : string) : String.length (slice_to n s) <= n.
Proof.
  unfold slice_to. revert s. induction n as [|n IH]; intros [|c s]; simpl; try lia.
  specialize (IH s). lia.
Qed.

Lemma length_replace_first_char c d (s : string) :
  String.length (replace_first_char c d s) = String.length s.
Proof.
  induction s as [|x s IH]; simpl; [reflexivity|].
  destruct (Ascii.eqb x c); simpl; congruence.
Qed.

Lemma stamp_char_colon (c : ascii) :
  iso_char c = true -> stamp_char (if Ascii.eqb c ":" then "-"%char else c) = true.
Proof. destruct c as [[] [] [] [] [] [] [] []]; vm_compute; congruence. Qed.

Lemma stamp_char_valid (c : ascii) :
  stamp_char c = true ->
  (existsb (Ascii.eqb c) (double_quote :: chars "<>:|?*")
   || (nat_of_ascii c <=? 31)%nat) = false.
Proof. destruct c as [[] [] [] [] [] [] [] []]; vm_compute; congruence. Qed.

Lemma stamp_replace_all (s : string) :
  Forall (fun c => iso_char c = true) (chars s) ->
  Forall (fun c => stamp_char c = true) (chars (replace_all_char ":" "-" s)).
Proof.
  unfold replace_all_char. rewrite chars_map_string. intros H.
  apply Forall_map. eapply Forall_impl; [exact H|].
  intros c Hc. now apply stamp_char_colon.
Qed.

Lemma stamp_replace_first (s : string) :
  Forall (fun c => stamp_char c = true) (chars s) ->
  Forall (fun c => stamp_char c = true) (chars (replace_first_char "T" "_" s)).
Proof.
  unfold chars. induction s as [|x s IH]; simpl; intros H; [exact H|].
  apply Forall_cons in H as [Hx Hs].
  destruct (Ascii.eqb x "T"); simpl; apply Forall_cons; split; auto.
Qed.

Lemma existsb_none {A} (q p : A -> bool) (l : list A) :
  Forall (fun c => q c = true) l ->
  (forall c, q c = true -> p c = false) ->
  existsb p l = false.
Proof.
  intros Hall Hp. induction Hall as [|c cs Hc Hcs IH]; [reflexivity|].
  simpl. now rewrite (Hp c Hc), IH.
Qed.

(** A name made of [workflow-], a stamp and [.yaml] is trimmed, accepted
    and has its extension. *)
Lemma stamped_name_valid (stamp : string) :
  Forall (fun c => stamp_char c = true) (chars stamp) ->
  String.length stamp <= 19 ->
  trim ("workflow-" +:+ stamp +:+ ".yaml") = "workflow-" +:+ stamp +:+ ".yaml"
  /\ isValid (validateS3Filename (VString ("workflow-" +:+ stamp +:+ ".yaml"))) = true
  /\ endsWith ("workflow-" +:+ stamp +:+ ".yaml") ".yaml" = true.
Proof.
  intros Hchars Hlen.
  assert (Hform : "workflow-" +:+ stamp +:+ ".yaml"
                  = String "w" ("orkflow-" +:+ stamp +:+ ".yaml")) by reflexivity.
  assert (Htrim : trim ("workflow-" +:+ stamp +:+ ".yaml")
                  = "workflow-" +:+ stamp +:+ ".yaml").
  { unfold trim.
    assert (Hstart : trimStart ("workflow-" +:+ stamp +:+ ".yaml")
                     = "workflow-" +:+ stamp +:+ ".yaml")
      by (rewrite Hform; reflexivity).
    rewrite Hstart, <- append_assoc.
    apply trimEnd_append; [discriminate|reflexivity]. }
  assert (Hends : endsWith ("workflow-" +:+ stamp +:+ ".yaml") ".yaml" = true)
    by (rewrite <- append_assoc; apply endsWith_append).
  split; [exact Htrim|]. split; [|exact Hends].
  unfold validateS3Filename. rewrite Htrim.
  assert (Hne : String.eqb ("workflow-" +:+ stamp +:+ ".yaml") EmptyString = false)
    by (rewrite Hform; reflexivity).
  rewrite Hne. cbv zeta.
  assert (Hsize : String.length ("workflow-" +:+ stamp +:+ ".yaml")
                  = 9 + (String.length stamp + 5))
    by (rewrite !length_append; reflexivity).
  rewrite Hsize.
  assert (Hz : (9 + (String.length stamp + 5) =? 0)%nat = false)
    by (apply Nat.eqb_neq; lia).
  assert (Hshort : (255 <? 9 + (String.length stamp + 5))%nat = false)
    by (apply Nat.ltb_ge; lia).
  rewrite Hz, Hshort.
  assert (Hc : test invalidChars ("workflow-" +:+ stamp +:+ ".yaml") = false).
  { unfold invalidChars. rewrite test_char, !chars_append, !existsb_app.
    assert (Hstamp : existsb
                       (fun c => existsb (Ascii.eqb c) (double_quote :: chars "<>:|?*")
                                 || (nat_of_ascii c <=? 31)%nat)
                       (chars stamp) = false).
    { apply (existsb_none stamp_char); [exact Hchars|].
      intros c Hc. now apply stamp_char_valid. }
    rewrite Hstamp. reflexivity. }
  rewrite Hc.
  assert (Hhd : toUpperCase (hd EmptyString
                               (split "." ("workflow-" +:+ stamp +:+ ".yaml")))
                = String "W" (toUpperCase
                                (hd EmptyString
                                    (split "." ("orkflow-" +:+ stamp +:+ ".yaml")))))
    by (rewrite Hform, hd_split_cons; reflexivity).
  rewrite Hhd. reflexivity.
Qed.

(** X17.  A generated default name is a good one.  When the first
    nineteen characters of the timestamp are digits, [-], [:] and [T], as
    [toISOString] writes them, [generateDefaultFilename()] returns a name
    that [validateS3Filename] accepts and [ensureYamlExtension] leaves as
    it is. *)
Theorem generateDefaultFilename_valid (now : string) :
  Forall (fun c => iso_char c = true) (chars (slice_to 19 now)) ->
  exists name,
    generateDefaultFilename now VUndefined = Ok name /\
    isValid (validateS3Filename (VString name)) = true /\
    ensureYamlExtension name = name.
Proof.
  intros Hiso.
  exists ("workflow-"
          +:+ replace_first_char "T" "_"
                (replace_all_char ":" "-" (slice_to 19 now))
          +:+ ".yaml").
  split; [reflexivity|].
  destruct (stamped_name_valid
              (replace_first_char "T" "_"
                 (replace_all_char ":" "-" (slice_to 19 now))))
    as (Htrim & Hvalid & Hends).
  - now apply stamp_replace_first, stamp_replace_all.
  - rewrite length_replace_first_char.
    unfold replace_all_char. rewrite JsFacts.length_map_string.
    apply length_slice_to.
  - split; [exact Hvalid|].
    apply ensureYamlExtension_fixed; [exact Htrim|]. now rewrite Hends.
Qed.

(** A run of X17. *)
Lemma generateDefaultFilename_valid_witness :
  exists name,
    generateDefaultFilename "2024-05-17T09:30:15.123Z" VUndefined = Ok name /\
    isValid (validateS3Filename (VString name)) = true /\
    ensureYamlExtension name = name.
Proof.
  apply (generateDefaultFilename_valid "2024-05-17T09:30:15.123Z").
  vm_compute. repeat constructor.
Defined.

(** ** What trimming takes away *)




End S3Facts.

(* ===================================================================== *)
(** * Properties of the action-definition table *)
(* ===================================================================== *)

Module DefinitionFacts.

Import ActionDefinitions.

(** X6.  The getters of the table.  A name is either one of the eight type
    names, and then its mandatory properties begin with [action], [name]
    and [dataframe], go on with at least one more, and share no name with
    its optional properties; or it is unknown, and then the getters answer
    with no mandatory and no optional property, the icon [help-circle] and
    the colour [#999999]. *)
Theorem action_definition_getters (actionName : value) :
  (exists s prop rest,
      actionName = VString s /\ In s ACTION_NAMES /\
      getMandatoryProps actionName
      = "action" :: "name" :: "dataframe" :: prop :: rest /\
      (forall p, In p (getMandatoryProps actionName) ->
                 ~ In p (getOptionalProps actionName)))
  \/ ((forall s, actionName = VString s -> ~ In s ACTION_NAMES) /\
      getMandatoryProps actionName = [] /\
      getOptionalProps actionName = [] /\
      getActionIcon actionName = "help-circle" /\
      getActionColor actionName = "#999999").
Proof.
  unfold getMandatoryProps, getOptionalProps, getActionIcon, getActionColor.
  destruct (getActionDefinition actionName) as [definition|] eqn:Hdef.
  - left. unfold getActionDefinition in Hdef.
    apply find_some in Hdef as [Hin Heq].
    destruct actionName as [| | | |s| |]; try discriminate. simpl in Heq.
    apply String.eqb_eq in Heq. subst s.
    simpl in Hin.
    repeat (destruct Hin as [<-|Hin];
            [eexists; eexists; eexists;
             split; [reflexivity|];
             split; [simpl; tauto|];
             split; [reflexivity|];
             intros p Hp Hp'; simpl in Hp, Hp';
             repeat (destruct Hp as [<-|Hp]; [intuition discriminate|]);
             destruct Hp|]).
    destruct Hin.
  - right. split; [|repeat split; reflexivity].
    intros s -> Hin. unfold getActionDefinition in Hdef.
    assert (Hall : existsb (fun def => strict_equals (VString (name def))
                                                     (VString s))
                           actionDefinitions = false).
    { destruct (existsb _ actionDefinitions) eqn:Hex; [|reflexivity].
      apply existsb_exists in Hex as (def & Hdef' & Heq).
      now rewrite (find_none _ _ Hdef def Hdef') in Heq. }
    simpl in Hin.
    repeat (destruct Hin as [<-|Hin]; [vm_compute in Hall; discriminate Hall|]).
    destruct Hin.
Qed.

End DefinitionFacts.

(* ===================================================================== *)
(** * Properties of the upload dialog *)
(* ===================================================================== *)

Module HomePageFacts.

Import S3Utils HomePage.

(** X18.  The proposed name goes through.  When the first nineteen
    characters of the timestamp are digits, [-], [:] and [T], the name
    [handleS3Upload] proposes is one [validateS3Filename] accepts, and
    [handleS3UploadConfirm] uploads under that very name. *)
Theorem defaultFileName_uploaded (now : string) :
  Forall (fun c => iso_char c = true) (chars (slice_to 19 now)) ->
  isValid (validateS3Filename (VString (defaultFileName now))) = true
  /\ uploadFileName (defaultFileName now) = Some (defaultFileName now).
Proof.
  intros Hiso.
  destruct (S3Facts.stamped_name_valid (replace_all_char ":" "-" (slice_to 19 now)))
    as (Htrim & Hvalid & Hends).
  - now apply S3Facts.stamp_replace_all.
  - unfold replace_all_char. rewrite JsFacts.length_map_string.
    apply S3Facts.length_slice_to.
  - split; [exact Hvalid|].
    unfold uploadFileName, defaultFileName. rewrite Htrim, Hends.
    reflexivity.
Qed.

(** A run of X18. *)
Lemma defaultFileName_uploaded_witness :
  isValid (validateS3Filename
             (VString (defaultFileName "2024-05-17T09:30:15.123Z"))) = true
  /\ uploadFileName (defaultFileName "2024-05-17T09:30:15.123Z")
     = Some (defaultFileName "2024-05-17T09:30:15.123Z").
Proof.
  apply (defaultFileName_uploaded "2024-05-17T09:30:15.123Z").
  vm_compute. repeat constructor.
Defined.



Section EditorFacts.

Variable yaml_load : string -> result value.

(** X29.  The editor and the action list.  [handleYamlChange] stores the
    text and the errors of [validateYaml]; the action list it leaves as it
    was, or replaces by the sequence of the document loaded, also when the
    records in it have errors; so a list that is a sequence stays one. *)
Theorem handleYamlChange_actions (content : string) (st : state) :
  yamlContent (handleYamlChange yaml_load content st) = content
  /\ validationErrors (handleYamlChange yaml_load content st)
     = YamlUtils.errors (YamlUtils.validateYaml yaml_load content)
  /\ (actions (handleYamlChange yaml_load content st) = actions st
      \/ exists loaded items,
           yaml_load content = Ok loaded
           /\ get_prop loaded "actions" = Ok (VArray items)
           /\ actions (handleYamlChange yaml_load content st) = VArray items)
  /\ (isArray (actions st) = true ->
      isArray (actions (handleYamlChange yaml_load content st)) = true)
  /\ (forall loaded items errs,
        yaml_load content = Ok loaded ->
        get_prop loaded "actions" = Ok (VArray items) ->
        forEach YamlUtils.validateAction items [] = (Ok tt, errs) ->
        actions (handleYamlChange yaml_load content st) = VArray items
        /\ validationErrors (handleYamlChange yaml_load content st) = errs).
Proof.
  unfold handleYamlChange. rewrite (YamlFacts.validateYaml_cases yaml_load content).
  destruct (yaml_load content) as [loaded|e].
  2:{ cbn. split; [reflexivity|]. split; [reflexivity|]. split; [now left|].
      split; [auto|]. intros loaded items errs Hload. discriminate Hload. }
  destruct (truthy loaded) eqn:Htruthy.
  2:{ cbn. split; [reflexivity|]. split; [reflexivity|]. split; [now left|].
      split; [auto|]. intros l items errs [= <-] Hget.
      destruct loaded; discriminate. }
  destruct (get_prop loaded "actions") as [loadedActions|e] eqn:Hget.
  2:{ cbn. split; [reflexivity|]. split; [reflexivity|]. split; [now left|].
      split; [auto|]. intros l items errs [= <-] Hget'. congruence. }
  destruct loadedActions as [| | | | |items|];
    try (cbn; split; [reflexivity|]; split; [reflexivity|]; split; [now left|];
         split; [auto|]; intros l items' errs [= <-] Hget'; congruence).
  destruct (forEach YamlUtils.validateAction items []) as [[[]|e] errs] eqn:Hloop.
  - cbn [YamlUtils.errors YamlUtils.data]. rewrite Htruthy, Hget.
    cbn [truthy yamlContent actions validationErrors].
    split; [reflexivity|]. split; [reflexivity|].
    split; [right; now exists loaded, items|]. split; [reflexivity|].
    intros l items' errs' [= <-] Hget' Hloop'.
    rewrite Hget in Hget'. injection Hget' as <-.
    rewrite Hloop in Hloop'. injection Hloop' as <-. split; reflexivity.
  - cbn. split; [reflexivity|]. split; [reflexivity|]. split; [now left|].
    split; [auto|].
    intros l items' errs' [= <-] Hget' Hloop'.
    rewrite Hget in Hget'. injection Hget' as <-.
    rewrite Hloop in Hloop'. discriminate.
Qed.

End EditorFacts.

(** A run of X29: a list that is a sequence before the change. *)
Lemma handleYamlChange_actions_witness :
  isArray (actions (handleYamlChange (fun _ => Ok VNull) "text"
                      {| yamlContent := EmptyString; actions := VArray [];
                         validationErrors := [] |})) = true.
Proof.
  apply (handleYamlChange_actions (fun _ => Ok VNull) "text"
           {| yamlContent := EmptyString; actions := VArray [];
              validationErrors := [] |}).
  reflexivity.
Defined.

End HomePageFacts.

(* ===================================================================== *)
(** * Properties of the action builder *)
(* ===================================================================== *)

Module ArrayFacts.

Import Arrays.

Lemma splice_out_at (index : nat) (array : list value) (item : value) :
  array !! index = Some item ->
  splice_out index array
  = ((take index array ++ drop (S index) array)%list, [item]).
Proof.
  intros Hitem. unfold splice_out. f_equal.
  rewrite <- (take_drop_middle array index item Hitem) at 1.
  rewrite drop_app_length'; [reflexivity|].
  rewrite length_take. apply lookup_lt_Some in Hitem. lia.
Qed.

Lemma splice_in_lookup (index : nat) (item : value) (array : list value) :
  index <= length array ->
  splice_in index item array !! index = Some item.
Proof.
  intros Hle. unfold splice_in.
  rewrite lookup_app_r; rewrite length_take; [|lia].
  replace (index - index `min` length array) with 0 by lia. reflexivity.
Qed.

(** Taking out what was put in gives back the array. *)
Lemma splice_out_splice_in (index : nat) (item : value) (array : list value) :
  index <= length array ->
  splice_out index (splice_in index item array) = (array, [item]).
Proof.
  intros Hle. rewrite (splice_out_at _ _ item (splice_in_lookup _ _ _ Hle)).
  f_equal. unfold splice_in.
  assert (Hlen : length (take index array) = index) by (rewrite length_take; lia).
  rewrite take_app_length' by (symmetry; exact Hlen).
  rewrite (cons_middle item), app_assoc.
  rewrite drop_app_length' by (rewrite length_app, Hlen; simpl; lia).
  apply take_drop.
Qed.

(** Putting back what was taken out gives back the array. *)
Lemma splice_in_splice_out (index : nat) (item : value) (array : list value) :
  array !! index = Some item ->
  splice_in index item (take index array ++ drop (S index) array)%list = array.
Proof.
  intros Hitem. unfold splice_in.
  assert (Hlen : length (take index array) = index).
  { rewrite length_take. apply lookup_lt_Some in Hitem. lia. }
  rewrite take_app_length', drop_app_length' by (symmetry; exact Hlen).
  now apply take_drop_middle.
Qed.

End ArrayFacts.

Module ActionBuilderFacts.

Import Arrays ActionBuilder.

(** X20.  Dragging reorders and nothing else.  When an action is dragged
    from one place of the list to another, the new list is a permutation
    of the old one, the dragged action is at the destination, and the
    other actions are in the order they were in. *)
Theorem handleDragEnd_moves (st : state) (sourceIndex destinationIndex : nat) :
  sourceIndex < length (actions st) ->
  destinationIndex < length (actions st) ->
  actions (handleDragEnd (Some destinationIndex) sourceIndex st)
    ≡ₚ actions st
  /\ actions (handleDragEnd (Some destinationIndex) sourceIndex st)
       !! destinationIndex
     = actions st !! sourceIndex
  /\ fst (splice_out destinationIndex
            (actions (handleDragEnd (Some destinationIndex) sourceIndex st)))
     = fst (splice_out sourceIndex (actions st)).
Proof.
  intros Hsource Hdestination. unfold handleDragEnd.
  destruct (Nat.eqb_spec sourceIndex destinationIndex) as [->|Hne].
  - split; [reflexivity|]. split; reflexivity.
  - destruct (lookup_lt_is_Some_2 _ _ Hsource) as [item Hitem].
    rewrite (ArrayFacts.splice_out_at _ _ item Hitem). cbn [hd actions fst].
    assert (Hlen : destinationIndex
                   <= length (take sourceIndex (actions st)
                              ++ drop (S sourceIndex) (actions st))%list).
    { rewrite length_app, length_take, length_drop. lia. }
    split; [|split].
    + unfold splice_in. rewrite <- Permutation_middle.
      rewrite take_drop.
      rewrite <- (take_drop_middle (actions st) sourceIndex item Hitem) at 3.
      now rewrite <- Permutation_middle.
    + rewrite Hitem. now apply ArrayFacts.splice_in_lookup.
    + now rewrite ArrayFacts.splice_out_splice_in.
Qed.

(** X21.  Dragging back.  An action dragged to another place and then
    from there to the place it came from leaves the component in the
    state it was in. *)
Theorem handleDragEnd_back (st : state) (sourceIndex destinationIndex : nat) :
  sourceIndex < length (actions st) ->
  destinationIndex < length (actions st) ->
  handleDragEnd (Some sourceIndex) destinationIndex
    (handleDragEnd (Some destinationIndex) sourceIndex st)
  = st.
Proof.
  intros Hsource Hdestination. unfold handleDragEnd.
  destruct (Nat.eqb_spec sourceIndex destinationIndex) as [->|Hne].
  - now rewrite Nat.eqb_refl.
  - destruct (Nat.eqb_spec destinationIndex sourceIndex) as [Heq|_]; [congruence|].
    destruct (lookup_lt_is_Some_2 _ _ Hsource) as [item Hitem].
    rewrite (ArrayFacts.splice_out_at _ _ item Hitem). cbn [hd actions].
    rewrite ArrayFacts.splice_out_splice_in.
    + cbn [hd actions currentAction editIndex isDialogOpen].
      rewrite (ArrayFacts.splice_in_splice_out _ _ _ Hitem).
      now destruct st.
    + rewrite length_app, length_take, length_drop. lia.
Qed.

(** X22.  Saving an edit.  After an action of the list is opened for
    editing and saved, the list has the saved action at that index and
    its other entries where they were, and the dialog is closed. *)
Theorem handleSaveAction_edit (st : state) (old action : value) (index : nat) :
  index < length (actions st) ->
  let st' := handleSaveAction action (handleEditAction old index st) in
  length (actions st') = length (actions st)
  /\ actions st' !! index = Some action
  /\ (forall other, other <> index -> actions st' !! other = actions st !! other)
  /\ isDialogOpen st' = false.
Proof.
  intros Hindex. cbn [handleSaveAction handleEditAction actions editIndex isDialogOpen].
  unfold assign. apply Nat.ltb_lt in Hindex as Hlt. rewrite Hlt.
  split; [apply length_insert|].
  split; [now apply list_lookup_insert_eq|].
  split; [|reflexivity].
  intros other Hother. now apply list_lookup_insert_ne.
Qed.

Lemma handleDragEnd_moves_witness :
  actions (handleDragEnd (Some 1) 0 two_actions) ≡ₚ actions two_actions
  /\ actions (handleDragEnd (Some 1) 0 two_actions) !! 1
     = actions two_actions !! 0
  /\ fst (splice_out 1 (actions (handleDragEnd (Some 1) 0 two_actions)))
     = fst (splice_out 0 (actions two_actions)).
Proof. apply (handleDragEnd_moves two_actions 0 1); simpl; lia. Defined.

Lemma handleDragEnd_back_witness :
  handleDragEnd (Some 0) 1 (handleDragEnd (Some 1) 0 two_actions) = two_actions.
Proof. apply (handleDragEnd_back two_actions 0 1); simpl; lia. Defined.

Lemma handleSaveAction_edit_witness :
  let st' := handleSaveAction (VString "new")
               (handleEditAction (VString "second") 1 two_actions) in
  length (actions st') = length (actions two_actions)
  /\ actions st' !! 1 = Some (VString "new")
  /\ (forall other, other <> 1 -> actions st' !! other = actions two_actions !! other)
  /\ isDialogOpen st' = false.
Proof.
  apply (handleSaveAction_edit two_actions (VString "second") (VString "new") 1).
  simpl. lia.
Defined.

End ActionBuilderFacts.

(* ===================================================================== *)
(** * Properties of the flow visualizer *)
(* ===================================================================== *)

Module FlowFacts.

Import YamlUtils Arrays FlowVisualizer.

(** ** The handlers *)

(** X23.  Adding and deleting.  With [setActions] given, an action saved
    through the dialog opened for a position of the list is at that
    position in a list one longer, and deleting at the position gives the
    list back as it was. *)
Theorem insert_then_delete (st : state) (action : value) (position : nat) :
  editable st = true ->
  position <= length (actions st) ->
  let st' := handleSaveNewAction action (handleAddAction (Some position) st) in
  actions st' !! position = Some action
  /\ length (actions st') = S (length (actions st))
  /\ isAddDialogOpen st' = false
  /\ actions (handleDeleteAction position st') = actions st.
Proof.
  intros Heditable Hposition.
  unfold handleDeleteAction, handleSaveNewAction, handleAddAction.
  rewrite Heditable.
  cbn [negb actions editable insertPosition isAddDialogOpen].
  rewrite ?Heditable. cbn [negb actions fst].
  split; [now apply ArrayFacts.splice_in_lookup|].
  split.
  { unfold splice_in. rewrite length_app. simpl.
    rewrite length_take, length_drop. lia. }
  split; [reflexivity|].
  now rewrite ArrayFacts.splice_out_splice_in.
Qed.

Lemma insert_then_delete_witness :
  let st' := handleSaveNewAction (VString "new")
               (handleAddAction (Some 1) scenario_flow) in
  actions st' !! 1 = Some (VString "new")
  /\ length (actions st') = S (length (actions scenario_flow))
  /\ isAddDialogOpen st' = false
  /\ actions (handleDeleteAction 1 st') = actions scenario_flow.
Proof.
  apply (insert_then_delete scenario_flow (VString "new") 1).
  - reflexivity.
  - simpl. lia.
Defined.

(** ** The layouts *)

Lemma NoDup_imap {A B} (f : nat -> A -> B) (l : list A) :
  (forall i j a b, l !! i = Some a -> l !! j = Some b -> f i a = f j b -> i = j) ->
  NoDup (imap f l).
Proof.
  intros Hinj. apply NoDup_alt. intros i j b Hi Hj.
  apply list_lookup_imap_Some in Hi as (a & Ha & ->).
  apply list_lookup_imap_Some in Hj as (a' & Ha' & Heq).
  now apply (Hinj i j a a').
Qed.

Lemma ceil_sqrt_spec (n : nat) : n <= ceil_sqrt n * ceil_sqrt n.
Proof.
  unfold ceil_sqrt. pose proof (Nat.sqrt_spec n (Nat.le_0_l n)) as [Hlow Hhigh].
  destruct (Nat.eqb_spec (Nat.sqrt n * Nat.sqrt n) n); lia.
Qed.

Lemma ceil_sqrt_least (n k : nat) : n <= k * k -> ceil_sqrt n <= k.
Proof.
  intros Hk. unfold ceil_sqrt.
  pose proof (Nat.sqrt_spec n (Nat.le_0_l n)) as [Hlow Hhigh].
  destruct (Nat.eqb_spec (Nat.sqrt n * Nat.sqrt n) n) as [Heq|Hne]; nia.
Qed.

(** X24.  The grid.  [calculateGridLayout] gives every action a place of
    its own; the number of columns is the least whose square holds all the
    actions, and no place lies outside that square. *)
Theorem grid_layout (actions : list value) :
  length (calculateGridLayout actions) = length actions
  /\ NoDup (calculateGridLayout actions)
  /\ (forall k, length actions <= k * k -> ceil_sqrt (length actions) <= k)
  /\ Forall (fun p =>
               exists col row : nat,
                 col < ceil_sqrt (length actions)
                 /\ row < ceil_sqrt (length actions)
                 /\ x p = (Z.of_nat col * 250 + 100)%Z
                 /\ y p = (Z.of_nat row * 200 + 100)%Z)
            (calculateGridLayout actions).
Proof.
  unfold calculateGridLayout.
  pose proof (ceil_sqrt_spec (length actions)) as Hspec.
  set (cols := ceil_sqrt (length actions)) in *.
  split; [apply length_imap|]. split; [|split].
  - apply NoDup_imap. intros i j a b Hi Hj Heq.
    apply lookup_lt_Some in Hi.
    assert (Hcols : (0 < Z.of_nat cols)%Z) by nia.
    injection Heq as Hx Hy.
    assert (Hcol : (Z.of_nat i mod Z.of_nat cols = Z.of_nat j mod Z.of_nat cols)%Z) by lia.
    assert (Hrow : (Z.of_nat i / Z.of_nat cols = Z.of_nat j / Z.of_nat cols)%Z) by lia.
    pose proof (Z.div_mod (Z.of_nat i) (Z.of_nat cols)) as Hdi.
    pose proof (Z.div_mod (Z.of_nat j) (Z.of_nat cols)) as Hdj.
    rewrite Hcol, Hrow in Hdi. lia.
  - intros k Hk. now apply ceil_sqrt_least.
  - apply Forall_forall. intros p Hp.
    apply elem_of_lookup_imap in Hp as (i & a & -> & Hi).
    apply lookup_lt_Some in Hi.
    assert (Hcols : 0 < cols) by nia.
    exists (i mod cols), (i / cols). cbn [x y].
    split; [now apply Nat.mod_upper_bound; lia|].
    split; [apply Nat.Div0.div_lt_upper_bound; nia|].
    rewrite Nat2Z.inj_mod, Nat2Z.inj_div. split; reflexivity.
Qed.

(** X25.  The rows of three and the time line.
    [calculateHierarchicalLayout] returns exactly when [findRelationships]
    does: it throws what [findRelationships] throws, and when
    [findRelationships] returns, it returns one place for each action, no
    two the same, in rows of three; [calculateTimelineLayout] puts the
    actions on one line, 200 apart. *)
Theorem hierarchical_and_timeline_layout (actions : list value) :
  (forall relationships,
      findRelationships actions = Ok relationships ->
      exists positions,
        calculateHierarchicalLayout actions = Ok positions
        /\ length positions = length actions
        /\ NoDup positions
        /\ forall index,
             index < length actions ->
             positions !! index
             = Some {| x := (Z.of_nat (index mod 3) * 300 + 150)%Z;
                       y := (Z.of_nat (index / 3) * 150 + 100)%Z |})
  /\ (forall e, findRelationships actions = Throw e ->
                calculateHierarchicalLayout actions = Throw e)
  /\ length (calculateTimelineLayout actions) = length actions
  /\ forall index,
       index < length actions ->
       calculateTimelineLayout actions !! index
       = Some {| x := (Z.of_nat index * 200 + 150)%Z; y := 200%Z |}.
Proof.
  unfold calculateHierarchicalLayout, calculateTimelineLayout.
  split; [|split; [|split]].
  - intros relationships ->. cbn [rbind]. eexists.
    split; [reflexivity|]. split; [apply length_imap|]. split.
    + apply NoDup_imap. intros i j a b _ _ Heq. injection Heq as Hx Hy.
      pose proof (Z.div_mod (Z.of_nat i) 3) as Hdi.
      pose proof (Z.div_mod (Z.of_nat j) 3) as Hdj. lia.
    + intros index Hindex.
      destruct (lookup_lt_is_Some_2 _ _ Hindex) as [a Ha].
      rewrite list_lookup_imap, Ha. cbn [fmap option_fmap option_map].
      now rewrite Nat2Z.inj_mod, Nat2Z.inj_div.
  - intros e ->. reflexivity.
  - apply length_imap.
  - intros index Hindex.
    destruct (lookup_lt_is_Some_2 _ _ Hindex) as [a Ha].
    now rewrite list_lookup_imap, Ha.
Qed.

(** A run of X25: the two records of the scenario, side by side. *)
Lemma hierarchical_and_timeline_layout_witness :
  exists positions,
    calculateHierarchicalLayout scenario = Ok positions
    /\ length positions = length scenario
    /\ NoDup positions
    /\ forall index,
         index < length scenario ->
         positions !! index
         = Some {| x := (Z.of_nat (index mod 3) * 300 + 150)%Z;
                   y := (Z.of_nat (index / 3) * 150 + 100)%Z |}.
Proof.
  apply (proj1 (hierarchical_and_timeline_layout scenario) [edge 0 1]).
  vm_compute. reflexivity.
Defined.

(** ** The graph *)

Lemma action_id_head (index : nat) : exists rest, action_id index = String "a" rest.
Proof. now eexists. Qed.

Lemma action_id_zero : action_id 0 = "action-0".
Proof. reflexivity. Qed.

Lemma action_id_eqb (i j : nat) : String.eqb (action_id i) (action_id j) = (i =? j)%nat.
Proof.
  destruct (Nat.eqb_spec i j) as [->|Hne]; [apply String.eqb_refl|].
  apply String.eqb_neq. intros H. now apply YamlFacts.action_id_inj in H.
Qed.

Lemma edge_id_inj (prefix : string) (i j : nat) :
  prefix +:+ dec i = prefix +:+ dec j -> i = j.
Proof. intros H. apply JsFacts.append_inj_l in H. now apply JsFacts.dec_inj. Qed.

Lemma sequence_relationshipEdges (visualStyle : visualStyle) (pairs : list (nat * nat)) :
  forall k,
    sequence (imap (fun index => relationshipEdge visualStyle (k + index))
                   (edges_of pairs))
    = Ok (imap (fun index => pairEdge visualStyle (k + index)) pairs).
Proof.
  induction pairs as [|p pairs IH]; intros k; [reflexivity|].
  cbn [edges_of map]. rewrite !imap_cons. cbn [sequence].
  assert (Hnext : forall (B C : Type) (f : nat -> B -> C) (l : list B),
             imap ((fun index => f (k + index)) ∘ S) l
             = imap (fun index => f (S k + index)) l).
  { intros B C f l. apply imap_ext. intros i b _. simpl. f_equal. lia. }
  rewrite !Hnext. fold (edges_of pairs). rewrite (IH (S k)).
  reflexivity.
Qed.

Section GraphFacts.

Variable number : Type.
Variable of_Z : Z -> number.
Variable max_of : list number -> number.
Variable plus : number -> number -> number.
Variables calculateCircularLayout calculateForceLayout calculateSwimlaneLayout
  : list value -> result (list (coordinates number)).

(** What the effect has built when it ends normally on a list that is not
    empty. *)
Lemma flow_graph (actions : list value) (editable : bool)
    (layoutType : layoutType) (visualStyle : visualStyle)
    (nodes : list (Node.t number)) (edges : list Edge.t) :
  flow number of_Z max_of plus calculateCircularLayout calculateForceLayout
       calculateSwimlaneLayout actions editable layoutType visualStyle
  = Ok (Some (nodes, edges)) ->
  0 < length actions
  /\ exists pairs positions actionNodes,
       NoDup pairs
       /\ (forall p, In p pairs <-> related actions p)
       /\ actionNodes
          = imap (actionNode number of_Z editable visualStyle
                    [action_id 0] [action_id (length actions - 1)] positions)
                 actions
       /\ nodes
          = ((if framed layoutType then [startNode number of_Z] else [])
             ++ actionNodes
             ++ (if framed layoutType
                 then [endNode number of_Z max_of plus actionNodes] else []))%list
       /\ edges
          = (imap (pairEdge visualStyle) pairs
             ++ (if framed layoutType
                 then [startEdge visualStyle 0 (action_id 0)] else [])
             ++ (if framed layoutType
                 then [endEdge visualStyle 0 (action_id (length actions - 1))]
                 else []))%list.
Proof.
  unfold flow. destruct (Nat.eqb_spec (length actions) 0) as [Hzero|Hsome];
    [discriminate|].
  destruct (findRelationships actions) as [relationships|e] eqn:Hrel;
    [|discriminate].
  apply YamlFacts.findRelationships_pairs in Hrel as (pairs & -> & Hnd & Hpairs).
  cbn [rbind].
  assert (Hends : findStartAndEndActions actions (edges_of pairs)
                  = ([action_id 0], [action_id (length actions - 1)])).
  { unfold findStartAndEndActions.
    destruct (length actions) as [|[|n]] eqn:Hlen; [contradiction| |];
      reflexivity. }
  rewrite Hends.
  destruct (getNodePositions _ _ _ _ _ actions layoutType) as [positions|e];
    [|discriminate].
  cbn [rbind].
  pose proof (sequence_relationshipEdges visualStyle pairs 0) as Hseq.
  cbn [Nat.add] in Hseq.
  rewrite (imap_ext _ (relationshipEdge visualStyle) (edges_of pairs)) in Hseq
    by reflexivity.
  rewrite Hseq. cbn [rbind].
  rewrite (imap_ext _ (pairEdge visualStyle) pairs) by reflexivity.
  intros Hrun. split; [lia|].
  exists pairs, positions. eexists.
  split; [exact Hnd|]. split; [exact Hpairs|]. split; [reflexivity|].
  destruct (framed layoutType); cbn in Hrun; injection Hrun as <- <-;
    split; reflexivity.
Qed.

(** X26.  Identifiers.  In the graph the effect builds, no two nodes have
    the same identifier and no two edges have. *)
Theorem flow_identifiers_unique (actions : list value) (editable : bool)
    (layoutType : layoutType) (visualStyle : visualStyle)
    (nodes : list (Node.t number)) (edges : list Edge.t) :
  flow number of_Z max_of plus calculateCircularLayout calculateForceLayout
       calculateSwimlaneLayout actions editable layoutType visualStyle
  = Ok (Some (nodes, edges)) ->
  NoDup (map Node.id nodes) /\ NoDup (map Edge.id edges).
Proof.
  intros Hrun.
  apply flow_graph in Hrun
    as (Hsome & pairs & positions & actionNodes & Hnd & Hpairs & Hnodes & -> & ->).
  assert (Hids : NoDup (map Node.id actionNodes)).
  { subst actionNodes. rewrite fmap_imap.
    apply NoDup_imap. intros i j a b _ _ Heq.
    now apply YamlFacts.action_id_inj in Heq. }
  assert (Hform : forall s, In s (map Node.id actionNodes) ->
                            exists rest, s = String "a" rest).
  { subst actionNodes. rewrite fmap_imap. intros s Hs.
    apply list_elem_of_In, elem_of_lookup_imap in Hs as (i & a & -> & _).
    apply action_id_head. }
  assert (Hedges : NoDup (map Edge.id (imap (pairEdge visualStyle) pairs))).
  { rewrite fmap_imap. apply NoDup_imap. intros i j a b _ _ Heq.
    now apply (edge_id_inj "edge-") in Heq. }
  assert (Heform : forall s, In s (map Edge.id (imap (pairEdge visualStyle) pairs)) ->
                             exists rest, s = String "e" (String "d" rest)).
  { rewrite fmap_imap. intros s Hs.
    apply list_elem_of_In, elem_of_lookup_imap in Hs as (i & a & -> & _).
    now eexists. }
  split.
  - destruct (framed layoutType); rewrite ?app_nil_r; [|exact Hids].
    rewrite !map_app. cbn [map app Node.id startNode endNode].
    apply NoDup_cons. split.
    + rewrite list_elem_of_In, in_app_iff. intros [Hin|[Hin|[]]].
      * apply Hform in Hin as [rest Hin]. discriminate Hin.
      * discriminate Hin.
    + apply NoDup_app. split; [exact Hids|]. split; [|apply NoDup_singleton].
      intros s Hs Hend. apply list_elem_of_In in Hs, Hend.
      apply Hform in Hs as [rest ->]. destruct Hend as [Hend|[]].
      discriminate Hend.
  - destruct (framed layoutType); rewrite ?app_nil_r; [|exact Hedges].
    rewrite !map_app. apply NoDup_app. split; [exact Hedges|]. split.
    + intros s Hs Hother. apply list_elem_of_In in Hs, Hother.
      apply Heform in Hs as [rest ->].
      destruct Hother as [Hother|[Hother|[]]]; discriminate Hother.
    + cbn [map app Edge.id startEdge endEdge].
      apply NoDup_cons. split; [|apply NoDup_singleton].
      rewrite list_elem_of_In. intros [Hin|[]]. discriminate Hin.
Qed.

(** X27.  Edges join nodes.  Every edge of the graph the effect builds
    goes from a node of the graph to another node of the graph. *)
Theorem flow_edges_join_nodes (actions : list value) (editable : bool)
    (layoutType : layoutType) (visualStyle : visualStyle)
    (nodes : list (Node.t number)) (edges : list Edge.t) :
  flow number of_Z max_of plus calculateCircularLayout calculateForceLayout
       calculateSwimlaneLayout actions editable layoutType visualStyle
  = Ok (Some (nodes, edges)) ->
  forall e, In e edges ->
    exists source target,
      Edge.source e = VString source /\ Edge.target e = VString target /\
      source <> target /\
      In source (map Node.id nodes) /\ In target (map Node.id nodes).
Proof.
  intros Hrun.
  apply flow_graph in Hrun
    as (Hsome & pairs & positions & actionNodes & Hnd & Hpairs & Hnodes & -> & ->).
  assert (Hnode : forall i, i < length actions ->
                            In (action_id i) (map Node.id actionNodes)).
  { intros i Hi. subst actionNodes. rewrite fmap_imap.
    destruct (lookup_lt_is_Some_2 _ _ Hi) as [a Ha].
    apply list_elem_of_In.
    apply (elem_of_lookup_imap_2 (fun index _ => action_id index) _ _ _ Ha). }
  assert (Hin : forall s, In s (map Node.id actionNodes) ->
                          forall before after,
                            In s (map Node.id (before ++ actionNodes ++ after)%list)).
  { intros s Hs before after. rewrite !map_app, !in_app_iff. tauto. }
  intros e He. rewrite !in_app_iff in He. destruct He as [He|[He|He]].
  - apply list_elem_of_In, elem_of_lookup_imap in He as (k & [i j] & -> & Hk).
    apply list_elem_of_lookup_2, list_elem_of_In, Hpairs in Hk.
    destruct (YamlFacts.related_in_range _ _ Hk) as [Hi Hj].
    destruct Hk as [Hne _]. simpl in Hi, Hj, Hne.
    exists (action_id i), (action_id j).
    split; [reflexivity|]. split; [reflexivity|].
    split; [intros H; now apply YamlFacts.action_id_inj in H|].
    split; apply Hin, Hnode; assumption.
  - destruct (framed layoutType); [|destruct He].
    destruct He as [<-|[]].
    exists "start-node", (action_id 0).
    split; [reflexivity|]. split; [reflexivity|].
    split; [discriminate|]. split; [now left|].
    apply Hin, Hnode. exact Hsome.
  - destruct (framed layoutType); [|destruct He].
    destruct He as [<-|[]].
    exists (action_id (length actions - 1)), "end-node".
    split; [reflexivity|]. split; [reflexivity|].
    split.
    + destruct (action_id_head (length actions - 1)) as [rest ->]. discriminate.
    + split; [apply Hin, Hnode; lia|].
      rewrite !map_app, !in_app_iff. right. right. now left.
Qed.

(** X28.  The nodes and their marks.  The graph has one node for each
    action, in the order of the list, and around them the start and the
    end node when the layout is framed; the node of the action at an index
    carries that action, is marked as the start exactly at index 0 and as
    the end exactly at the last index. *)
Theorem flow_nodes_marked (actions : list value) (editable : bool)
    (layoutType : layoutType) (visualStyle : visualStyle)
    (nodes : list (Node.t number)) (edges : list Edge.t) :
  flow number of_Z max_of plus calculateCircularLayout calculateForceLayout
       calculateSwimlaneLayout actions editable layoutType visualStyle
  = Ok (Some (nodes, edges)) ->
  length nodes = length actions + (if framed layoutType then 2 else 0)
  /\ forall index action,
       actions !! index = Some action ->
       exists node,
         nodes !! (index + if framed layoutType then 1 else 0) = Some node
         /\ Node.id node = action_id index
         /\ exists nodeStyle,
              Node.data node
              = ActionData action (index =? 0)%nat
                           (index =? length actions - 1)%nat
                           editable index visualStyle nodeStyle.
Proof.
  intros Hrun.
  apply flow_graph in Hrun
    as (Hsome & pairs & positions & actionNodes & Hnd & Hpairs & Hnodes & -> & ->).
  assert (Hlen : length actionNodes = length actions)
    by (subst actionNodes; apply length_imap).
  split.
  - destruct (framed layoutType); rewrite ?length_app, ?length_cons, ?Hlen;
      simpl; lia.
  - intros index action Haction.
    exists (actionNode number of_Z editable visualStyle
              [action_id 0] [action_id (length actions - 1)] positions
              index action).
    split; [|split; [reflexivity|]].
    + assert (Hat : actionNodes !! index
                    = Some (actionNode number of_Z editable visualStyle
                              [action_id 0] [action_id (length actions - 1)]
                              positions index action)).
      { subst actionNodes. rewrite list_lookup_imap, Haction. reflexivity. }
      destruct (framed layoutType).
      * replace (index + 1) with (S index) by lia.
        change (([startNode number of_Z] ++ ?l)%list !! S index)
          with (l !! index).
        now rewrite lookup_app_l by (rewrite Hlen; eapply lookup_lt_Some; eauto).
      * rewrite Nat.add_0_r. cbn [app].
        now rewrite lookup_app_l by (rewrite Hlen; eapply lookup_lt_Some; eauto).
    + eexists. unfold actionNode. cbn [Node.data existsb].
      rewrite !action_id_eqb, !orb_false_r. reflexivity.
Qed.

(** X30.  When there is a graph.  On an empty list the effect sets
    nothing.  On any other list it throws what [findRelationships] throws;
    and when [findRelationships] returns, then in the rows of three, the
    grid and the time line the effect returns a graph, with one edge for
    each relationship and, when framed, the two edges of the start and
    the end node. *)
Theorem flow_returns (actions : list value) (editable : bool)
    (layoutType : layoutType) (visualStyle : visualStyle) :
  (actions = [] ->
   flow number of_Z max_of plus calculateCircularLayout calculateForceLayout
        calculateSwimlaneLayout actions editable layoutType visualStyle
   = Ok None)
  /\ (actions <> [] ->
      forall e, findRelationships actions = Throw e ->
        flow number of_Z max_of plus calculateCircularLayout calculateForceLayout
             calculateSwimlaneLayout actions editable layoutType visualStyle
        = Throw e)
  /\ (actions <> [] ->
      layoutType = HIERARCHICAL \/ layoutType = GRID \/ layoutType = TIMELINE ->
      forall relationships, findRelationships actions = Ok relationships ->
        exists nodes edges,
          flow number of_Z max_of plus calculateCircularLayout
               calculateForceLayout calculateSwimlaneLayout
               actions editable layoutType visualStyle
          = Ok (Some (nodes, edges))
          /\ length edges
             = length relationships + (if framed layoutType then 2 else 0)).
Proof.
  split; [intros ->; reflexivity|].
  assert (Hlen : actions <> [] -> (length actions =? 0)%nat = false).
  { intros Hsome. destruct actions; [contradiction|reflexivity]. }
  split.
  - intros Hsome e Hthrow. unfold flow. rewrite (Hlen Hsome), Hthrow. reflexivity.
  - intros Hsome Hlayout relationships Hrel. unfold flow.
    rewrite (Hlen Hsome), Hrel. cbn [rbind].
    destruct (findStartAndEndActions actions relationships)
      as [startActions endActions] eqn:Hends.
    assert (Hstart : startActions = [action_id 0]
                     /\ endActions = [action_id (length actions - 1)]).
    { unfold findStartAndEndActions in Hends.
      destruct actions as [|a [|b rest]]; [contradiction| |];
        injection Hends as <- <-; split; reflexivity. }
    destruct Hstart as [-> ->].
    assert (Hpositions : exists positions,
               getNodePositions number of_Z calculateCircularLayout
                 calculateForceLayout calculateSwimlaneLayout actions layoutType
               = Ok positions).
    { destruct Hlayout as [-> | [-> | ->]]; cbn [getNodePositions];
        [|now eexists|now eexists].
      unfold calculateHierarchicalLayout. rewrite Hrel. now eexists. }
    destruct Hpositions as [positions ->]. cbn [rbind].
    destruct (YamlFacts.findRelationships_pairs _ _ Hrel) as (pairs & -> & _ & _).
    pose proof (sequence_relationshipEdges visualStyle pairs 0) as Hseq.
    cbn [Nat.add] in Hseq.
    rewrite (imap_ext _ (relationshipEdge visualStyle) (edges_of pairs)) in Hseq
      by reflexivity.
    rewrite Hseq. cbn [rbind].
    eexists. eexists. split; [reflexivity|].
    rewrite !length_app, length_imap. unfold edges_of. rewrite length_map.
    destruct (framed layoutType); cbn; lia.
Qed.

End GraphFacts.

(** A run of X26, X27 and X28: the graph of the scenario, in rows of three
    and framed. *)
Lemma flow_identifiers_unique_witness :
  exists nodes edges,
    scenario_graph = Ok (Some (nodes, edges))
    /\ NoDup (map Node.id nodes) /\ NoDup (map Edge.id edges).
Proof.
  eexists. eexists. split; [reflexivity|].
  apply (flow_identifiers_unique Z (fun n => n) max_whole Z.add
           no_layout no_layout no_layout scenario true HIERARCHICAL DEFAULT).
  reflexivity.
Defined.

Lemma flow_edges_join_nodes_witness :
  exists nodes edges,
    scenario_graph = Ok (Some (nodes, edges))
    /\ forall e, In e edges ->
         exists source target,
           Edge.source e = VString source /\ Edge.target e = VString target /\
           source <> target /\
           In source (map Node.id nodes) /\ In target (map Node.id nodes).
Proof.
  eexists. eexists. split; [reflexivity|].
  apply (flow_edges_join_nodes Z (fun n => n) max_whole Z.add
           no_layout no_layout no_layout scenario true HIERARCHICAL DEFAULT).
  reflexivity.
Defined.

Lemma flow_nodes_marked_witness :
  exists nodes edges,
    scenario_graph = Ok (Some (nodes, edges))
    /\ length nodes = length scenario + 2.
Proof.
  eexists. eexists. split; [reflexivity|].
  exact (proj1 (flow_nodes_marked Z (fun n => n) max_whole Z.add
                  no_layout no_layout no_layout scenario true HIERARCHICAL
                  DEFAULT _ _ eq_refl)).
Defined.

(** A run of X30: the scenario in a grid. *)
Lemma flow_returns_witness :
  exists nodes edges,
    flow Z (fun n => n) max_whole Z.add no_layout no_layout no_layout
         scenario true GRID DEFAULT
    = Ok (Some (nodes, edges))
    /\ length edges = length [edge 0 1] + (if framed GRID then 2 else 0).
Proof.
  apply (proj2 (proj2 (flow_returns Z (fun n => n) max_whole Z.add
                         no_layout no_layout no_layout scenario true GRID
                         DEFAULT))).
  - discriminate.
  - right. now left.
  - vm_compute. reflexivity.
Defined.

End FlowFacts.
